(** * pyOCCT_binder: a shallow embedding of [pybinder/core.py]

  The binding generator walks a libclang AST, groups declarations into
  modules, and prints pybind11 source text.  This development embeds the
  decision logic of [pybinder/core.py] -- the configuration loader, the
  traversal, the module graph queries, the code generators and the
  file writer -- as Rocq functions, and proves properties of them.

  Conventions.
  - Python [str] is [string]: the bytes of its UTF-8 encoding, which is
    also what the generator writes to its files.  Searching, splitting
    and comparing are the same on the bytes as on the code points; the
    [str] methods the source calls are defined in section "Python
    strings" below.
  - Python [set] is [gset string]; [dict] is [gmap string _];
    [OrderedDict] is an association list in insertion order.
  - What libclang answers about a cursor or a type (its kind, spelling,
    children, access specifier, ...) is input data: a field of [Cursor]
    or [TypeBinder].
  - A function of the source that mutates an object returns the new
    object; a function that may raise returns a sum. *)

From Stdlib Require Import ZArith Ascii.
From stdpp Require Import gmap strings list pretty.


Local Open Scope list_scope.

(** * Python strings *)

Module Str.

(** [s.startswith(p)] *)
Definition startswith (s p : string) : bool := String.prefix p s.

(** [len(s)] *)
Definition len (s : string) : nat := String.length s.

(** [s[n:]] *)
Fixpoint drop (n : nat) (s : string) : string :=
  match n, s with
  | O, _ => s
  | S _, EmptyString => EmptyString
  | S k, String _ s' => drop k s'
  end.

(** [s[:n]] *)
Fixpoint take (n : nat) (s : string) : string :=
  match n, s with
  | O, _ => EmptyString
  | S _, EmptyString => EmptyString
  | S k, String c s' => String c (take k s')
  end.

(** [s.endswith(p)] *)
Definition endswith (s p : string) : bool :=
  (len p <=? len s)%nat && String.eqb (drop (len s - len p) s) p.

(** [s.find(sub)]: the index of the leftmost occurrence. *)
Fixpoint find (sub s : string) : option nat :=
  if String.prefix sub s then Some O
  else match s with
       | EmptyString => None
       | String _ s' => option_map S (find sub s')
       end.

(** [sub in s] *)
Definition contains (sub s : string) : bool :=
  match find sub s with Some _ => true | None => false end.

(** [s.replace(old, new)]: every occurrence, left to right, without
    overlap.  [replace_go] is the case of a non-empty [old]; [skip] counts
    the characters of the occurrence just replaced that are still to be
    passed over. *)
Fixpoint replace_go (old new s : string) (skip : nat) : string :=
  match s with
  | EmptyString => EmptyString
  | String c s' =>
      match skip with
      | S k => replace_go old new s' k
      | O =>
          if String.prefix old s
          then new +:+ replace_go old new s' (len old - 1)
          else String c (replace_go old new s' 0)
      end
  end.

(** [s.replace("", new)]: [new] before every character and at the end. *)
Fixpoint interleave (new s : string) : string :=
  match s with
  | EmptyString => new
  | String c s' => new +:+ String c (interleave new s')
  end.

Definition replace (s old new : string) : string :=
  match old with
  | EmptyString => interleave new s
  | _ => replace_go old new s 0
  end.

(** [s.replace(old, new, 1)] *)
Definition replace1 (s old new : string) : string :=
  match find old s with
  | Some i => take i s +:+ new +:+ drop (i + len old) s
  | None => s
  end.

(** [s.split(sep)] for a non-empty [sep]. [cur] is the piece being read. *)
Fixpoint split_go (sep s : string) (skip : nat) (cur : string) : list string :=
  match s with
  | EmptyString => [cur]
  | String c s' =>
      match skip with
      | S k => split_go sep s' k cur
      | O =>
          if String.prefix sep s
          then cur :: split_go sep s' (len sep - 1) EmptyString
          else split_go sep s' 0 (cur +:+ String c EmptyString)
      end
  end.

Definition split (s sep : string) : list string := split_go sep s 0 EmptyString.

(** [s.split(sep, 1)] *)
Definition split1 (s sep : string) : list string :=
  match find sep s with
  | Some i => [take i s; drop (i + len sep) s]
  | None => [s]
  end.

(** [sep.join(l)] *)
Definition join (sep : string) (l : list string) : string := String.concat sep l.

(** The code points for which [str.isspace] holds: U+0009 to U+000D,
    U+001C to U+0020, U+0085, U+00A0, U+1680, U+2000 to U+200A, U+2028,
    U+2029, U+202F, U+205F and U+3000.  [space_len s] is the number of
    bytes of the white-space character that [s] starts with, and 0 when
    it starts with none. *)
Definition space_len (s : string) : nat :=
  match s with
  | EmptyString => 0
  | String c s1 =>
      let n := nat_of_ascii c in
      if ((9 <=? n) && (n <=? 13) || (28 <=? n) && (n <=? 32))%nat then 1
      else if (n =? 194)%nat then
        match s1 with
        | String c1 _ =>
            let n1 := nat_of_ascii c1 in
            (* U+0085, U+00A0 *)
            if ((n1 =? 133) || (n1 =? 160))%nat then 2 else 0
        | EmptyString => 0
        end
      else if ((n =? 225) || (n =? 226) || (n =? 227))%nat then
        match s1 with
        | String c1 (String c2 _) =>
            let n1 := nat_of_ascii c1 in
            let n2 := nat_of_ascii c2 in
            if (* U+1680 *)
               ((n =? 225) && (n1 =? 154) && (n2 =? 128)
                (* U+2000 to U+200A, U+2028, U+2029, U+202F *)
                || (n =? 226) && (n1 =? 128)
                   && ((128 <=? n2) && (n2 <=? 138)
                       || (n2 =? 168) || (n2 =? 169) || (n2 =? 175))
                (* U+205F *)
                || (n =? 226) && (n1 =? 129) && (n2 =? 159)
                (* U+3000 *)
                || (n =? 227) && (n1 =? 128) && (n2 =? 128))%nat
            then 3 else 0
        | _ => 0
        end
      else 0
  end.

(** Strip from the left the characters told by [space]; [skip] counts
    the bytes still to be passed over of the character being stripped. *)
Fixpoint lstrip_go (space : string -> nat) (s : string) (skip : nat) : string :=
  match s with
  | EmptyString => EmptyString
  | String _ s' =>
      match skip with
      | S k => lstrip_go space s' k
      | O =>
          match space s with
          | O => s
          | S k => lstrip_go space s' k
          end
      end
  end.

(** Strip from the right: a byte is kept when what starts with it is not
    made of stripped characters alone. *)
Fixpoint rstrip_go (space : string -> nat) (s : string) : string :=
  match s with
  | EmptyString => EmptyString
  | String c s' =>
      match lstrip_go space s 0 with
      | EmptyString => EmptyString
      | _ => String c (rstrip_go space s')
      end
  end.

(** [s.lstrip()], [s.rstrip()] *)
Definition lstrip (s : string) : string := lstrip_go space_len s 0.
Definition rstrip (s : string) : string := rstrip_go space_len s.

(** [s.strip()] *)
Definition strip (s : string) : string := rstrip (lstrip s).

(** [s.strip(chars)]: strip the characters of [chars] from both ends. *)
Fixpoint lstrip_chars (chars : list ascii) (s : string) : string :=
  match s with
  | String c s' => if bool_decide (c ∈ chars) then lstrip_chars chars s' else s
  | EmptyString => EmptyString
  end.

Fixpoint rstrip_chars (chars : list ascii) (s : string) : string :=
  match s with
  | EmptyString => EmptyString
  | String c s' =>
      match rstrip_chars chars s' with
      | EmptyString =>
          if bool_decide (c ∈ chars) then EmptyString else String c EmptyString
      | r => String c r
      end
  end.

Definition strip_chars (s : string) (chars : list ascii) : string :=
  rstrip_chars chars (lstrip_chars chars s).

(** [s.upper()] on ASCII letters; the names the generator puts in upper
    case are C++ identifiers. *)
Definition upper_char (c : ascii) : ascii :=
  let n := nat_of_ascii c in
  if ((97 <=? n) && (n <=? 122))%nat then ascii_of_nat (n - 32) else c.

Fixpoint upper (s : string) : string :=
  match s with
  | EmptyString => EmptyString
  | String c s' => String (upper_char c) (upper s')
  end.

(** [str(n)] for a natural number. *)
Definition of_nat (n : nat) : string := pretty n.

(** [bool(s)]: a string is true when it is not empty. *)
Definition truthy (s : string) : bool :=
  match s with EmptyString => false | _ => true end.

(** The characters the source writes with a backslash. *)
Definition nl : string := String (ascii_of_nat 10) EmptyString.
Definition tab : string := String (ascii_of_nat 9) EmptyString.
Definition dq : string := String (ascii_of_nat 34) EmptyString.

(** [s] between double quotes. *)
Definition quoted (s : string) : string := dq +:+ s +:+ dq.

End Str.


(** * Rule tables: the attributes of [Generator]

    The class attributes of [Generator] are process-wide tables.  They are
    grouped here by their Python type; [Generator.t] maps each attribute
    name to its current value, as the class dictionary does. *)

Module Generator.

(** Attributes that hold a [set] of strings. *)
Inductive SetAttr :=
| available_mods | available_incs | available_templates
| excluded_classes | excluded_functions | excluded_rtypes | excluded_enums
| excluded_fnames | excluded_mods | excluded_typedefs | excluded_fields
| excluded_headers | excluded_namespaces | nodelete | nested_classes
| downcast_classes | skipped | immutable | split | opaque_types
| common_includes.

(** Attributes that hold a [dict] from a string to a list of strings. *)
Inductive ListDictAttr :=
| excluded_bases | plus_headers | minus_headers | excluded_imports
| call_guards | before_type | after_type | before_module | compiler_args.

(** Attributes that hold a [dict] from a string to a string. *)
Inductive StrDictAttr := python_names | keep_alive | return_policies.

#[global] Instance SetAttr_eq_dec : EqDecision SetAttr.
Proof. solve_decision. Defined.
#[global] Instance ListDictAttr_eq_dec : EqDecision ListDictAttr.
Proof. solve_decision. Defined.
#[global] Instance StrDictAttr_eq_dec : EqDecision StrDictAttr.
Proof. solve_decision. Defined.

Record t := mk {
  sets : SetAttr -> gset string;
  list_dicts : ListDictAttr -> gmap string (list string);
  str_dicts : StrDictAttr -> gmap string string;
  (** [import_guards]: module name to the set of guarded imports *)
  import_guards : gmap string (gset string);
  (** [sort_order]: module name to (pattern, priority) pairs *)
  sort_order : gmap string (list (string * Z));
  (** [patches]: file name to the [split('-->', 1)] of each patch text *)
  patches : gmap string (list (list string));
  (** [include_dirs] *)
  include_dirs : list string;
  (** [namespace]: package name to its module names *)
  namespace : list (string * list string)
}.

(** The tables as the class statement initialises them. *)
Definition initial : t := {|
  sets := fun a => match a with excluded_namespaces => {["std"]} | _ => ∅ end;
  list_dicts := fun _ => ∅;
  str_dicts := fun _ => ∅;
  import_guards := ∅;
  sort_order := ∅;
  patches := ∅;
  include_dirs := [];
  namespace := []
|}.

(** [x in Generator.a] *)
Definition mem (g : t) (a : SetAttr) (x : string) : bool :=
  bool_decide (x ∈ sets g a).

(** [Generator.a.add(x)] *)
Definition add (a : SetAttr) (x : string) (g : t) : t :=
  mk (fun b => if decide (a = b) then {[x]} ∪ sets g b else sets g b)
     (list_dicts g) (str_dicts g) (import_guards g) (sort_order g)
     (patches g) (include_dirs g) (namespace g).

(** [Generator.a.get(k)] *)
Definition lookup_list (g : t) (a : ListDictAttr) (k : string) : option (list string) :=
  list_dicts g a !! k.

(** [if k in d: d[k].append(v) else: d[k] = [v]] *)
Definition dict_append {V} (k : string) (v : V) (d : gmap string (list V))
  : gmap string (list V) :=
  match d !! k with
  | Some l => <[k := l ++ [v]]> d
  | None => <[k := [v]]> d
  end.

Definition append (a : ListDictAttr) (k v : string) (g : t) : t :=
  mk (sets g)
     (fun b => if decide (a = b) then dict_append k v (list_dicts g b)
               else list_dicts g b)
     (str_dicts g) (import_guards g) (sort_order g)
     (patches g) (include_dirs g) (namespace g).

(** [Generator.a\[k\] = v] *)
Definition set_str (a : StrDictAttr) (k v : string) (g : t) : t :=
  mk (sets g) (list_dicts g)
     (fun b => if decide (a = b) then <[k := v]> (str_dicts g b)
               else str_dicts g b)
     (import_guards g) (sort_order g)
     (patches g) (include_dirs g) (namespace g).

Definition lookup_str (g : t) (a : StrDictAttr) (k : string) : option string :=
  str_dicts g a !! k.

Definition with_import_guards (v : gmap string (gset string)) (g : t) : t :=
  mk (sets g) (list_dicts g) (str_dicts g) v (sort_order g)
     (patches g) (include_dirs g) (namespace g).

Definition with_sort_order (v : gmap string (list (string * Z))) (g : t) : t :=
  mk (sets g) (list_dicts g) (str_dicts g) (import_guards g) v
     (patches g) (include_dirs g) (namespace g).

Definition with_patches (v : gmap string (list (list string))) (g : t) : t :=
  mk (sets g) (list_dicts g) (str_dicts g) (import_guards g) (sort_order g)
     v (include_dirs g) (namespace g).

Definition with_include_dirs (v : list string) (g : t) : t :=
  mk (sets g) (list_dicts g) (str_dicts g) (import_guards g) (sort_order g)
     (patches g) v (namespace g).

Definition with_namespace (v : list (string * list string)) (g : t) : t :=
  mk (sets g) (list_dicts g) (str_dicts g) (import_guards g) (sort_order g)
     (patches g) (include_dirs g) v.

End Generator.

(** * Exceptions, and what the generator takes from its surroundings *)

(** The exceptions the embedded code raises: the unpacking of a [split]
    into a fixed number of names, [int] on a bad literal or on one with
    more digits than the interpreter allows, and a key that a dictionary
    does not hold. *)
Inductive Exception :=
| ValueError_unpack (expected got : nat)
| ValueError_int (literal : string)
| ValueError_int_max_str_digits (limit digits : nat)
| KeyError (key : string).

(** [RuntimeError(f"Error in config at line {i}: {e}")] *)
Inductive RuntimeError := Error_in_config_at_line (i : nat) (e : Exception).

(** [SRC_PREFIX] and [PY_OPERATORS] come from [pybinder.common], which is
    not part of the sources at hand; [fnmatch] and SHA-256 are the Python
    library's.  The rest is the interpreter's: the order in which it
    iterates a set of strings changes from one process to the next with
    the seed of its string hashes, and what [int] makes of digits beyond
    ASCII, and of long literals, changes with its version and settings. *)
Class Environment := {
  (** the banner written at the top of every generated file *)
  SRC_PREFIX : string;
  (** C++ operator spelling to Python special-method name *)
  PY_OPERATORS : list (string * string);
  (** [fnmatch.fnmatch(name, pat)] *)
  fnmatch : string -> string -> bool;
  (** [hashlib.sha256(data).hexdigest()] *)
  sha256 : string -> string;
  (** [list(s)] for a set [s] of strings: its elements, in the order in
      which this process iterates the set *)
  iter_set : gset string -> list string;
  (** every element of the set comes once *)
  iter_set_elements : ∀ s : gset string, iter_set s ≡ₚ elements s;
  (** [sys.get_int_max_str_digits()]; 0 when there is no limit *)
  int_max_str_digits : nat;
  (** [int(s)] for a literal [s], stripped, that holds characters beyond
      ASCII *)
  int_beyond_ascii : string -> Exception + Z
}.

(** * Loading the configuration: [Generator.process_config] *)

Section Config.
Context `{Environment}.

(** [int(s)].  White space is skipped at both ends: the characters
    U+0009 to U+000D and U+0020, and those beyond ASCII for which
    [str.isspace] holds.  Then comes an optional sign, then decimal
    digits, where single underscores may separate digits.  A literal with
    more than 640 digits is refused when it has more than the limit. *)
Definition int_space_len (s : string) : nat :=
  match s with
  | EmptyString => 0
  | String c _ =>
      let n := nat_of_ascii c in
      if ((9 <=? n) && (n <=? 13) || (n =? 32))%nat then 1
      else if (n <? 128)%nat then 0
      else Str.space_len s
  end.

Definition digit_of (c : ascii) : option Z :=
  let n := nat_of_ascii c in
  if ((48 <=? n) && (n <=? 57))%nat then Some (Z.of_nat n - 48)%Z else None.

(** The value of the digits of [s] and their number; [None] when [s] is
    not made of digits and single underscores between them. *)
Fixpoint int_digits (s : string) (acc : Z) (count : nat) (after_digit : bool)
  : option (Z * nat) :=
  match s with
  | EmptyString => if after_digit then Some (acc, count) else None
  | String c s' =>
      match digit_of c with
      | Some d => int_digits s' (10 * acc + d)%Z (S count) true
      | None =>
          if Ascii.eqb c "_" && after_digit
          then match s' with
               | EmptyString => None
               | _ => int_digits s' acc count false
               end
          else None
      end
  end.

Fixpoint is_ascii (s : string) : bool :=
  match s with
  | EmptyString => true
  | String c s' => (nat_of_ascii c <? 128)%nat && is_ascii s'
  end.

Definition py_int (s : string) : Exception + Z :=
  let literal := Str.rstrip_go int_space_len (Str.lstrip_go int_space_len s 0) in
  if negb (is_ascii literal) then int_beyond_ascii literal
  else
    let '(negative, digits) :=
      match literal with
      | String "-" s' => (true, s')
      | String "+" s' => (false, s')
      | s' => (false, s')
      end in
    match int_digits digits 0 0 false with
    | None => inl (ValueError_int s)
    | Some (n, count) =>
        if (640 <? count)%nat && (0 <? int_max_str_digits)%nat
           && (int_max_str_digits <? count)%nat
        then inl (ValueError_int_max_str_digits int_max_str_digits count)
        else inr (if negative then (- n)%Z else n)
    end.

(** What processing one line leaves: the tables, and the exception if the
    line raised.  The tables are returned in both cases, since what a line
    wrote before it raised stays written. *)
Definition LineResult : Type := Generator.t * option Exception.

Definition done (g : Generator.t) : LineResult := (g, None).
Definition raise (g : Generator.t) (e : Exception) : LineResult := (g, Some e).

(** [a, b = l] *)
Definition unpack2 (g : Generator.t) (l : list string)
    (k : string -> string -> LineResult) : LineResult :=
  match l with
  | [a; b] => k a b
  | _ => raise g (ValueError_unpack 2 (length l))
  end.

(** The directive families [-class] and [-function]: the action word may
    carry a platform after an [@]. *)
Definition platform_directive (platform : string) (g : Generator.t)
    (line : string) (apply : string -> Generator.t) : LineResult :=
  unpack2 g (Str.split1 line " ") (fun action line =>
    if Str.contains "@" action then
      unpack2 g (Str.split action "@") (fun action platform_ =>
        if negb (String.eqb platform_ platform) then done g
        else done (apply line))
    else done (apply line)).

(** The directives tested after [+return_policy]. *)
Definition process_line_rest (g : Generator.t) (line : string) : LineResult :=
  if Str.startswith line "+cguard" then
    let line := Str.strip (Str.replace line "+cguard" "") in
    unpack2 g (Str.split1 line "-->") (fun qname mod_ =>
      let qname := Str.strip qname in
      let mod_ := Str.strip mod_ in
      let txt := "py::call_guard<Import" +:+ mod_ +:+ ">()" in
      done (Generator.append Generator.call_guards qname txt g))
  else if Str.startswith line "+keep_alive" then
    let line := Str.strip (Str.replace line "+keep_alive" "") in
    unpack2 g (Str.split1 line "-->") (fun qname params =>
      done (Generator.set_str Generator.keep_alive (Str.strip qname)
              (Str.strip params) g))
  else if Str.startswith line "+nested" then
    let line := Str.strip (Str.replace line "+nested" "") in
    done (Generator.add Generator.nested_classes line g)
  else if Str.startswith line "+downcast" then
    let line := Str.strip (Str.replace line "+downcast" "") in
    done (Generator.add Generator.downcast_classes line g)
  else if Str.startswith line "+skip" then
    let line := Str.strip (Str.replace line "+skip" "") in
    done (Generator.add Generator.skipped line g)
  else if Str.startswith line "+before_type" then
    let line := Str.strip (Str.replace1 line "+before_type" "") in
    unpack2 g (Str.split1 line "-->") (fun qname txt =>
      done (Generator.append Generator.before_type (Str.strip qname)
              (Str.strip txt) g))
  else if Str.startswith line "+after_type" then
    let line := Str.strip (Str.replace1 line "+after_type" "") in
    unpack2 g (Str.split1 line "-->") (fun qname txt =>
      done (Generator.append Generator.after_type (Str.strip qname)
              (Str.strip txt) g))
  else if Str.startswith line "+immutable" then
    let line := Str.strip (Str.replace line "+immutable" "") in
    done (Generator.add Generator.immutable line g)
  else if Str.startswith line "+split" then
    let line := Str.strip (Str.replace line "+split" "") in
    done (Generator.add Generator.split line g)
  else if Str.startswith line "+patch" then
    let line := Str.strip (Str.replace line "+patch" "") in
    unpack2 g (Str.split1 line ":") (fun qname txt =>
      let qname := Str.strip qname in
      let pair := Str.split1 (Str.strip txt) "-->" in
      done (Generator.with_patches
              (Generator.dict_append qname pair (Generator.patches g)) g))
  else if Str.startswith line "+opaque" then
    let line := Str.strip (Str.drop (Str.len "+opaque") line) in
    done (Generator.add Generator.opaque_types line g)
  else if Str.startswith line "+before_module" then
    let line := Str.strip (Str.replace1 line "+before_module" "") in
    unpack2 g (Str.split1 line "-->") (fun mod_ txt =>
      done (Generator.append Generator.before_module (Str.strip mod_)
              (Str.strip txt) g))
  else done g.

(** One pass of the loop body of [process_config] on one line of the
    file.  [platform] is [sys.platform].  The tests are made in the order
    of the source; [+return_policy] does not [continue], so the directives
    after it are tested on the line it has rewritten. *)
Definition process_line (platform : string) (g : Generator.t)
    (line : string) : LineResult :=
  let line := Str.strip line in
  if Str.startswith line "#" || negb (Str.truthy line) then done g
  else if Str.startswith line "+arg" then
    let line := Str.strip (Str.replace line "+arg" "") in
    unpack2 g (Str.split line ":") (fun platform_ arg =>
      done (Generator.append Generator.compiler_args (Str.strip platform_)
              (Str.strip arg) g))
  else if Str.startswith line "+include" then
    let line := Str.strip (Str.replace line "+include" "") in
    done (Generator.with_include_dirs (Generator.include_dirs g ++ [line]) g)
  else if Str.startswith line "+sort" then
    let line := Str.strip (Str.replace line "+sort" "") in
    unpack2 g (Str.split line ":") (fun mod_ value =>
      let mod_ := Str.strip mod_ in
      unpack2 g (Str.split value "=") (fun pattern prio =>
        let g :=
          match Generator.sort_order g !! mod_ with
          | Some _ => g
          | None =>
              Generator.with_sort_order (<[mod_ := []]> (Generator.sort_order g)) g
          end in
        match py_int (Str.strip prio) with
        | inr n =>
            done (Generator.with_sort_order
                    (Generator.dict_append mod_ (Str.strip pattern, n)
                       (Generator.sort_order g)) g)
        | inl e => raise g e
        end))
  else if Str.startswith line "-header*" then
    let line := Str.strip (Str.replace line "-header*" "") in
    done (Generator.add Generator.excluded_headers line g)
  else if Str.startswith line "-class" then
    platform_directive platform g line (fun line =>
      Generator.add Generator.excluded_classes (Str.strip line) g)
  else if Str.startswith line "-typedef" then
    let line := Str.strip (Str.replace line "-typedef" "") in
    done (Generator.add Generator.excluded_typedefs line g)
  else if Str.startswith line "-function*" then
    let line := Str.replace (Str.strip (Str.replace line "-function*" "")) "[" "[[]" in
    done (Generator.add Generator.excluded_fnames line g)
  else if Str.startswith line "-function" then
    platform_directive platform g line (fun line =>
      Generator.add Generator.excluded_functions
        (Str.replace (Str.strip line) "[" "[[]") g)
  else if Str.startswith line "-rtype" then
    let line := Str.replace (Str.strip (Str.replace line "-rtype" "")) "[" "[[]" in
    done (Generator.add Generator.excluded_rtypes line g)
  else if Str.startswith line "-enum" then
    let line := Str.strip (Str.replace line "-enum" "") in
    done (Generator.add Generator.excluded_enums line g)
  else if Str.startswith line "-module" then
    let line := Str.strip (Str.replace line "-module" "") in
    done (Generator.add Generator.excluded_mods line g)
  else if Str.startswith line "+iguard" then
    let line := Str.strip (Str.replace line "+iguard" "") in
    unpack2 g (Str.split line ":") (fun mod_ other =>
      let mod_ := Str.strip mod_ in
      let other := Str.strip other in
      let guards := Generator.import_guards g in
      done (Generator.with_import_guards
              (match guards !! mod_ with
               | Some s => <[mod_ := {[other]} ∪ s]> guards
               | None => <[mod_ := {[other]}]> guards
               end) g))
  else if Str.startswith line "+header" then
    let line := Str.strip (Str.replace line "+header" "") in
    unpack2 g (Str.split line ":") (fun mod_ header =>
      done (Generator.append Generator.plus_headers (Str.strip mod_)
              (Str.strip header) g))
  else if Str.startswith line "-header" then
    let line := Str.strip (Str.replace line "-header" "") in
    unpack2 g (Str.split line ":") (fun mod_ header =>
      done (Generator.append Generator.minus_headers (Str.strip mod_)
              (Str.strip header) g))
  else if Str.startswith line "+pname" then
    let line := Str.strip (Str.replace line "+pname" "") in
    unpack2 g (Str.split1 line "-->") (fun type_ name =>
      done (Generator.set_str Generator.python_names (Str.strip type_)
              (Str.strip name) g))
  else if Str.startswith line "+nodelete" then
    let line := Str.strip (Str.replace line "+nodelete" "") in
    done (Generator.add Generator.nodelete line g)
  else if Str.startswith line "-base" then
    let line := Str.strip (Str.replace line "-base" "") in
    unpack2 g (Str.split1 line ":") (fun qname base =>
      done (Generator.append Generator.excluded_bases (Str.strip qname)
              (Str.strip base) g))
  else if Str.startswith line "-field" then
    let line := Str.strip (Str.replace line "-field" "") in
    done (Generator.add Generator.excluded_fields line g)
  else if Str.startswith line "-import" then
    let line := Str.strip (Str.replace line "-import" "") in
    unpack2 g (Str.split1 line ":") (fun mod1 mod2 =>
      done (Generator.append Generator.excluded_imports (Str.strip mod1)
              (Str.strip mod2) g))
  else if Str.startswith line "+return_policy" then
    let line := Str.strip (Str.replace line "+return_policy" "") in
    unpack2 g (Str.split1 line "-->") (fun qname policy =>
      process_line_rest
        (Generator.set_str Generator.return_policies (Str.strip qname)
           (Str.strip policy) g)
        line)
  else process_line_rest g line.

(** The loop of [process_config] over the lines of the file, from line
    index [line_number].  A line that raises ends the load with a
    [RuntimeError] that carries [line_number + 1]. *)
Fixpoint process_lines (platform : string) (g : Generator.t)
    (lines : list string) (line_number : nat)
  : Generator.t * option RuntimeError :=
  match lines with
  | [] => (g, None)
  | line :: rest =>
      match process_line platform g line with
      | (g', None) => process_lines platform g' rest (S line_number)
      | (g', Some e) =>
          let i := line_number + 1 in
          (g', Some (Error_in_config_at_line i e))
      end
  end.

(** [Generator.process_config], on the lines of the file [fn]. *)
Definition process_config (platform : string) (g : Generator.t)
    (lines : list string) : Generator.t * option RuntimeError :=
  process_lines platform g lines 0.

End Config.

(** * The libclang AST

    The front end is external.  A [Clang.Cursor] records what libclang
    answers about one node of the AST; the links to other nodes that
    libclang resolves ([get_definition], [type.get_declaration], ...) are
    fields too, [None] standing for the null cursor. *)

Module Clang.

Inductive CursorKind :=
| TRANSLATION_UNIT | NAMESPACE | ENUM_DECL | ENUM_CONSTANT_DECL
| FUNCTION_DECL | CLASS_DECL | STRUCT_DECL | TYPEDEF_DECL | CLASS_TEMPLATE
| FUNCTION_TEMPLATE | CXX_METHOD | FIELD_DECL | CONSTRUCTOR | DESTRUCTOR
| PARM_DECL | CXX_BASE_SPECIFIER | CXX_ACCESS_SPEC_DECL
| TEMPLATE_TYPE_PARAMETER | TEMPLATE_NON_TYPE_PARAMETER | TYPE_REF
| TEMPLATE_REF | USING_DECLARATION | TYPE_ALIAS_DECL | OVERLOADED_DECL_REF
| MACRO_INSTANTIATION | NO_DECL_FOUND | OTHER_CURSOR.

Inductive AccessSpecifier := INVALID | PUBLIC | PROTECTED | PRIVATE | NONE.

Inductive TypeKind :=
| INVALID_TYPE | POINTER | LVALUEREFERENCE | RVALUEREFERENCE | RECORD
| TYPEDEF | ELABORATED | FUNCTIONPROTO | CONSTANTARRAY | INCOMPLETEARRAY
| VARIABLEARRAY | DEPENDENTSIZEDARRAY | OTHER_TYPE.

#[global] Instance CursorKind_eq_dec : EqDecision CursorKind.
Proof. solve_decision. Defined.
#[global] Instance AccessSpecifier_eq_dec : EqDecision AccessSpecifier.
Proof. solve_decision. Defined.
#[global] Instance TypeKind_eq_dec : EqDecision TypeKind.
Proof. solve_decision. Defined.

(** A type.  Besides libclang's own answers it records the answers of
    [TypeBinder.is_alias] and [TypeBinder.alias_spelling], which the source
    computes by following the type's declaration and its tokens. *)
Record Type_ := mkType {
  t_spelling : string;
  t_kind : TypeKind;
  t_is_const_qualified : bool;
  (** [get_canonical()]: its spelling and kind *)
  t_canonical_spelling : string;
  t_canonical_kind : TypeKind;
  (** [get_pointee()]: its spelling and kind *)
  t_pointee_spelling : string;
  t_pointee_kind : TypeKind;
  t_is_alias : bool;
  t_alias_spelling : string
}.

(** A node above a cursor on its chain of semantic parents. *)
Record Ancestor := mkAncestor {
  a_kind : CursorKind;
  a_spelling : string;
  a_displayname : string;
  a_type_spelling : string;
  (** its [CXX_METHOD] children: spelling, and whether public *)
  a_methods : list (string * bool)
}.

#[warnings="-register-all"]
Inductive Cursor := mkCursor {
  kind : CursorKind;
  spelling : string;
  displayname : string;
  brief_comment : option string;
  (** [location.file.name] *)
  location_file : option string;
  access_specifier : AccessSpecifier;
  is_definition : bool;
  is_abstract_record : bool;
  is_pure_virtual_method : bool;
  is_const_method : bool;
  is_static_method : bool;
  is_move_constructor : bool;
  is_anonymous : bool;
  is_bitfield : bool;
  (** [hash], by which binders are compared *)
  hash : Z;
  type_ : Type_;
  result_type : Type_;
  (** [get_tokens()], each by its spelling *)
  tokens : list string;
  (** the chain of [semantic_parent], nearest first, up to and including
      the translation unit *)
  ancestors : list Ancestor;
  children : list Cursor;
  (** [get_definition()] *)
  definition : option Cursor;
  (** [clang_getSpecializedCursorTemplate] *)
  specialization : option Cursor;
  (** [type.get_declaration()] *)
  type_declaration : option Cursor;
  (** [type.get_canonical().get_declaration()] *)
  canonical_declaration : option Cursor;
  (** [underlying_typedef_type.get_declaration()] *)
  underlying_declaration : option Cursor
}.

Definition null_type : Type_ :=
  mkType "" INVALID_TYPE false "" INVALID_TYPE "" INVALID_TYPE false "".

(** The null cursor: what a failed lookup returns. *)
Definition null : Cursor :=
  mkCursor NO_DECL_FOUND "" "" None None INVALID false false false false
    false false false false 0 null_type null_type [] [] [] None None None
    None None.

(** A link that libclang could not resolve is the null cursor. *)
Definition deref (c : option Cursor) : Cursor := default null c.

End Clang.

(** * [TypeBinder] *)

Section TypeBinder.
Import Clang.

Definition type_is_record (t : Type_) : bool := bool_decide (t_kind t = RECORD).
Definition type_is_pointer (t : Type_) : bool := bool_decide (t_kind t = POINTER).
Definition type_is_elaborated (t : Type_) : bool :=
  bool_decide (t_kind t = ELABORATED).
Definition type_is_lvalue (t : Type_) : bool :=
  bool_decide (t_kind t = LVALUEREFERENCE).
Definition type_is_rvalue (t : Type_) : bool :=
  bool_decide (t_kind t = RVALUEREFERENCE).

Definition type_is_pointer_like (t : Type_) : bool :=
  type_is_pointer t || type_is_lvalue t || type_is_rvalue t.

Definition type_is_array_like (t : Type_) : bool :=
  bool_decide (t_kind t ∈ [CONSTANTARRAY; INCOMPLETEARRAY; VARIABLEARRAY;
                            DEPENDENTSIZEDARRAY]).

(** [TypeBinder.is_opaque]: an opaque type with no known definition. *)
Definition type_is_opaque (g : Generator.t) (t : Type_) : bool :=
  if type_is_pointer t then
    let spelling := t_spelling t in
    let spelling :=
      if Str.startswith spelling "struct " then Str.drop 7 spelling
      else spelling in
    Generator.mem g Generator.opaque_types
      (Str.strip_chars spelling ["*"; " "]%char)
  else if t_is_alias t then
    let spelling := t_alias_spelling t in
    let spelling :=
      if Str.startswith spelling "struct " then Str.drop 7 spelling
      else spelling in
    Str.endswith spelling "*"
    && Generator.mem g Generator.opaque_types
         (Str.strip_chars spelling ["*"; " "]%char)
  else false.

End TypeBinder.

(** * [MacroForHandle] *)

(** [self.name] is the first token of the macro instantiation, as
    written; the traversal takes a macro whose spelling, in upper case, is
    one of [relevant_macros]. *)
Record MacroForHandle := mkMacro {
  macro_name : string;
  type1 : string;
  type2 : string
}.

(** [d\[k\]] for a dictionary [d] written out as its items: [None] where
    the source raises [KeyError]. *)
Fixpoint assoc {V} (name : string) (table : list (string * V)) : option V :=
  match table with
  | [] => None
  | (k, v) :: rest => if String.eqb k name then Some v else assoc name rest
  end.

Definition macro2func : list (string * string) :=
  [("DEFINE_HARRAY1", "bind_Define_HArray1");
   ("DEFINE_HARRAY2", "bind_Define_HArray2");
   ("DEFINE_HSEQUENCE", "bind_Define_HSequence")].

Definition macro2headers : list (string * list string) :=
  [("DEFINE_HARRAY1", ["bind_Define_HArray1.hxx"]);
   ("DEFINE_HARRAY2", ["bind_Define_HArray2.hxx"]);
   ("DEFINE_HSEQUENCE", ["bind_Define_HSequence.hxx"])].

(** [MacroForHandle.generate] *)
Definition MacroForHandle_generate (m : MacroForHandle) : Exception + string :=
  match assoc (macro_name m) macro2func with
  | None => inl (KeyError (macro_name m))
  | Some name =>
      inr (name +:+ "<" +:+ type1 m +:+ ", " +:+ type2 m +:+ ">(mod, "
           +:+ Str.quoted (type1 m) +:+ ");")
  end.

(** [MacroForHandle.headers] *)
Definition MacroForHandle_headers (m : MacroForHandle)
  : Exception + list string :=
  match assoc (macro_name m) macro2headers with
  | None => inl (KeyError (macro_name m))
  | Some headers => inr headers
  end.

(** * [CursorBinder] *)

(** A binder: a cursor and the attributes [CursorBinder.__init__] adds. *)
#[warnings="-register-all"]
Inductive CursorBinder := mkBinder {
  cursor : Clang.Cursor;
  alias : option CursorBinder;
  parent_name : string;
  _pname : option string;
  bind_name : option string;
  includes : list string;
  grouped_binders : list CursorBinder;
  skip : bool;
  src : list string;
  opaque : list string;
  macro : option MacroForHandle
}.

(** [CursorBinder(cursor)] *)
Definition CursorBinder_init (c : Clang.Cursor) : CursorBinder :=
  mkBinder c None "mod" None None [] [] false [] [] None.

Definition set_parent_name (v : string) (b : CursorBinder) : CursorBinder :=
  mkBinder (cursor b) (alias b) v (_pname b) (bind_name b) (includes b)
    (grouped_binders b) (skip b) (src b) (opaque b) (macro b).

Definition set_alias (v : option CursorBinder) (b : CursorBinder) : CursorBinder :=
  mkBinder (cursor b) v (parent_name b) (_pname b) (bind_name b) (includes b)
    (grouped_binders b) (skip b) (src b) (opaque b) (macro b).

Definition set_python_name (v : string) (b : CursorBinder) : CursorBinder :=
  mkBinder (cursor b) (alias b) (parent_name b) (Some v) (bind_name b)
    (includes b) (grouped_binders b) (skip b) (src b) (opaque b) (macro b).

Definition set_macro (v : option MacroForHandle) (b : CursorBinder) : CursorBinder :=
  mkBinder (cursor b) (alias b) (parent_name b) (_pname b) (bind_name b)
    (includes b) (grouped_binders b) (skip b) (src b) (opaque b) v.

Definition set_bind_name (v : string) (b : CursorBinder) : CursorBinder :=
  mkBinder (cursor b) (alias b) (parent_name b) (_pname b) (Some v)
    (includes b) (grouped_binders b) (skip b) (src b) (opaque b) (macro b).

Definition set_includes (v : list string) (b : CursorBinder) : CursorBinder :=
  mkBinder (cursor b) (alias b) (parent_name b) (_pname b) (bind_name b)
    v (grouped_binders b) (skip b) (src b) (opaque b) (macro b).

Definition set_grouped_binders (v : list CursorBinder) (b : CursorBinder)
  : CursorBinder :=
  mkBinder (cursor b) (alias b) (parent_name b) (_pname b) (bind_name b)
    (includes b) v (skip b) (src b) (opaque b) (macro b).

Definition set_skip (v : bool) (b : CursorBinder) : CursorBinder :=
  mkBinder (cursor b) (alias b) (parent_name b) (_pname b) (bind_name b)
    (includes b) (grouped_binders b) v (src b) (opaque b) (macro b).

Definition set_src (v : list string) (b : CursorBinder) : CursorBinder :=
  mkBinder (cursor b) (alias b) (parent_name b) (_pname b) (bind_name b)
    (includes b) (grouped_binders b) (skip b) v (opaque b) (macro b).

Definition set_opaque (v : list string) (b : CursorBinder) : CursorBinder :=
  mkBinder (cursor b) (alias b) (parent_name b) (_pname b) (bind_name b)
    (includes b) (grouped_binders b) (skip b) (src b) v (macro b).

Section CursorBinder.
Import Clang.

(** The binder of [cursor.semantic_parent]: the nearest ancestor, seen as
    a cursor whose own ancestors are the rest of the chain and whose
    children are its methods. *)
Definition method_of (m : string * bool) : Cursor :=
  mkCursor CXX_METHOD (fst m) (fst m) None None
    (if snd m then PUBLIC else PRIVATE) true false false false false false
    false false 0 null_type null_type [] [] [] None None None None None.

Definition semantic_parent (c : Cursor) : Cursor :=
  match ancestors c with
  | [] => null
  | a :: rest =>
      mkCursor (a_kind a) (a_spelling a) (a_displayname a) None None INVALID
        true false false false false false false false 0
        (mkType (a_type_spelling a) INVALID_TYPE false (a_type_spelling a)
           INVALID_TYPE "" INVALID_TYPE false (a_type_spelling a))
        null_type [] rest (map method_of (a_methods a)) None None None None
        None
  end.

Definition parent (b : CursorBinder) : CursorBinder :=
  CursorBinder_init (semantic_parent (cursor b)).

(** [CursorBinder.filename], as [__init__] computes it. *)
Definition filename (b : CursorBinder) : option string :=
  match location_file (cursor b) with
  | Some fname => last (Str.split (Str.replace fname "\" "/") "/")
  | None => None
  end.

(** [CursorBinder.module_name], as [__init__] computes it. *)
Definition module_name (b : CursorBinder) : string :=
  match filename b with
  | Some name =>
      let delimiter := if Str.contains "_" name then "_" else "." in
      default "" (head (Str.split name delimiter))
  | None => "__None__"
  end.

Definition kind_of (b : CursorBinder) : CursorKind := kind (cursor b).
Definition type_of (b : CursorBinder) : Type_ := type_ (cursor b).
Definition rtype (b : CursorBinder) : Type_ := result_type (cursor b).
Definition display_name (b : CursorBinder) : string := displayname (cursor b).
Definition spelling_of (b : CursorBinder) : string := spelling (cursor b).

Definition no_decl (b : CursorBinder) : bool :=
  bool_decide (kind_of b = NO_DECL_FOUND).
Definition is_null (b : CursorBinder) : bool :=
  bool_decide (kind_of b = NO_DECL_FOUND).
Definition is_tu (b : CursorBinder) : bool :=
  bool_decide (kind_of b = TRANSLATION_UNIT).
Definition is_enum (b : CursorBinder) : bool :=
  bool_decide (kind_of b = ENUM_DECL).
Definition is_function (b : CursorBinder) : bool :=
  bool_decide (kind_of b = FUNCTION_DECL).
Definition is_class (b : CursorBinder) : bool :=
  bool_decide (kind_of b ∈ [CLASS_DECL; STRUCT_DECL]).
Definition is_typedef (b : CursorBinder) : bool :=
  bool_decide (kind_of b = TYPEDEF_DECL).
Definition is_constructor (b : CursorBinder) : bool :=
  bool_decide (kind_of b = CONSTRUCTOR).
Definition is_cxx_method (b : CursorBinder) : bool :=
  bool_decide (kind_of b = CXX_METHOD).
Definition is_param (b : CursorBinder) : bool :=
  bool_decide (kind_of b = PARM_DECL).
Definition is_field (b : CursorBinder) : bool :=
  bool_decide (kind_of b = FIELD_DECL).
Definition is_class_template (b : CursorBinder) : bool :=
  bool_decide (kind_of b = CLASS_TEMPLATE).
Definition is_template_type_param (b : CursorBinder) : bool :=
  bool_decide (kind_of b = TEMPLATE_TYPE_PARAMETER).
Definition is_namespace (b : CursorBinder) : bool :=
  bool_decide (kind_of b = NAMESPACE).

Definition is_private (b : CursorBinder) : bool :=
  bool_decide (access_specifier (cursor b) = PRIVATE).
Definition is_protected (b : CursorBinder) : bool :=
  bool_decide (access_specifier (cursor b) = PROTECTED).
Definition is_public (b : CursorBinder) : bool :=
  negb (is_private b) && negb (is_protected b).

Definition is_abstract (b : CursorBinder) : bool := is_abstract_record (cursor b).
Definition is_move_ctor (b : CursorBinder) : bool := is_move_constructor (cursor b).

(** The names collected by the loop
    [while not b.is_null and not b.is_tu: ...; b = b.parent],
    innermost first.  [chain] is the cursor and its ancestors, each by its
    kind and the name the loop reads. *)
Fixpoint walk_names (chain : list (CursorKind * string)) : list string :=
  match chain with
  | [] => []
  | (k, name) :: rest =>
      if bool_decide (k = NO_DECL_FOUND) || bool_decide (k = TRANSLATION_UNIT)
      then []
      else if Str.truthy name then name :: walk_names rest
      else []
  end.

Definition display_chain (c : Cursor) : list (CursorKind * string) :=
  (kind c, displayname c) :: map (fun a => (a_kind a, a_displayname a)) (ancestors c).

Definition spelling_chain (c : Cursor) : list (CursorKind * string) :=
  (kind c, spelling c) :: map (fun a => (a_kind a, a_spelling a)) (ancestors c).

(** [CursorBinder.qualified_name] *)
Definition qualified_name (b : CursorBinder) : string :=
  let names := rev (walk_names (display_chain (cursor b))) in
  let qname := Str.join "::" names in
  if Str.contains "operator()" qname then
    default "" (head (Str.split qname "()")) +:+ "()"
  else if Str.contains "(" qname then
    default "" (head (Str.split qname "("))
  else qname.

(** [l.remove(x)]: drop the first occurrence. *)
Fixpoint list_remove (x : string) (l : list string) : list string :=
  match l with
  | [] => []
  | y :: l' => if String.eqb x y then l' else y :: list_remove x l'
  end.

(** [CursorBinder.qualified_display_name] *)
Definition qualified_display_name (b : CursorBinder) : string :=
  let names := rev (walk_names (display_chain (cursor b))) in
  let names := list_remove "__1" names in
  let qname := Str.join "::" names in
  if Str.contains "operator()" qname then
    default "" (head (Str.split qname "()")) +:+ "()"
  else qname.

(** [CursorBinder.qualified_spelling] *)
Definition qualified_spelling (b : CursorBinder) : string :=
  Str.join "::" (rev (walk_names (spelling_chain (cursor b)))).

(** [CursorBinder.is_nested] *)
Definition is_nested (b : CursorBinder) : bool := negb (is_tu (parent b)).

(** [CursorBinder.python_name] *)
Definition python_name (b : CursorBinder) : string :=
  match _pname b with
  | Some pname => pname
  | None =>
      let name := if is_nested b then spelling_of b else qualified_spelling b in
      Str.replace name "::" "_"
  end.

(** [CursorBinder.docs] *)
Definition docs (b : CursorBinder) : string :=
  let docs := default "None" (brief_comment (cursor b)) in
  let docs := Str.replace docs Str.nl " " in
  Str.replace docs Str.dq "'".

(** [CursorBinder.get_children] *)
Definition get_children (b : CursorBinder) : list CursorBinder :=
  map CursorBinder_init (children (cursor b)).

(** [CursorBinder.get_children_of_kind], with the kinds as a list *)
Definition get_children_of_kind (kinds : list CursorKind) (b : CursorBinder)
  : list CursorBinder :=
  filter (fun c => kind_of c ∈ kinds) (get_children b).

Definition bases (b : CursorBinder) := get_children_of_kind [CXX_BASE_SPECIFIER] b.
Definition ctors (b : CursorBinder) := get_children_of_kind [CONSTRUCTOR] b.
Definition dtors (b : CursorBinder) := get_children_of_kind [DESTRUCTOR] b.
Definition fields (b : CursorBinder) := get_children_of_kind [FIELD_DECL] b.
Definition enums (b : CursorBinder) := get_children_of_kind [ENUM_DECL] b.
Definition methods (b : CursorBinder) := get_children_of_kind [CXX_METHOD] b.
Definition nested_classes (b : CursorBinder) :=
  get_children_of_kind [CLASS_DECL; STRUCT_DECL] b.
Definition parameters (b : CursorBinder) := get_children_of_kind [PARM_DECL] b.
Definition enum_constants (b : CursorBinder) :=
  get_children_of_kind [ENUM_CONSTANT_DECL] b.
Definition template_parameters (b : CursorBinder) :=
  get_children_of_kind [TEMPLATE_TYPE_PARAMETER; TEMPLATE_NON_TYPE_PARAMETER] b.

End CursorBinder.

(** * Derived queries of [CursorBinder] *)

Section Queries.
Import Clang.
Context `{Environment}.

Definition cursor_is_class (c : Cursor) : bool :=
  bool_decide (kind c ∈ [CLASS_DECL; STRUCT_DECL]).

Definition cursor_no_decl (c : Cursor) : bool :=
  bool_decide (kind c = NO_DECL_FOUND).

(** [not _spec.no_decl and _spec.is_class_template] *)
Definition is_template (spec : Cursor) : bool :=
  negb (cursor_no_decl spec) && bool_decide (kind spec = CLASS_TEMPLATE).

(** The inner function [_get_bases] of [CursorBinder._all_bases]: every
    base specifier of [c] is listed, followed by the bases found through
    the declaration of its type.  The source has no guard against a cycle
    of declarations; here a cursor is a finite tree, so the walk ends. *)
Fixpoint _get_bases (c : Cursor) : list Cursor :=
  (fix each (l : list Cursor) : list Cursor :=
     match l with
     | [] => []
     | base :: l' =>
         if bool_decide (kind base = CXX_BASE_SPECIFIER) then
           base ::
           match type_declaration base with
           | None => []
           | Some _decl =>
               if cursor_no_decl _decl then []
               else if bool_decide (kind _decl = CLASS_TEMPLATE)
               then _get_bases _decl
               else
                 let of_typedef :=
                   match underlying_declaration _decl with
                   | Some _decl2 =>
                       match specialization _decl2 with
                       | Some _spec2 =>
                           if is_template _spec2 then _get_bases _spec2
                           else _get_bases _decl2
                       | None => _get_bases _decl2
                       end
                   | None => []
                   end in
                 let of_declaration :=
                   if cursor_is_class _decl then _get_bases _decl
                   else if bool_decide (kind _decl = TYPEDEF_DECL) then of_typedef
                   else [] in
                 match specialization _decl with
                 | Some _spec =>
                     if is_template _spec then _get_bases _spec
                     else of_declaration
                 | None => of_declaration
                 end
           end ++ each l'
         else each l'
     end) (children c).

(** [CursorBinder._all_bases] *)
Definition _all_bases (b : CursorBinder) : list CursorBinder :=
  map CursorBinder_init
    match specialization (cursor b) with
    | Some spec =>
        if is_template spec then _get_bases spec else _get_bases (cursor b)
    | None => _get_bases (cursor b)
    end.

(** [CursorBinder.get_definition] *)
Definition get_definition (b : CursorBinder) : CursorBinder :=
  CursorBinder_init (deref (definition (cursor b))).

(** [CursorBinder.is_transient] *)
Definition is_transient (b : CursorBinder) : bool :=
  if String.eqb (t_spelling (type_of b)) "Standard_Transient" then true
  else existsb
         (fun base => String.eqb (t_spelling (type_of base)) "Standard_Transient")
         (_all_bases b).

(** [CursorBinder.has_unimplemented_methods], as a truth value. *)
Definition has_unimplemented_methods (b : CursorBinder) : bool :=
  if existsb (fun m => is_pure_virtual_method (cursor m)) (methods b) then true
  else
    let own := map spelling_of (methods b) in
    let base_methods :=
      flat_map (fun base =>
                  let base := get_definition base in
                  if is_null base then [] else methods base)
               (_all_bases b) in
    let all_virtual_methods :=
      map spelling_of
        (filter (fun m => is_pure_virtual_method (cursor m) = true) base_methods) in
    let all_methods :=
      own ++ map spelling_of
               (filter (fun m => is_pure_virtual_method (cursor m) = false)
                  base_methods) in
    existsb (fun v => negb (bool_decide (v ∈ all_methods))) all_virtual_methods.

(** [CursorBinder.is_operator] *)
Definition is_operator (b : CursorBinder) : bool :=
  if is_function b || is_cxx_method b
  then bool_decide (spelling_of b ∈ map fst PY_OPERATORS)
  else false.

(** [PY_OPERATORS\[name\]] *)
Definition py_operator (name : string) : Exception + string :=
  match assoc name PY_OPERATORS with
  | Some special => inr special
  | None => inl (KeyError name)
  end.

(** [CursorBinder.is_getter_method] *)
Definition is_getter_method (b : CursorBinder) : bool :=
  if is_cxx_method b && is_public b && type_is_lvalue (rtype b) then
    let setter_name := "Set" +:+ spelling_of b in
    existsb (fun method => String.eqb (spelling_of method) setter_name
                           && is_public method)
            (methods (parent b))
  else false.

(** [CursorBinder.is_immutable] *)
Definition is_immutable (g : Generator.t) (b : CursorBinder) : bool :=
  let type_ := type_of b in
  let spelling :=
    if type_is_pointer_like type_ then t_pointee_spelling type_
    else t_spelling type_ in
  Generator.mem g Generator.immutable spelling.

(** [CursorBinder.is_maybe_iterable] *)
Definition is_maybe_iterable (b : CursorBinder) : bool :=
  let method_names := map spelling_of (filter (fun f => is_public f = true) (methods b)) in
  bool_decide ("begin" ∈ method_names) && bool_decide ("end" ∈ method_names).

(** [CursorBinder.default_value] *)
Definition default_value (b : CursorBinder) : string :=
  if negb (is_param b || is_template_type_param b) then ""
  else
    let txt :=
      fold_left (fun txt t => if String.eqb t ">>" then txt +:+ ">" else txt +:+ t)
                (tokens (cursor b)) "" in
    if negb (Str.truthy txt) || negb (Str.contains "=" txt) then ""
    else default "" (last (Str.split txt "=")).

(** [CursorBinder.needs_nodelete] *)
Definition needs_nodelete (b : CursorBinder) : bool :=
  existsb (fun dtor => negb (is_public dtor)) (dtors b).

(** [CursorBinder.holder_type] *)
Definition holder_type (b : CursorBinder) : string :=
  if is_transient b then "opencascade::handle" else "std::unique_ptr".

(** [CursorBinder.needs_inout_method] *)
Definition needs_inout_method (g : Generator.t) (b : CursorBinder) : bool :=
  existsb (fun a => is_immutable g a
                    && negb (t_is_const_qualified (type_of a))
                    && type_is_pointer_like (type_of a))
          (parameters b).

(** [CursorBinder.needs_default_ctor].  The source calls
    [item.get_definition()] and drops the answer, so the constructors
    looked at are those of [item] itself. *)
Definition needs_default_ctor (b : CursorBinder) : bool :=
  if is_abstract b then false
  else
    let items := b :: _all_bases b in
    negb (existsb (fun item => bool_decide (ctors item ≠ [])) items).

(** [any(fnmatch(name, pat) for pat in table)] *)
Definition any_fnmatch (g : Generator.t) (name : string)
    (table : Generator.SetAttr) : bool :=
  existsb (fun pat => fnmatch name pat) (iter_set (Generator.sets g table)).

(** [CursorBinder.is_excluded] *)
Definition is_excluded (g : Generator.t) (b : CursorBinder) : bool :=
  if is_enum b then
    Generator.mem g Generator.excluded_enums (qualified_name b)
  else if is_function b || is_constructor b then
    let name := qualified_name b in
    let dname := qualified_display_name b in
    let rtype := t_spelling (rtype b) in
    any_fnmatch g name Generator.excluded_functions
    || any_fnmatch g dname Generator.excluded_functions
    || any_fnmatch g rtype Generator.excluded_rtypes
  else if is_class b || is_class_template b then
    Generator.mem g Generator.excluded_classes (qualified_name b)
  else if is_typedef b then
    Generator.mem g Generator.excluded_typedefs (qualified_name b)
  else if is_field b then
    Generator.mem g Generator.excluded_fields (qualified_name b)
  else if is_cxx_method b then
    let name := qualified_name b in
    let fname := spelling_of b in
    let dname := qualified_display_name b in
    let name := if is_static_method (cursor b) then name +:+ "_" else name in
    let fname := if is_static_method (cursor b) then fname +:+ "_" else fname in
    let rtype := t_spelling (rtype b) in
    any_fnmatch g name Generator.excluded_functions
    || any_fnmatch g fname Generator.excluded_fnames
    || any_fnmatch g dname Generator.excluded_functions
    || any_fnmatch g rtype Generator.excluded_rtypes
  else false.

End Queries.

(** * Code generation: functions, constructors and methods *)

Section Generate.
Import Clang.
Context `{Environment}.

(** [range(a, b)] *)
Definition range (a b : nat) : list nat := seq a (b - a).

(** [' '.join(\['//', src\])] *)
Definition comment_out (src : string) : string := "// " +:+ src.

(** What [function_signature] returns. *)
Record Signature := mkSignature {
  nargs : nat;
  ndefaults : nat;
  args_name : list string;
  args_type : list string;
  defaults : list string;
  is_array_like : list bool
}.

(** The type spelling [function_signature] records for one parameter. *)
Definition arg_type (g : Generator.t) (arg : CursorBinder) : string :=
  if type_is_opaque g (type_of arg)
  then "void* /* " +:+ t_spelling (type_of arg) +:+ " */"
  else if t_is_alias (type_of arg) then t_alias_spelling (type_of arg)
  else t_spelling (type_of arg).

(** One pass of the loop of [function_signature], on parameter [arg]. *)
Definition signature_step (g : Generator.t) (sig : Signature)
    (arg : CursorBinder) : Signature :=
  let default := default_value arg in
  mkSignature
    (nargs sig + 1)
    (if Str.truthy default then ndefaults sig + 1 else ndefaults sig)
    (args_name sig ++ [spelling_of arg])
    (args_type sig ++ [arg_type g arg])
    (defaults sig ++ [default])
    (is_array_like sig ++ [type_is_array_like (type_of arg)]).

(** [function_signature]: the loop over [binder.parameters]. *)
Definition function_signature (g : Generator.t) (binder : CursorBinder)
  : Signature :=
  fold_left (signature_step g) (parameters binder) (mkSignature 0 0 [] [] [] []).

(** [''.join(', py::arg("name")' for name in names)] *)
Definition py_args_of (names : list string) : string :=
  Str.join "" (map (fun name => ", py::arg(" +:+ Str.quoted name +:+ ")") names).

(** The binding [generate_ctor] prints for the first [i] parameters. *)
Definition ctor_binding (g : Generator.t) (binder : CursorBinder)
    (sig : Signature) (i : nat) : string :=
  let names := take i (args_name sig) in
  let types := take i (args_type sig) in
  let signature := Str.join ", " types in
  let py_args := py_args_of names in
  let src := parent_name binder +:+ ".def(py::init<" +:+ signature +:+ ">()"
             +:+ py_args +:+ ");" +:+ Str.nl in
  if is_excluded g binder || is_move_ctor binder || Str.contains "&&" signature
  then comment_out src else src.

(** [generate_ctor] *)
Definition generate_ctor (g : Generator.t) (binder : CursorBinder)
  : list string :=
  let sig := function_signature g binder in
  map (ctor_binding g binder sig)
      (range (nargs sig - ndefaults sig) (nargs sig + 1)).

(** [generate_immutable_inout_method] *)
Definition generate_immutable_inout_method (g : Generator.t)
    (binder : CursorBinder) (qname : string) : string :=
  (* separate const and non-const input arguments *)
  let '(args, non_const_immutable_args, _) :=
    fold_left
      (fun '(args, non_const, i) arg =>
         let type_ := if t_is_alias (type_of arg)
                      then t_alias_spelling (type_of arg)
                      else t_spelling (type_of arg) in
         let '(name, i) :=
           if Str.truthy (spelling_of arg) then (spelling_of arg, i)
           else ("a" +:+ Str.of_nat i, i + 1) in
         let non_const :=
           if negb (t_is_const_qualified (type_of arg)) && is_immutable g arg
              && type_is_pointer_like (type_of arg)
           then non_const ++ [(type_, name)] else non_const in
         (args ++ [(type_, name)], non_const, i))
      (parameters binder) ([], [], 0) in
  let delimiter := match args with [] => "" | _ => ", " end in
  let typed := Str.join ", " (map (fun '(type_, name) => type_ +:+ " " +:+ name) args) in
  let is_static := is_static_method (cursor binder) in
  let interface_txt :=
    if is_static then "(" +:+ typed +:+ ")"
    else
      let prefix := if is_class_template (parent binder)
                    then qualified_name (parent binder)
                    else t_spelling (type_of (parent binder)) in
      "(" +:+ prefix +:+ " &self" +:+ delimiter +:+ typed +:+ ")" in
  let is_void := String.eqb (t_spelling (rtype binder)) "void" in
  let args_txt := Str.join ", " (map snd args) in
  let fcall := if is_static then qname else "self." +:+ spelling_of binder in
  let rtype := t_spelling (rtype binder) in
  let func_txt :=
    if is_void then "{ " +:+ fcall +:+ "(" +:+ args_txt +:+ "); "
    else "{ " +:+ rtype +:+ " rv = " +:+ fcall +:+ "(" +:+ args_txt +:+ "); " in
  let return_args := Str.join ", " (map snd non_const_immutable_args) in
  let return_types := Str.join ", " (map fst non_const_immutable_args) in
  let return_txt :=
    if is_void then
      if (1 <? length non_const_immutable_args)%nat
      then "return std::tuple<" +:+ return_types +:+ ">(" +:+ return_args +:+ "); }"
      else "return " +:+ return_args +:+ "; }"
    else "return std::tuple<" +:+ rtype +:+ ", " +:+ return_types +:+ ">(rv, "
         +:+ return_args +:+ "); }" in
  "[]" +:+ interface_txt +:+ func_txt +:+ return_txt.

(** The names [generate_method] fixes before its loop. *)
Record MethodNames := mkMethodNames {
  m_prefix : string;
  m_is_static : string;
  m_fname : string;
  m_rtype : string;
  m_qname : string;
  m_ptr : string;
  m_is_const : string;
  m_docs : string;
  m_is_operator : string;
  m_return_policy : string;
  m_keep_alive : string;
  m_cguards : string
}.

Definition method_names (g : Generator.t) (binder : CursorBinder)
  : Exception + MethodNames :=
  let prefix := parent_name binder in
  let is_static := if is_static_method (cursor binder) then "_static" else "" in
  let fname := spelling_of binder in
  let fname := if Str.truthy is_static then fname +:+ "_" else fname in
  (* comment if excluded *)
  let prefix :=
    if is_excluded g binder then "// excluded // " +:+ prefix
    else if is_pure_virtual_method (cursor binder) then "// virtual // " +:+ prefix
    else prefix in
  let rtype_ :=
    if type_is_opaque g (rtype binder)
    then "void* /* " +:+ t_spelling (rtype binder) +:+ " */"
    else if t_is_alias (rtype binder) then t_alias_spelling (rtype binder)
    else t_spelling (rtype binder) in
  let qname := qualified_name binder in
  let ptr :=
    if negb (is_static_method (cursor binder))
    then Str.join "::" [qualified_name (parent binder); "*"]
    else "*" in
  let is_const := if is_const_method (cursor binder) then " const" else "" in
  let docs := docs binder in
  (* operators *)
  match (if is_operator binder then py_operator fname else inr fname) with
  | inl e => inl e
  | inr fname =>
  let is_operator := if is_operator binder then "py::is_operator(), " else "" in
  (* return policy *)
  let return_policy :=
    match Generator.lookup_str g Generator.return_policies qname with
    | Some policy => ", py::return_value_policy::" +:+ policy
    | None =>
        if is_getter_method binder
        then ", py::return_value_policy::reference_internal" else ""
    end in
  let keep_alive :=
    match Generator.lookup_str g Generator.keep_alive qname with
    | Some spec => ", py::keep_alive<" +:+ spec +:+ ">()"
    | None => ""
    end in
  (* call guards *)
  let cguards :=
    match Generator.lookup_list g Generator.call_guards qname with
    | Some guards => ", " +:+ Str.join ", " guards
    | None => ""
    end in
  inr (mkMethodNames prefix is_static fname rtype_ qname ptr is_const docs
         is_operator return_policy keep_alive cguards)
  end.

(** The single binding of a method that needs the in/out adapter. *)
Definition inout_binding (g : Generator.t) (binder : CursorBinder)
    (n : MethodNames) (sig : Signature) : string :=
  let txt := generate_immutable_inout_method g binder (m_qname n) in
  let py_args := py_args_of (args_name sig) in
  let src := m_prefix n +:+ ".def" +:+ m_is_static n +:+ "("
             +:+ Str.quoted (m_fname n) +:+ ", " +:+ txt +:+ ", "
             +:+ Str.quoted (m_docs n) +:+ py_args +:+ ");" +:+ Str.nl in
  if bool_decide (true ∈ is_array_like sig) then comment_out src else src.

(** The lambda signature built for the first parameters [arg_list]. *)
Definition lambda_signature (start : string) (arg_list : list string) : string :=
  fst (fold_left
         (fun '(signature, k) arg_type_spelling =>
            let a := "a" +:+ Str.of_nat k in
            (if negb (Str.truthy signature)
             then signature +:+ arg_type_spelling +:+ " " +:+ a
             else signature +:+ ", " +:+ arg_type_spelling +:+ " " +:+ a,
             k + 1))
         arg_list (start, 0)).

(** The binding the loop of [generate_method] prints at arity [i], for a
    method that needs no in/out adapter. *)
Definition method_binding (binder : CursorBinder) (n : MethodNames)
    (sig : Signature) (i : nat) : string :=
  let '(src, signature) :=
    if bool_decide (i = nargs sig) then
      let names := take i (args_name sig) in
      let types := take i (args_type sig) in
      let signature := Str.join ", " types in
      let py_args := py_args_of names in
      (m_prefix n +:+ ".def" +:+ m_is_static n +:+ "("
       +:+ Str.quoted (m_fname n) +:+ ", (" +:+ m_rtype n +:+ " ("
       +:+ m_ptr n +:+ ")(" +:+ signature +:+ ")" +:+ m_is_const n +:+ ") &"
       +:+ m_qname n +:+ ", " +:+ m_is_operator n +:+ Str.quoted (m_docs n)
       +:+ py_args +:+ m_return_policy n +:+ m_keep_alive n +:+ m_cguards n
       +:+ ");" +:+ Str.nl,
       signature)
    else
      let arg_list := take i (args_type sig) in
      let start :=
        if Str.truthy (m_is_static n) then ""
        else
          let parts := Str.split (m_qname n) "::" in
          let parent_spelling := Str.join "::" (removelast parts) in
          parent_spelling +:+ " &self" in
      let signature := lambda_signature start arg_list in
      let call_args := map (fun k => "a" +:+ Str.of_nat k) (seq 0 (length arg_list)) in
      let call := Str.join ", " call_args in
      let qname_ :=
        if negb (Str.truthy (m_is_static n)) then "self." +:+ m_fname n
        else m_qname n in
      let src := m_prefix n +:+ ".def" +:+ m_is_static n +:+ "("
                 +:+ Str.quoted (m_fname n) +:+ ", [](" +:+ signature
                 +:+ ") -> " +:+ m_rtype n +:+ " { return " +:+ qname_ +:+ "("
                 +:+ call +:+ "); }" +:+ m_cguards n +:+ ");" +:+ Str.nl in
      (* disable self.__call__ *)
      (if Str.truthy (m_is_operator n) then comment_out src else src, signature) in
  if bool_decide (true ∈ is_array_like sig) || Str.contains "&&" signature
  then comment_out src else src.

(** The loop of [generate_method], with the names fixed.  When the
    method needs the in/out adapter, the first pass of the loop returns
    the adapter alone. *)
Definition method_bindings (g : Generator.t) (binder : CursorBinder)
    (n : MethodNames) : list string :=
  let sig := function_signature g binder in
  let needs_inout := needs_inout_method g binder in
  let arities := range (nargs sig - ndefaults sig) (nargs sig + 1) in
  if needs_inout then
    match arities with
    | [] => []
    | _ :: _ => [inout_binding g binder n sig]
    end
  else map (method_binding binder n sig) arities.

(** [generate_method].  It raises [KeyError] for a static method with the
    spelling of an operator, when [PY_OPERATORS] does not hold the
    spelling with the underscore that the source puts after the name of a
    static method. *)
Definition generate_method (g : Generator.t) (binder : CursorBinder)
  : Exception + list string :=
  match method_names g binder with
  | inl e => inl e
  | inr n => inr (method_bindings g binder n)
  end.

(** [generate_function] *)
Definition generate_function (g : Generator.t) (binder : CursorBinder)
  : list string :=
  let fname := spelling_of binder in
  let qname := qualified_name binder in
  let docs := docs binder in
  let rtype_ :=
    if type_is_opaque g (rtype binder)
    then "void* /* " +:+ t_spelling (rtype binder) +:+ " */"
    else t_spelling (rtype binder) in
  let sig := function_signature g binder in
  let signature := Str.join ", " (args_type sig) in
  let prefix := if is_excluded g binder then "// excluded // " else "" in
  (* variable names and default values *)
  let args :=
    map (fun arg =>
           let default_value := default_value arg in
           let default_value :=
             if Str.truthy default_value then "=" +:+ default_value
             else default_value in
           "py::arg(" +:+ Str.quoted (spelling_of arg) +:+ ")" +:+ default_value)
        (parameters binder) in
  let args := match args with
              | [] => ""
              | _ => ", " +:+ Str.join ", " args
              end in
  let interface := "(" +:+ rtype_ +:+ " (*) (" +:+ signature +:+ "))" in
  let src := prefix +:+ "mod.def(" +:+ Str.quoted fname +:+ ", " +:+ interface
             +:+ " &" +:+ qname +:+ ", " +:+ Str.quoted docs +:+ args +:+ ");"
             +:+ Str.nl +:+ Str.nl in
  if bool_decide (true ∈ is_array_like sig) then [comment_out src] else [src].

End Generate.

(** * Code generation: enums, fields, classes, typedefs, templates *)

Section GenerateClass.
Import Clang.
Context `{Environment}.

(** [src.insert(0, '/*\n'); src.append('*/\n')] *)
Definition block_comment (src : list string) : list string :=
  ("/*" +:+ Str.nl) :: src ++ ["*/" +:+ Str.nl].

(** [re.search(r'(anonymous|unnamed) enum', s)] *)
Definition is_anonymous_enum_spelling (s : string) : bool :=
  Str.contains "anonymous enum" s || Str.contains "unnamed enum" s.

(** [re.search(r'\((anonymous|unnamed)', s)]: the start of the leftmost
    match. *)
Definition find_anonymous (s : string) : option nat :=
  match Str.find "(anonymous" s, Str.find "(unnamed" s with
  | Some i, Some j => Some (i `min` j)
  | Some i, None => Some i
  | None, Some j => Some j
  | None, None => None
  end.

(** [generate_enum] *)
Definition generate_enum (g : Generator.t) (binder : CursorBinder)
  : list string :=
  let qname := qualified_name binder in
  let parent := parent_name binder in
  let docs := docs binder in
  let name := default (python_name binder)
                (Generator.lookup_str g Generator.python_names qname) in
  let src :=
    (* cast anonymous enum to int *)
    if is_anonymous_enum_spelling (t_spelling (type_of binder)) then
      map (fun e =>
             let name := spelling_of e in
             let qname := qualified_name e in
             (* check and fix if anonymous is in the enum decl *)
             let qname :=
               match find_anonymous (t_spelling (type_of e)) with
               | Some (S indx) =>
                   let prefix := Str.take (S indx) (t_spelling (type_of e)) in
                   prefix +:+ spelling_of e
               | _ => qname
               end in
             parent +:+ ".attr(" +:+ Str.quoted name +:+ ") = py::cast(int("
             +:+ (if Str.truthy qname then qname else name) +:+ "));" +:+ Str.nl)
          (enum_constants binder)
    else
      (* hack for missing name *)
      let name := if negb (Str.truthy name)
                  then Str.replace (t_spelling (type_of binder)) "::" "_"
                  else name in
      (* hack to handle ::enum_constant *)
      let qname := if negb (Str.truthy qname) then t_spelling (type_of binder)
                   else qname in
      [ "py::enum_<" +:+ qname +:+ ">(" +:+ parent +:+ ", " +:+ Str.quoted name
        +:+ ", " +:+ Str.quoted docs +:+ ")" +:+ Str.nl ]
      ++ map (fun e =>
                let qname := qualified_name e in
                let qname :=
                  if Str.startswith qname "::"
                  then t_spelling (type_of binder) +:+ qname
                  else if negb (Str.contains "::" qname)
                  then Str.join "::" [t_spelling (type_of e); spelling_of e]
                  else qname in
                Str.tab +:+ ".value(" +:+ Str.quoted (spelling_of e) +:+ ", "
                +:+ qname +:+ ")" +:+ Str.nl)
             (enum_constants binder)
      ++ [ Str.tab +:+ ".export_values();" +:+ Str.nl ] in
  (* comment if excluded *)
  if is_excluded g binder then block_comment src else src.

(** [generate_field] *)
Definition generate_field (g : Generator.t) (binder : CursorBinder)
  : list string :=
  let prefix := parent_name binder in
  let name := spelling_of binder in
  let qname := qualified_name binder in
  let docs := docs binder in
  let type_ := if t_is_const_qualified (type_of binder) then "readonly"
               else "readwrite" in
  let prefix := if is_excluded g binder then "// " +:+ prefix else prefix in
  let src :=
    if is_bitfield (cursor binder) then
      let ftype := t_spelling (type_of binder) in
      let parent := qualified_name (parent binder) in
      let reader := "[](" +:+ parent +:+ "& self) -> " +:+ ftype
                    +:+ " { return self." +:+ name +:+ "; }" in
      if String.eqb type_ "_readonly" then
        prefix +:+ ".def_property_readonly(" +:+ Str.quoted name +:+ ", "
        +:+ reader +:+ ", " +:+ Str.quoted docs +:+ ");" +:+ Str.nl
      else
        let writer := "[](" +:+ parent +:+ "& self, const " +:+ ftype
                      +:+ " value) { self." +:+ name +:+ " = value; }" in
        prefix +:+ ".def_property(" +:+ Str.quoted name +:+ ", " +:+ reader
        +:+ ", " +:+ writer +:+ ", " +:+ Str.quoted docs +:+ ");" +:+ Str.nl
    else
      prefix +:+ ".def_" +:+ type_ +:+ "(" +:+ Str.quoted name +:+ ", &"
      +:+ qname +:+ ", " +:+ Str.quoted docs +:+ ");" +:+ Str.nl in
  if type_is_array_like (type_of binder) then [comment_out src] else [src].

(** [src += s] for a list [src] and a string [s]: the list is extended by
    the characters of [s], one element each.  A byte from 128 to 191
    continues the character before it. *)
Definition is_continuation (c : ascii) : bool :=
  let n := nat_of_ascii c in ((128 <=? n) && (n <=? 191))%nat.

Fixpoint characters_go (s : string) : string * list string :=
  match s with
  | EmptyString => (EmptyString, [])
  | String c s' =>
      let '(continuation, rest) := characters_go s' in
      if is_continuation c then (String c continuation, rest)
      else (EmptyString, String c continuation :: rest)
  end.

Definition characters (s : string) : list string :=
  match characters_go s with
  | (EmptyString, chars) => chars
  | (continuation, chars) => continuation :: chars
  end.

(** [for item in items: src += f(item)], where [f] may raise: the lines
    gathered, or the first exception. *)
Fixpoint gather {A} (f : A -> Exception + list string) (items : list A)
  : Exception + list string :=
  match items with
  | [] => inr []
  | item :: rest =>
      match f item with
      | inl e => inl e
      | inr lines =>
          match gather f rest with
          | inl e => inl e
          | inr more => inr (lines ++ more)
          end
      end
  end.

(** The holder of a class: the template argument printed in the
    registration, and the holder type compared with the bases'. *)
Definition class_holder (g : Generator.t) (binder : CursorBinder)
  : string * string :=
  let qname := qualified_name binder in
  if is_transient binder then
    (", opencascade::handle<" +:+ qname +:+ ">", "opencascade::handle")
  else if needs_nodelete binder || Generator.mem g Generator.nodelete qname then
    (", std::unique_ptr<" +:+ qname +:+ ", py::nodelete>", "std::unique_ptr")
  else
    (* use default std::unique_ptr *)
    ("", "std::unique_ptr").

(** The list [excluded_bases] that [generate_class] reads for a class. *)
Definition class_excluded_bases (g : Generator.t) (binder : CursorBinder)
  : list string :=
  match Generator.lookup_list g Generator.excluded_bases (qualified_name binder) with
  | Some l => l
  | None =>
      default [] (Generator.lookup_list g Generator.excluded_bases
                    (python_name binder))
  end.

(** The holder type [generate_class] works out for a base. *)
Definition base_holder_type (base : CursorBinder) : string :=
  let holder1 := holder_type (CursorBinder_init (deref (type_declaration (cursor base)))) in
  let holder2 := holder_type (CursorBinder_init (deref (canonical_declaration (cursor base)))) in
  if bool_decide ("opencascade::handle" ∈ [holder1; holder2])
  then "opencascade::handle" else "std::unique_ptr".

(** The loop of [generate_class] over the base classes: the names kept. *)
Fixpoint class_base_names (g : Generator.t) (excluded_bases : list string)
    (holder_type : string) (bases_classes : list CursorBinder) : list string :=
  match bases_classes with
  | [] => []
  | base :: rest =>
      let continue := class_base_names g excluded_bases holder_type rest in
      if negb (is_public base) then continue
      else
        let name := t_spelling (type_of base) in
        if bool_decide (name ∈ excluded_bases)
           || Generator.mem g Generator.excluded_classes name
        then continue
        else if negb (String.eqb holder_type (base_holder_type base))
        then (* logged: mismatched holder types *) continue
        else name :: continue
  end.


(** The constructor part of [generate_class]. *)
Definition class_ctors (g : Generator.t) (binder : CursorBinder)
    (cls : string) : list string :=
  let qname := qualified_name binder in
  if negb (is_abstract binder) then
    let src_ctor :=
      flat_map (fun item =>
                  if is_public item
                  then generate_ctor g (set_parent_name cls item) else [])
               (ctors binder) in
    (* check for default constructor *)
    match src_ctor with
    | [] =>
        if needs_default_ctor binder
           && negb (Generator.mem g Generator.excluded_functions qname)
        then
          let line := cls +:+ ".def(py::init<>());" +:+ Str.nl in
          (* if it has virtual methods tag it as abstract *)
          if has_unimplemented_methods binder
          then ["// abstract virtual methods // " +:+ line]
          else [line]
        else []
    | _ => src_ctor
    end
  else [].

(** [section.insert(0, header); src += section], when [section] is not
    empty. *)
Definition with_header (header : string) (section : list string) : list string :=
  match section with
  | [] => []
  | _ => header :: section
  end.

(** The source variable [cls] of [generate_class]. *)
Definition class_cls (g : Generator.t) (binder : CursorBinder) : string :=
  let name := python_name binder in
  let qname := qualified_name binder in
  let source_name :=
    default name (Generator.lookup_str g Generator.python_names qname) in
  if is_nested binder
  then Str.join "_" ["cls"; python_name (parent binder); source_name]
  else Str.join "_" ["cls"; source_name].

(** The registration [py::class_<...> cls(...);] of [generate_class]. *)
Definition class_registration (g : Generator.t) (binder : CursorBinder)
  : string :=
  let qname := qualified_name binder in
  let docs := docs binder in
  let cls := class_cls g binder in
  (* holder *)
  let '(holder, holder_type) := class_holder g binder in
  (* base classes *)
  let bases_classes := bases binder in
  let excluded_bases := class_excluded_bases g binder in
  let base_names := class_base_names g excluded_bases holder_type bases_classes in
  let bases_ := match base_names with
                | [] => ""
                | _ => ", " +:+ Str.join ", " base_names
                end in
  (* check py::multiple_inheritance *)
  let multi_base :=
    if (1 <? length bases_classes)%nat
       && (length base_names <? length bases_classes)%nat
    then ", py::multiple_inheritance()" else "" in
  (* name will be given if binding a class template *)
  let name_ := if is_class_template binder then "name.c_str()"
               else Str.quoted (python_name binder) in
  let name_ :=
    match Generator.lookup_str g Generator.python_names qname with
    | Some pname => Str.quoted pname
    | None => name_
    end in
  (* module or parent name for nested classes *)
  let parent_ :=
    if is_nested binder && Generator.mem g Generator.nested_classes qname
    then "cls_" +:+ python_name (parent binder) else "mod" in
  (* use py::module_local() for aliases *)
  let local :=
    if is_class_template binder || is_class_template (parent binder)
    then ", local"
    else match alias binder with
         | Some _ => ", py::module_local()"
         | None => ""
         end in
  let tname := if Str.contains "::" qname then "typename " +:+ qname else qname in
  "py::class_<" +:+ tname +:+ holder +:+ bases_ +:+ "> " +:+ cls +:+ "("
  +:+ parent_ +:+ ", " +:+ name_ +:+ ", " +:+ Str.quoted docs +:+ multi_base
  +:+ local +:+ ");" +:+ Str.nl.

(** The text [generate_class] puts before the registration. *)
Definition class_before (g : Generator.t) (binder : CursorBinder) : list string :=
  match Generator.lookup_list g Generator.before_type (qualified_name binder) with
  | Some txts =>
      ["// Before type" +:+ Str.nl] ++ map (fun txt => txt +:+ Str.nl) txts
      ++ [Str.nl]
  | None => []
  end.

(** The text [generate_class] puts after the members. *)
Definition class_after (g : Generator.t) (binder : CursorBinder) : list string :=
  match Generator.lookup_list g Generator.after_type (qualified_name binder) with
  | Some txts =>
      [Str.nl +:+ "// After type" +:+ Str.nl]
      ++ flat_map (fun txt => [txt; Str.nl]) txts
  | None => []
  end.

(** The fields, the methods and the enums of [generate_class], bound
    under the source variable [cls]. *)
Definition class_fields (g : Generator.t) (binder : CursorBinder)
    (cls : string) : list string :=
  flat_map (fun item =>
              if is_public item
              then generate_field g (set_parent_name cls item) else [])
           (fields binder).

Definition class_methods (g : Generator.t) (binder : CursorBinder)
    (cls : string) : Exception + list string :=
  gather (fun item =>
            if is_public item
            then generate_method g (set_parent_name cls item) else inr [])
         (methods binder).

Definition class_enums (g : Generator.t) (binder : CursorBinder)
    (cls : string) : list string :=
  flat_map (fun item =>
              if is_public item
              then generate_enum g (set_parent_name cls item) else [])
           (enums binder).

(** The line [generate_class] adds for an iterable type. *)
Definition class_iter (g : Generator.t) (binder : CursorBinder)
    (cls : string) : list string :=
  if is_maybe_iterable binder then
    characters
      (cls +:+ ".def(" +:+ Str.quoted "__iter__" +:+ ", [](const "
       +:+ qualified_name binder
       +:+ " &self) { return py::make_iterator(self.begin(), self.end()); }, py::keep_alive<0, 1>());"
       +:+ Str.nl)
  else [].

(** [generate_class], by recursion on the cursor of the class: [binder] is
    [binder0] put on the cursor [c]; a nested class gets a fresh binder.
    The methods and the nested classes may raise. *)
Fixpoint generate_class_at (g : Generator.t) (c : Cursor)
    (binder0 : CursorBinder) : Exception + list string :=
  let binder := mkBinder c (alias binder0) (parent_name binder0)
                  (_pname binder0) (bind_name binder0) (includes binder0)
                  (grouped_binders binder0) (skip binder0) (src binder0)
                  (opaque binder0) (macro binder0) in
  (* special handling of certain macro types *)
  match macro binder with
  | Some macro =>
      match MacroForHandle_generate macro with
      | inl e => inl e
      | inr txt => inr [txt; Str.nl]
      end
  | None =>
  (* don't bind if it doesn't have any children *)
  match children c with
  | [] => inr []
  | _ :: _ =>
  (* text before type *)
  let src_before := class_before g binder in
  (* source variable *)
  let cls := class_cls g binder in
  (* holder, base classes and registration *)
  let registration := class_registration g binder in
  let src_ctor := class_ctors g binder cls in
  let src_fields := class_fields g binder cls in
  match class_methods g binder cls with
  | inl e => inl e
  | inr src_methods =>
  (* check for an iterable type and add __iter__ *)
  let src_iter := class_iter g binder cls in
  let src_enums := class_enums g binder cls in
  (* nested classes *)
  match
    (fix nested_loop (l : list Cursor) (has_nested : bool)
       : Exception + list string :=
       match l with
       | [] => inr []
       | n :: l' =>
           let nested := CursorBinder_init n in
           if negb (bool_decide (kind n ∈ [CLASS_DECL; STRUCT_DECL]))
           then nested_loop l' has_nested
           else if negb (Generator.mem g Generator.nested_classes
                           (qualified_name nested))
           then nested_loop l' has_nested
           else if negb (is_public nested) then nested_loop l' has_nested
           else
             match generate_class_at g n nested with
             | inl e => inl e
             | inr lines =>
                 match nested_loop l' true with
                 | inl e => inl e
                 | inr more =>
                     inr ((if has_nested then []
                           else [Str.nl +:+ "// Nested classes" +:+ Str.nl])
                          ++ lines ++ more)
                 end
             end
       end) (children c) false
  with
  | inl e => inl e
  | inr src_nested =>
  (* extra text for the class *)
  let src_after := class_after g binder in
  let src :=
    src_before ++ [registration]
    ++ with_header (Str.nl +:+ "// Constructors" +:+ Str.nl) src_ctor
    ++ with_header (Str.nl +:+ "// Fields" +:+ Str.nl) src_fields
    ++ with_header (Str.nl +:+ "// Methods" +:+ Str.nl) src_methods
    ++ src_iter
    ++ with_header (Str.nl +:+ "// Enums" +:+ Str.nl) src_enums
    ++ src_nested ++ src_after in
  (* comment if excluded *)
  inr (if is_excluded g binder then block_comment src else src)
  end
  end
  end
  end.

(** [generate_class] *)
Definition generate_class (g : Generator.t) (binder : CursorBinder)
  : Exception + list string :=
  generate_class_at g (cursor binder) binder.

(** The attribute copy [generate_typedef2] prints for an alias in the same
    module. *)
Definition attribute_copy (binder alias : CursorBinder) : list string :=
  [ "if (py::hasattr(mod, " +:+ Str.quoted (python_name alias) +:+ ")) {" +:+ Str.nl;
    Str.tab +:+ "mod.attr(" +:+ Str.quoted (python_name binder)
    +:+ ") = mod.attr(" +:+ Str.quoted (python_name alias) +:+ ");" +:+ Str.nl;
    "}" +:+ Str.nl ].

(** The second part of [generate_typedef2], "bind class": the typedef is
    bound from the declaration of its canonical type. *)
Definition typedef_binding (g : Generator.t) (binder : CursorBinder)
  : Exception + (list string * option (list string) * list string) :=
  let type_spelling := t_canonical_spelling (type_of binder) in
  let type_is_record := bool_decide (t_canonical_kind (type_of binder) = RECORD) in
  let decl := CursorBinder_init (deref (canonical_declaration (cursor binder))) in
  let template := CursorBinder_init (deref (specialization (cursor decl))) in
  let decl := set_alias (alias binder) decl in
  let local := match alias binder with
               | Some _ => ", py::module_local()"
               | None => ", py::module_local(false)"
               end in
  if type_is_record && is_class_template template then
    if Str.startswith type_spelling "std::vector" then
      inr ( [ "py::bind_vector<" +:+ type_spelling +:+ ">(" +:+ parent_name binder
              +:+ ", " +:+ Str.quoted (python_name binder) +:+ ");" +:+ Str.nl ],
            Some [],
            [ "PYBIND11_MAKE_OPAQUE(" +:+ type_spelling +:+ ")" +:+ Str.nl ] )
    else
      inr ( [ "bind_" +:+ type_spelling +:+ "(" +:+ parent_name binder +:+ ", "
              +:+ Str.quoted (python_name binder) +:+ local +:+ ");" +:+ Str.nl ],
            Some [ "bind_" +:+ spelling_of decl ],
            [] )
  else if type_is_record && is_class decl then
    let decl := set_python_name (spelling_of binder) decl in
    match generate_class g decl with
    | inl e => inl e
    | inr src => inr (src, Some [], [])
    end
  else
    (* logged: not binding typedef *)
    inr ([], Some [], []).

(** [generate_typedef2]: the source lines, the template binding functions
    needed ([None] where the source returns [None]), and the opaque
    definitions. *)
Definition generate_typedef2 (g : Generator.t) (binder : CursorBinder)
  : Exception + (list string * option (list string) * list string) :=
  (* bind an alias in the same module *)
  match alias binder with
  | Some alias =>
      if String.eqb (module_name binder) (module_name alias)
      then inr (attribute_copy binder alias, None, [])
      else typedef_binding g binder
  | None => typedef_binding g binder
  end.

(** [patch_typenames] *)
Definition patch_typenames (binder : CursorBinder) (src : list string)
  : list string :=
  let qname := qualified_name binder in
  let spelling := qualified_spelling binder in
  let find := spelling +:+ "::" in
  let replace := "typename " +:+ qname +:+ "::" in
  map (fun line => Str.replace line find replace) src.

(** [generate_class_template] *)
Definition generate_class_template (g : Generator.t) (binder : CursorBinder)
  : Exception + list string :=
  match generate_class g binder with
  | inl e => inl e
  | inr src => inr (patch_typenames binder src)
  end.

End GenerateClass.

(** * [Module] and the module registry *)

Module Mod.

(** A [Module]: a name and the binders gathered for it. *)
Record t := mk {
  name : string;
  enums : list CursorBinder;
  funcs : list CursorBinder;
  types : list CursorBinder;
  templates : list CursorBinder;
  sorted_binders : list CursorBinder;
  includes : list string;
  imports : list string
}.

(** [Module(name)] *)
Definition init (name : string) : t := mk name [] [] [] [] [] [] [].

End Mod.

(** [Generator._mods]: an [OrderedDict] from a module name to its
    [Module], in insertion order. *)
Definition Registry : Type := list (string * Mod.t).

(** [_mods\[name\]] *)
Fixpoint registry_lookup (reg : Registry) (name : string) : option Mod.t :=
  match reg with
  | [] => None
  | (k, m) :: rest => if String.eqb k name then Some m else registry_lookup rest name
  end.

(** [Generator.modules]: [list(self._mods.values())] *)
Definition modules (reg : Registry) : list Mod.t := map snd reg.

(** [Generator.get_module]: the module of that name, made and registered
    if it is new; [None] when the name is not an available module. *)
Definition get_module (g : Generator.t) (reg : Registry) (name : string)
  : option Mod.t * Registry :=
  if negb (Generator.mem g Generator.available_mods name) then (None, reg)
  else
    match registry_lookup reg name with
    | Some m => (Some m, reg)
    | None =>
        let m := Mod.init name in
        (Some m, reg ++ [(name, m)])
    end.

(** [Generator.get_namespace] *)
Fixpoint get_namespace_in (namespace : list (string * list string))
    (name : string) : option string :=
  match namespace with
  | [] => None
  | (ns, mods) :: rest =>
      if bool_decide (name ∈ mods) then Some ns else get_namespace_in rest name
  end.

Definition get_namespace (g : Generator.t) (name : string) : option string :=
  get_namespace_in (Generator.namespace g) name.

(** [Module.is_excluded] *)
Definition Module_is_excluded (g : Generator.t) (m : Mod.t) : bool :=
  Generator.mem g Generator.excluded_mods (Mod.name m).

(** The [while stack:] loop of [Module.is_dependent].  [fuel] bounds the
    number of passes; [None] is returned when it runs out.  The registry
    is threaded through, since [get_module] may register a module. *)
Fixpoint is_dependent_loop (fuel : nat) (g : Generator.t) (reg : Registry)
    (other_name : string) (visited : gset string) (stack : list string)
  : option bool * Registry :=
  match fuel with
  | O => (None, reg)
  | S fuel =>
      match stack with
      | [] => (Some false, reg)
      | mod_name :: stack =>
          if bool_decide (mod_name ∈ visited)
          then is_dependent_loop fuel g reg other_name visited stack
          else
            let visited := {[mod_name]} ∪ visited in
            if String.eqb mod_name other_name then (Some true, reg)
            else
              match get_module g reg mod_name with
              | (None, reg) => (Some false, reg) (* external namespace *)
              | (Some m, reg) =>
                  is_dependent_loop fuel g reg other_name visited
                    (Mod.imports m ++ stack)
              end
      end
  end.

(** The number of names all import lists of the registry hold. *)
Definition import_count (reg : Registry) : nat :=
  sum_list (map (fun '(_, m) => length (Mod.imports m)) reg).

(** [Module.is_dependent].  The loop is given as many passes as it can
    need: one per name in the import lists, and one more. *)
Definition is_dependent (g : Generator.t) (reg : Registry)
    (self other : Mod.t) : option bool * Registry :=
  match Mod.imports self, Mod.imports other with
  | [], [] => (Some false, reg)
  | _, _ =>
      is_dependent_loop (S (length (Mod.imports self) + import_count reg))
        g reg (Mod.name other) ∅ (Mod.imports self)
  end.

(** [Module.is_circular]: [self.is_dependent(other) and
    other.is_dependent(self)]. *)
Definition is_circular (g : Generator.t) (reg : Registry)
    (self other : Mod.t) : option bool * Registry :=
  match is_dependent g reg self other with
  | (Some true, reg) => is_dependent g reg other self
  | r => r
  end.

(** [l\[start:stop\]], where a negative index counts from the end. *)
Definition py_index (n : nat) (i : Z) : nat :=
  if (i <? 0)%Z then Z.to_nat (i + Z.of_nat n) else Z.to_nat i `min` n.

Definition py_slice {A} (l : list A) (start stop : Z) : list A :=
  let a := py_index (length l) start in
  let b := py_index (length l) stop in
  take (b - a) (drop a l).

(** The pairs [(mod1, mod2)] that the two loops of [check_circular] reach:
    [for i, mod1 in enumerate(mods): for mod2 in mods\[i + 1:-1\]]. *)
Definition circular_pairs (mods : list Mod.t) : list (Mod.t * Mod.t) :=
  flat_map (fun '(i, mod1) =>
              map (fun mod2 => (mod1, mod2))
                  (py_slice mods (Z.of_nat i + 1) (-1)))
           (imap (fun i m => (i, m)) mods).

(** [Generator.check_circular]: the lines written to the log, or the pair
    at which [is_circular] did not answer. *)
Definition check_circular (g : Generator.t) (reg : Registry)
  : list string * Registry :=
  fold_left
    (fun '(log, reg) '(mod1, mod2) =>
       match is_circular g reg mod1 mod2 with
       | (Some true, reg) =>
           (log ++ [Str.tab +:+ "Found circular import: " +:+ Mod.name mod1
                    +:+ " <--> " +:+ Mod.name mod2 +:+ Str.nl], reg)
       | (_, reg) => (log, reg)
       end)
    (circular_pairs (modules reg))
    ([], reg).

(** * Traversal: [Generator.traverse_binder] *)

Section Traverse.
Import Clang.

(** What the traversal builds: the module registry, and the running map
    [canonical_types] from a canonical type spelling to a binder.  The
    lines gathered for the log are left out. *)
Record Traversal := mkTraversal {
  t_mods : Registry;
  canonical_types : gmap string CursorBinder
}.

(** The module [name] of the registry, changed by [f]. *)
Fixpoint registry_update (reg : Registry) (name : string) (f : Mod.t -> Mod.t)
  : Registry :=
  match reg with
  | [] => []
  | (k, m) :: rest =>
      if String.eqb k name then (k, f m) :: rest
      else (k, m) :: registry_update rest name f
  end.

Definition append_enum (b : CursorBinder) (m : Mod.t) : Mod.t :=
  Mod.mk (Mod.name m) (Mod.enums m ++ [b]) (Mod.funcs m) (Mod.types m)
    (Mod.templates m) (Mod.sorted_binders m) (Mod.includes m) (Mod.imports m).

Definition append_func (b : CursorBinder) (m : Mod.t) : Mod.t :=
  Mod.mk (Mod.name m) (Mod.enums m) (Mod.funcs m ++ [b]) (Mod.types m)
    (Mod.templates m) (Mod.sorted_binders m) (Mod.includes m) (Mod.imports m).

Definition append_type (b : CursorBinder) (m : Mod.t) : Mod.t :=
  Mod.mk (Mod.name m) (Mod.enums m) (Mod.funcs m) (Mod.types m ++ [b])
    (Mod.templates m) (Mod.sorted_binders m) (Mod.includes m) (Mod.imports m).

Definition append_template (b : CursorBinder) (m : Mod.t) : Mod.t :=
  Mod.mk (Mod.name m) (Mod.enums m) (Mod.funcs m) (Mod.types m)
    (Mod.templates m ++ [b]) (Mod.sorted_binders m) (Mod.includes m)
    (Mod.imports m).

(** The last part of [traverse_binder]: a binder that passed every filter
    is put in its module [mod_name], by its kind.  A class is recorded in
    [canonical_types] under its canonical spelling; a typedef whose
    canonical spelling is already recorded becomes an alias of the binder
    recorded, and is recorded itself otherwise. *)
Definition add_to_module (available_macros : gmap string MacroForHandle)
    (mod_name qname : string) (binder : CursorBinder) (st : Traversal)
  : Traversal :=
  if is_enum binder then
    mkTraversal (registry_update (t_mods st) mod_name (append_enum binder))
      (canonical_types st)
  else if is_function binder then
    mkTraversal (registry_update (t_mods st) mod_name (append_func binder))
      (canonical_types st)
  else if is_class binder then
    let spelling := t_canonical_spelling (type_of binder) in
    (* check for macro *)
    let binder :=
      match available_macros !! qname with
      | Some m => set_macro (Some m) binder
      | None => binder
      end in
    mkTraversal (registry_update (t_mods st) mod_name (append_type binder))
      (<[spelling := binder]> (canonical_types st))
  else if is_typedef binder then
    (* check for an alias *)
    let spelling := t_canonical_spelling (type_of binder) in
    match canonical_types st !! spelling with
    | Some alias =>
        let binder := set_alias (Some alias) binder in
        mkTraversal (registry_update (t_mods st) mod_name (append_type binder))
          (canonical_types st)
    | None =>
        mkTraversal (registry_update (t_mods st) mod_name (append_type binder))
          (<[spelling := binder]> (canonical_types st))
    end
  else if is_class_template binder then
    mkTraversal (registry_update (t_mods st) mod_name (append_template binder))
      (canonical_types st)
  else st.

(** The filters [traverse_binder] applies to a cursor that is not a
    namespace, after the test for a definition: [Some (mod_name, qname)]
    when the binder is to be put in module [mod_name].  The registry is
    returned too: [get_module] may have registered the module. *)
Definition accept (g : Generator.t) (to_bind : list CursorKind)
    (binder : CursorBinder) (reg : Registry)
  : option (string * string) * Registry :=
  (* bind only these types of cursors *)
  if negb (bool_decide (kind_of binder ∈ to_bind)) then (None, reg)
  (* skip if it's a "Handle_*" definition *)
  else if Str.startswith (spelling_of binder) "Handle_" then (None, reg)
  (* skip if function starts with "operator" *)
  else if is_function binder && Str.startswith (spelling_of binder) "operator"
  then (None, reg)
  else
    (* add binder only if it's in an available header file *)
    match filename binder with
    | None => (None, reg)
    | Some inc =>
        if Generator.mem g Generator.excluded_headers inc
           || negb (Generator.mem g Generator.available_incs inc)
        then (None, reg)
        else
          (* add binder if it's in an available module *)
          let mod_name := module_name binder in
          if negb (Generator.mem g Generator.available_mods mod_name)
          then (None, reg)
          else
            match get_module g reg mod_name with
            | (None, reg) => (None, reg)
            | (Some _, reg) =>
                let qname := qualified_name binder in
                (* skip if specified *)
                if Generator.mem g Generator.skipped qname then (None, reg)
                else
                  (* check for anon/untagged enum *)
                  let qname :=
                    if negb (Str.truthy qname) && is_enum binder
                    then t_spelling (type_of binder) else qname in
                  if negb (Str.truthy qname) then (None, reg)
                  else (Some (mod_name, qname), reg)
            end
    end.

(** [Generator.traverse_binder], by recursion on the cursor. *)
Fixpoint traverse_binder (g : Generator.t) (to_bind : list CursorKind)
    (available_macros : gmap string MacroForHandle) (c : Cursor)
    (st : Traversal) : Traversal :=
  let binder := CursorBinder_init c in
  (* only bind definitions *)
  if negb (is_definition c)
     && negb (Str.startswith (spelling c) "IGESFile")
     && negb (Str.startswith (spelling c) "StepFile")
  then st
  else if is_namespace binder then
    if Str.startswith (spelling c) "__"
       || Generator.mem g Generator.excluded_namespaces (spelling c)
    then st
    else
      (fix each (l : list Cursor) (st : Traversal) : Traversal :=
         match l with
         | [] => st
         | child :: l' =>
             each l' (traverse_binder g to_bind available_macros child st)
         end) (children c) st
  else
    match accept g to_bind binder (t_mods st) with
    | (None, reg) => mkTraversal reg (canonical_types st)
    | (Some (mod_name, qname), reg) =>
        add_to_module available_macros mod_name qname binder
          (mkTraversal reg (canonical_types st))
    end.

(** The loop of [Generator.traverse] over the children of the translation
    unit. *)
Definition traverse (g : Generator.t) (to_bind : list CursorKind)
    (available_macros : gmap string MacroForHandle) (tu : Cursor)
    (reg : Registry) : Traversal :=
  fold_left (fun st c => traverse_binder g to_bind available_macros c st)
    (children tu) (mkTraversal reg ∅).

End Traverse.

(** * Output emission *)

(** The files on disk, and the paths written so far, oldest first. *)
Record Disk := mkDisk {
  files : gmap string string;
  written : list string
}.

(** The state a run of the generator carries while it binds: the rule
    tables ([available_templates] grows as templates are bound) and the
    disk. *)
Record Run := mkRun {
  tables : Generator.t;
  disk : Disk
}.

(** A step of the run: it leaves a state, and either raises or answers. *)
Definition M (A : Type) : Type := Run -> Run * (Exception + A).

Definition ret {A} (a : A) : M A := fun s => (s, inr a).

Definition bind {A B} (m : M A) (k : A -> M B) : M B :=
  fun s =>
    match m s with
    | (s', inl e) => (s', inl e)
    | (s', inr a) => k a s'
    end.

#[global] Instance M_ret : MRet M := @ret.
#[global] Instance M_bind : MBind M := fun A B k m => bind m k.

Definition get_tables : M Generator.t := fun s => (s, inr (tables s)).

Definition throw {A} (e : Exception) : M A := fun s => (s, inl e).

(** The answer of a function that does not touch the state, or the
    exception it raises. *)
Definition lift {A} (r : Exception + A) : M A := fun s => (s, r).

(** [for x in l: f(x)], gathering the answers. *)
Fixpoint for_each {A B} (f : A -> M B) (l : list A) : M (list B) :=
  match l with
  | [] => ret []
  | x :: l' => y ← f x; ys ← for_each f l'; ret (y :: ys)
  end.

Section Emit.
Import Clang.
Context `{Environment}.

(** [overwrite_if_changed]: only overwrite the file at [path] if the
    buffer changed. *)
Definition overwrite_if_changed (path data : string) (d : Disk) : Disk :=
  match files d !! path with
  | Some old =>
      let new_hash := sha256 data in
      let old_hash := sha256 old in
      if String.eqb new_hash old_hash then d
      else mkDisk (<[path := data]> (files d)) (written d ++ [path])
  | None => mkDisk (<[path := data]> (files d)) (written d ++ [path])
  end.

(** [Generator.available_templates.add(name)] *)
Definition add_available_template (name : string) : M unit :=
  fun s => (mkRun (Generator.add Generator.available_templates name (tables s))
              (disk s), inr tt).

Definition write_file (path data : string) : M unit :=
  fun s => (mkRun (tables s) (overwrite_if_changed path data (disk s)), inr tt).

(** One pass of the outer loop of [patch_src]: every line that holds
    [find] has it replaced. *)
Definition patch_lines (find replace : string) (src : list string)
  : list string :=
  map (fun line => if Str.contains find line then Str.replace line find replace
                   else line) src.

(** [patch_src]: [for find, replace in Generator.patches\[filename\]]
    raises on an entry that is not a pair. *)
Fixpoint apply_patches (pairs : list (list string)) (src : list string)
  : Exception + list string :=
  match pairs with
  | [] => inr src
  | [find; replace] :: rest => apply_patches rest (patch_lines find replace src)
  | entry :: _ => inl (ValueError_unpack 2 (length entry))
  end.

Definition patch_src (filename : string) (src : list string) : M (list string) :=
  g ← get_tables;
  match Generator.patches g !! filename with
  | None => ret src
  | Some pairs =>
      match apply_patches pairs src with
      | inl e => throw e
      | inr src => ret src
      end
  end.

(** [bind_enum] *)
Definition bind_enum (g : Generator.t) (binder : CursorBinder)
  : CursorBinder * list string :=
  let src := ["// ENUM: " +:+ Str.upper (python_name binder) +:+ Str.nl] in
  let binders := binder :: grouped_binders binder in
  let src := src ++ flat_map (fun binder_ => generate_enum g binder_ ++ [Str.nl])
                      binders in
  let src := src ++ [Str.nl] in
  (set_src src binder, []).

(** [bind_function] *)
Definition bind_function (g : Generator.t) (binder : CursorBinder)
  : CursorBinder * list string :=
  let src := ["// FUNCTION: " +:+ Str.upper (python_name binder) +:+ Str.nl] in
  let binders := binder :: grouped_binders binder in
  let src := src ++ flat_map (generate_function g) binders in
  (set_src src binder, []).

(** [bind_class] *)
Definition bind_class (g : Generator.t) (binder : CursorBinder)
  : Exception + (CursorBinder * list string) :=
  let src := ["// CLASS: " +:+ Str.upper (python_name binder) +:+ Str.nl] in
  (* generate source *)
  match generate_class g binder with
  | inl e => inl e
  | inr lines =>
      let src := src ++ lines ++ [Str.nl] in
      (* add extra header for special macro case *)
      match macro binder with
      | None => inr (set_src src binder, [])
      | Some m =>
          match MacroForHandle_headers m with
          | inl e => inl e
          | inr headers => inr (set_src src binder, headers)
          end
      end
  end.

(** [bind_typedef] *)
Definition bind_typedef (g : Generator.t) (binder : CursorBinder)
  : Exception + (CursorBinder * list string) :=
  let src := ["// TYPEDEF: " +:+ Str.upper (python_name binder) +:+ Str.nl] in
  (* text before type *)
  let qname := qualified_name binder in
  let src :=
    match Generator.lookup_list g Generator.before_type qname with
    | Some txts =>
        src ++ ["// Before type" +:+ Str.nl]
        ++ map (fun txt => txt +:+ Str.nl) txts ++ [Str.nl]
    | None => src
    end in
  (* generate source *)
  match generate_typedef2 g binder with
  | inl e => inl e
  | inr (other_src, bind_template, extra) =>
  (* comment if excluded *)
  let other_src :=
    if is_excluded g binder
       || match other_src with
          | first :: _ =>
              Str.startswith first "bind_opencascade::handle"
              || Str.startswith first "bind_std::"
          | [] => false
          end
    then
      let other_src := ("/*" +:+ Str.nl) :: other_src in
      if negb (bool_decide (last other_src = Some ("*/" +:+ Str.nl)))
      then other_src ++ ["*/" +:+ Str.nl] else other_src
    else other_src in
  let src := src ++ other_src ++ [Str.nl] in
  (* include template if needed *)
  let extra_headers :=
    flat_map (fun template =>
                if Generator.mem g Generator.available_templates template
                then [template +:+ ".hxx"] else [])
             (default [] bind_template) in
  (* add opaque defs *)
  inr (set_src src (set_opaque (opaque binder ++ extra) binder), extra_headers)
  end.

(** [sorted(set(l))] on strings: insertion into a list kept in order and
    free of repeats. *)
Fixpoint insert_sorted (x : string) (l : list string) : list string :=
  match l with
  | [] => [x]
  | y :: l' =>
      match String.compare x y with
      | Lt => x :: l
      | Eq => l
      | Gt => y :: insert_sorted x l'
      end
  end.

Definition sorted_set (l : list string) : list string :=
  fold_right insert_sorted [] l.

(** [bind_class_template].  [list(Generator.common_includes)] is the set
    as the process iterates it; the list is sorted before it is written. *)
Definition bind_class_template (binder : CursorBinder) (path : string)
  : M CursorBinder :=
  g ← get_tables;
  (* bind function name *)
  let bind_name := "bind_" +:+ python_name binder in
  (* include guard and include files *)
  let includes_ :=
    iter_set (Generator.sets g Generator.common_includes) ++ includes binder
    ++ default [] (Generator.lookup_list g Generator.plus_headers bind_name) in
  let src :=
    ["#pragma once" +:+ Str.nl]
    ++ map (fun inc => "#include <" +:+ inc +:+ ">" +:+ Str.nl) (sorted_set includes_)
    ++ [Str.nl] in
  let binder := set_bind_name bind_name binder in
  add_available_template bind_name;;
  g ← get_tables;
  (* function template *)
  let template_params :=
    map (fun t =>
           let template_param :=
             if is_template_type_param t then "typename " +:+ display_name t
             else t_spelling (type_of t) +:+ " " +:+ display_name t in
           if Str.truthy (default_value t)
           then template_param +:+ "=" +:+ default_value t
           else template_param)
        (template_parameters binder) in
  let src := src ++ ["template <" +:+ Str.join ", " template_params +:+ ">" +:+ Str.nl] in
  (* bind function *)
  let src := src ++ ["void " +:+ bind_name
    +:+ "(py::module &mod, std::string const &name, py::module_local const &local){"
    +:+ Str.nl +:+ Str.nl] in
  (* generate source *)
  lines ← lift (generate_class_template g binder);
  let src := src ++ lines ++ [Str.nl] in
  (* end function *)
  let src := src ++ ["}" +:+ Str.nl +:+ Str.nl] in
  (* patch the file *)
  src ← patch_src bind_name src;
  (* write file *)
  let fname := Str.join "" [path; "/"; bind_name; ".hxx"] in
  write_file fname (SRC_PREFIX +:+ Str.join "" src);;
  ret binder.

(** [CursorBinder.bind]: the binder with its source text, and the extra
    headers it asks for. *)
Definition CursorBinder_bind (binder : CursorBinder) (path : string)
  : M (CursorBinder * list string) :=
  g ← get_tables;
  if is_enum binder then ret (bind_enum g binder)
  else if is_function binder then ret (bind_function g binder)
  else if is_class binder then lift (bind_class g binder)
  else if is_typedef binder then lift (bind_typedef g binder)
  else if is_class_template binder then
    binder ← bind_class_template binder path; ret (binder, [])
  else ret (binder, []).

(** The include lines of [Module.bind]: each header once, in order. *)
Fixpoint include_lines (used_includes : list string) (incs : list string)
  : list string :=
  match incs with
  | [] => []
  | inc :: rest =>
      if bool_decide (inc ∈ used_includes) then include_lines used_includes rest
      else ("#include <" +:+ inc +:+ ">" +:+ Str.nl)
           :: include_lines (inc :: used_includes) rest
  end.

(** [str(Generator.get_namespace(mod_name))] *)
Definition package_name_of (g : Generator.t) (mod_name : string) : string :=
  default "None" (get_namespace g mod_name).

(** [Module.bind_templates] *)
Definition Module_bind_templates (m : Mod.t) (path : string) : M unit :=
  for_each (fun binder => CursorBinder_bind binder path) (Mod.templates m);;
  ret tt.

(** [Module.bind].  The import guards of the module are a set of strings:
    their structures are written in the order in which the process
    iterates it. *)
Definition Module_bind (m : Mod.t) (path : string) : M unit :=
  let name := Mod.name m in
  let fname := Str.join "/" [path; name +:+ ".cxx"] in
  g ← get_tables;
  (* check if module is split *)
  let is_split := Generator.mem g Generator.split name in
  (* generate binding source and headers *)
  bound ← for_each (fun binder => CursorBinder_bind binder path)
             (Mod.sorted_binders m);
  g ← get_tables;
  let binders := map fst bound in
  let extra_headers := flat_map snd bound in
  (* write include files *)
  let inc_src := include_lines [] (Mod.includes m ++ extra_headers) in
  (* write opaque types *)
  let opaque_src := flat_map opaque binders in
  let opaque_src := match opaque_src with
                    | [] => []
                    | _ => opaque_src ++ [Str.nl]
                    end in
  (* write manual text before module *)
  let before_mod_src :=
    default [] (Generator.lookup_list g Generator.before_module name) in
  let before_txt :=
    match Generator.lookup_list g Generator.before_module name with
    | Some txts => map (fun txt => txt +:+ Str.nl) txts ++ [Str.nl]
    | None => []
    end in
  (* write split function signature *)
  let split_decl :=
    if is_split
    then ["// Functions for split modules" +:+ Str.nl;
          "void bind_" +:+ name +:+ "_2(py::module&);" +:+ Str.nl +:+ Str.nl]
    else [] in
  (* initialize *)
  let init := ["PYBIND11_MODULE(" +:+ name +:+ ", mod) {" +:+ Str.nl +:+ Str.nl] in
  (* import other modules *)
  let guarded : gset string := default ∅ (Generator.import_guards g !! name) in
  let import_src :=
    flat_map (fun mod_name =>
                if bool_decide (mod_name ∈ guarded) then []
                else if negb (String.eqb mod_name name) then
                  ["py::module::import("
                   +:+ Str.quoted (package_name_of g mod_name +:+ "." +:+ mod_name)
                   +:+ ");" +:+ Str.nl]
                else [])
             (Mod.imports m)
    ++ [Str.nl] in
  (* import guards *)
  let guard_src :=
    flat_map (fun mod_name =>
                ["struct Import" +:+ mod_name +:+ "{" +:+ Str.nl;
                 Str.tab +:+ "Import" +:+ mod_name +:+ "() { py::module::import("
                 +:+ Str.quoted (package_name_of g mod_name +:+ "." +:+ mod_name)
                 +:+ "); }" +:+ Str.nl;
                 "};" +:+ Str.nl +:+ Str.nl])
             (iter_set guarded) in
  (* if the module is split in two, only bind half *)
  let indx := length binders `div` 2 in
  let split_binders := if is_split then drop indx binders else [] in
  let binders := if is_split then take indx binders else binders in
  (* main bind loop, and patch *)
  lines ← patch_src name (flat_map src binders);
  let text :=
    [SRC_PREFIX] ++ inc_src ++ [Str.nl] ++ opaque_src ++ before_txt
    ++ split_decl ++ init ++ import_src ++ guard_src ++ lines ++ [Str.nl]
    (* call the split function *)
    ++ (if is_split then ["bind_" +:+ name +:+ "_2(mod);" +:+ Str.nl +:+ Str.nl]
        else [])
    (* end module *)
    ++ ["}" +:+ Str.nl] in
  write_file fname (Str.join "" text);;
  (* create the split file *)
  if is_split then
    let fname := Str.join "/" [path; name +:+ "_2.cxx"] in
    lines ← patch_src name (flat_map src split_binders);
    let text :=
      [SRC_PREFIX] ++ inc_src ++ [Str.nl]
      ++ match before_mod_src with
         | [] => []
         | _ => before_mod_src ++ [Str.nl +:+ Str.nl]
         end
      ++ ["void bind_" +:+ name +:+ "_2(py::module &mod)" +:+ Str.nl;
          "{" +:+ Str.nl +:+ Str.nl]
      ++ lines ++ [Str.nl] ++ ["}" +:+ Str.nl] in
    write_file fname (Str.join "" text)
  else ret tt.

(** [Generator.bind_templates]: every module binds its templates. *)
Definition Generator_bind_templates (reg : Registry) (path : string) : M unit :=
  for_each (fun m => Module_bind_templates m path) (modules reg);;
  ret tt.

(** [Generator.bind]: every module that is not excluded is bound. *)
Definition Generator_bind (reg : Registry) (path : string) : M unit :=
  for_each (fun m =>
              g ← get_tables;
              if Module_is_excluded g m then ret tt
              else Module_bind m path)
           (modules reg);;
  ret tt.

End Emit.

(** * [Module.sort_binders]

    The binders of a module are objects shared between the lists of the
    module; [sort_binders] mutates them and appends to [sorted_binders],
    through which alone they are read afterwards.  The lists [enums],
    [funcs] and [types] are left as gathered. *)

From Stdlib Require Import Sorted.

Section SortBinders.
Import Clang.

(** [master.grouped_binders.append(b); b.skip = True] for the master
    stored under the key of [b]; [None] when the key is not in the
    dictionary.  [masters] are the values of the dictionary, in the order
    they were put in [sorted_binders]. *)
Fixpoint add_to_group {K : Type} `{EqDecision K} (key : CursorBinder -> K)
    (b : CursorBinder) (masters : list CursorBinder)
  : option (list CursorBinder) :=
  match masters with
  | [] => None
  | master :: rest =>
      if decide (key master = key b)
      then Some (set_grouped_binders
                   (grouped_binders master ++ [set_skip true b]) master
                 :: rest)
      else cons master <$> add_to_group key b rest
  end.

(** One pass of a grouping loop of [sort_binders]. *)
Definition group_step {K : Type} `{EqDecision K} (key : CursorBinder -> K)
    (masters : list CursorBinder) (b : CursorBinder) : list CursorBinder :=
  match add_to_group key b masters with
  | Some masters' => masters'
  | None => masters ++ [b]
  end.

(** A grouping loop: the binders it appends to [sorted_binders]. *)
Definition group_by {K : Type} `{EqDecision K} (key : CursorBinder -> K)
    (binders : list CursorBinder) : list CursorBinder :=
  fold_left (group_step key) binders [].

(** [original_order\[v\]]: the dictionary is keyed by binders, which
    compare by the hash of their cursor, so that the index kept for [v] is
    the last one of a binder equal to it.  [i] is the index of the head of
    [l]. *)
Fixpoint original_order (i : nat) (l : list CursorBinder) (v : CursorBinder)
  : option nat :=
  match l with
  | [] => None
  | b :: rest =>
      match original_order (S i) rest v with
      | Some j => Some j
      | None =>
          if (hash (cursor b) =? hash (cursor v))%Z then Some i else None
      end
  end.

(** The priority [sort_fn] gives a binder: that of the last pattern of
    the [sort_order] of the module found in its spelling. *)
Definition sort_priority (sort_order : list (string * Z)) (v : CursorBinder) : Z :=
  fold_left (fun priority '(pattern, prio) =>
               if Str.contains pattern (spelling_of v) then prio else priority)
            sort_order 10000%Z.

(** [sort_fn]: the key of a binder. *)
Definition sort_fn (sort_order : list (string * Z)) (binders : list CursorBinder)
    (v : CursorBinder) : Z * nat :=
  (sort_priority sort_order v, default 0 (original_order 0 binders v)).

(** The order of Python on pairs of integers. *)
Definition key_le (a b : Z * nat) : bool :=
  (a.1 <? b.1)%Z || ((a.1 =? b.1)%Z && (a.2 <=? b.2)).

(** [list.sort(key=...)] is a stable sort: what it returns is what a
    stable insertion sort returns. *)
Fixpoint insert_by {A : Type} (key : A -> Z * nat) (x : A) (l : list A) : list A :=
  match l with
  | [] => [x]
  | y :: l' => if key_le (key x) (key y) then x :: l else y :: insert_by key x l'
  end.

Definition sort_by {A : Type} (key : A -> Z * nat) (l : list A) : list A :=
  fold_right (insert_by key) [] l.

(** [Module.sort_binders] *)
Definition Module_sort_binders (g : Generator.t) (m : Mod.t) : Mod.t :=
  (* sort enums based on their file location *)
  let sorted := Mod.sorted_binders m ++ group_by filename (Mod.enums m) in
  (* sort functions by their name *)
  let sorted := sorted ++ group_by spelling_of (Mod.funcs m) in
  (* bind types *)
  let sorted := sorted ++ Mod.types m in
  let sorted :=
    match Generator.sort_order g !! Mod.name m with
    | Some (entry :: entries) =>
        sort_by (sort_fn (entry :: entries) sorted) sorted
    | _ => sorted
    end in
  Mod.mk (Mod.name m) (Mod.enums m) (Mod.funcs m) (Mod.types m)
    (Mod.templates m) sorted (Mod.includes m) (Mod.imports m).

(** [Generator.sort_binders] *)
Definition Generator_sort_binders (g : Generator.t) (reg : Registry) : Registry :=
  map (fun '(name, m) => (name, Module_sort_binders g m)) reg.

End SortBinders.

(** * Include files and imports *)

Section Includes.
Import Clang.
Context `{Environment}.

(** [cursor.walk_preorder()]: the cursor, then its descendants, depth
    first. *)
Fixpoint walk_preorder (c : Cursor) : list Cursor :=
  c :: (fix each (l : list Cursor) : list Cursor :=
          match l with
          | [] => []
          | child :: l' => walk_preorder child ++ each l'
          end) (children c).

(** [CursorBinder.dfs] *)
Definition dfs (b : CursorBinder) : list CursorBinder :=
  map CursorBinder_init
    (List.filter (fun c => negb (bool_decide (kind c = TRANSLATION_UNIT)))
       (walk_preorder (cursor b))).

Definition is_type_ref (b : CursorBinder) : bool :=
  bool_decide (kind_of b = TYPE_REF).
Definition is_template_ref (b : CursorBinder) : bool :=
  bool_decide (kind_of b = TEMPLATE_REF).

(** [if x not in l: l.append(x)] *)
Definition add_new (l : list string) (x : string) : list string :=
  if bool_decide (x ∈ l) then l else l ++ [x].

(** What [str in None] raises. *)
Inductive TypeError := NoneType_is_not_iterable.

(** One pass of the loop of [build_includes] over the descendants: the
    file of the definition a type or template reference refers to, when it
    is to be included. *)
Definition referenced_file (g : Generator.t) (qname : string)
    (item : CursorBinder) : option string :=
  if negb (is_type_ref item) && negb (is_template_ref item) then None
  else
    (* check valid file *)
    match filename (CursorBinder_init (deref (definition (cursor item)))) with
    | None => None
    | Some f =>
        (* check available *)
        if negb (Generator.mem g Generator.available_incs f) then None
        (* check for excluded *)
        else if Generator.mem g Generator.excluded_headers f then None
        (* check for minus *)
        else
          match Generator.lookup_list g Generator.minus_headers qname with
          | Some minus => if bool_decide (f ∈ minus) then None else Some f
          | None => Some f
          end
    end.

(** The files [build_includes] gathers before it adds the file of the
    binder itself. *)
Definition gathered_includes (g : Generator.t) (b : CursorBinder) : list string :=
  let qname := qualified_name b in
  (* extra headers *)
  let includes :=
    fold_left add_new
      (default [] (Generator.lookup_list g Generator.plus_headers qname)) [] in
  (* traverse the binder and look for any type references *)
  fold_left (fun includes item =>
               match referenced_file g qname item with
               | Some f => add_new includes f
               | None => includes
               end)
            (dfs b) includes.

(** Replace any .lxx or .gxx with .hxx *)
Definition replace_extension (inc : string) : string :=
  if Str.contains ".lxx" inc then Str.replace inc ".lxx" ".hxx"
  else if Str.contains ".gxx" inc then Str.replace inc ".gxx" ".hxx"
  else inc.

(** [CursorBinder.build_includes]: the binder with its [includes]
    extended; the source returns that list.  A binder without a file
    puts [None] in the list and raises when it comes to it. *)
Definition CursorBinder_build_includes (g : Generator.t) (b : CursorBinder)
  : TypeError + CursorBinder :=
  let includes_ := gathered_includes g b in
  (* add file for this type *)
  match filename b with
  | None => inl NoneType_is_not_iterable
  | Some f =>
      let includes_ := add_new includes_ f in
      inr (set_includes
             (fold_left (fun own inc => add_new own (replace_extension inc))
                includes_ (includes b)) b)
  end.

(** The body of the inner loop of [Module.build_includes]: the binder with
    its includes built, and the includes of the module extended. *)
Definition build_includes_one (g : Generator.t) (minus_headers : list string)
    (binder_ : CursorBinder) (mod_includes : list string)
  : TypeError + (CursorBinder * list string) :=
  match CursorBinder_build_includes g binder_ with
  | inl e => inl e
  | inr binder_ =>
      let temp := includes binder_ in
      (* don't add includes for class templates *)
      if is_class_template binder_ then inr (binder_, mod_includes)
      else
        inr (binder_,
             fold_left (fun incs f =>
                          if negb (bool_decide (f ∈ incs))
                             && negb (bool_decide (f ∈ minus_headers))
                             && negb (Generator.mem g Generator.excluded_headers f)
                          then incs ++ [f] else incs)
                       temp mod_includes)
  end.

(** The inner loop over the binders grouped under a binder. *)
Fixpoint build_includes_each (g : Generator.t) (minus_headers : list string)
    (binders : list CursorBinder) (mod_includes : list string)
  : TypeError + (list CursorBinder * list string) :=
  match binders with
  | [] => inr ([], mod_includes)
  | binder_ :: rest =>
      match build_includes_one g minus_headers binder_ mod_includes with
      | inl e => inl e
      | inr (binder_, mod_includes) =>
          match build_includes_each g minus_headers rest mod_includes with
          | inl e => inl e
          | inr (rest, mod_includes) => inr (binder_ :: rest, mod_includes)
          end
      end
  end.

(** The outer loop: [binders = \[binder\] + binder.grouped_binders] for
    every binder of the module. *)
Fixpoint build_includes_all (g : Generator.t) (minus_headers : list string)
    (all_binders : list CursorBinder) (mod_includes : list string)
  : TypeError + (list CursorBinder * list string) :=
  match all_binders with
  | [] => inr ([], mod_includes)
  | binder :: rest =>
      match build_includes_one g minus_headers binder mod_includes with
      | inl e => inl e
      | inr (binder', mod_includes) =>
          match build_includes_each g minus_headers (grouped_binders binder)
                  mod_includes with
          | inl e => inl e
          | inr (group, mod_includes) =>
              match build_includes_all g minus_headers rest mod_includes with
              | inl e => inl e
              | inr (rest, mod_includes) =>
                  inr (set_grouped_binders group binder' :: rest, mod_includes)
              end
          end
      end
  end.

(** [Module.build_includes].  [list(Generator.common_includes)] is the
    set as the process iterates it. *)
Definition Module_build_includes (g : Generator.t) (m : Mod.t) : TypeError + Mod.t :=
  let name := Mod.name m in
  let includes_ := iter_set (Generator.sets g Generator.common_includes) in
  (* excluded headers per module *)
  let minus_headers :=
    default [] (Generator.lookup_list g Generator.minus_headers name) in
  (* extra headers per module *)
  let includes_ :=
    fold_left add_new
      (default [] (Generator.lookup_list g Generator.plus_headers name))
      includes_ in
  (* headers for binders in module *)
  match build_includes_all g minus_headers
          (Mod.sorted_binders m ++ Mod.templates m) includes_ with
  | inl e => inl e
  | inr (all_binders, includes_) =>
      let n := length (Mod.sorted_binders m) in
      inr (Mod.mk name (Mod.enums m) (Mod.funcs m) (Mod.types m)
             (drop n all_binders) (take n all_binders) includes_ (Mod.imports m))
  end.

(** The module a header file belongs to, as [build_imports] works it
    out. *)
Definition import_of (inc_file : string) : string :=
  let delim := if Str.contains "_" inc_file then "_" else "." in
  default "" (head (Str.split inc_file delim)).

(** The loop of [Generator.build_imports] over the includes of a module. *)
Definition Module_build_imports (g : Generator.t) (m : Mod.t) : Mod.t :=
  let imports :=
    fold_left
      (fun imports inc_file =>
         let other_name := import_of inc_file in
         (* check available *)
         match get_namespace g other_name with
         | None => imports
         | Some _ =>
             (* don't add this module *)
             if String.eqb (Mod.name m) other_name then imports
             else
               (* check excluded *)
               match Generator.lookup_list g Generator.excluded_imports
                       (Mod.name m) with
               | Some excluded =>
                   if bool_decide (other_name ∈ excluded) then imports
                   else add_new imports other_name
               | None => add_new imports other_name
               end
         end)
      (Mod.includes m) (Mod.imports m) in
  Mod.mk (Mod.name m) (Mod.enums m) (Mod.funcs m) (Mod.types m)
    (Mod.templates m) (Mod.sorted_binders m) (Mod.includes m) imports.

(** [Generator.build_imports] *)
Definition Generator_build_imports (g : Generator.t) (reg : Registry) : Registry :=
  map (fun '(name, m) => (name, Module_build_imports g m)) reg.

End Includes.

(** * [generate/run.py]: [gen_includes]

    [gen_includes] lists the directory of the OpenCASCADE headers and
    writes [all_includes.h] and [all_modules.json].  The listing of the
    directory is the input; the text of [all_modules.json], which
    [json.dump] makes of the list returned, is left out. *)

Section GenIncludes.
Context `{Environment}.

(** [s.lower()] on ASCII letters. *)
Definition lower_char (c : ascii) : ascii :=
  let n := nat_of_ascii c in
  if ((65 <=? n) && (n <=? 90))%nat then ascii_of_nat (n + 32) else c.

Fixpoint lower (s : string) : string :=
  match s with
  | EmptyString => EmptyString
  | String c s' => String (lower_char c) (lower s')
  end.

(** [l.sort(key=str.lower)]: a stable sort, as a stable insertion sort
    makes it. *)
Fixpoint insert_lower (x : string) (l : list string) : list string :=
  match l with
  | [] => [x]
  | y :: l' =>
      if String.leb (lower x) (lower y) then x :: l else y :: insert_lower x l'
  end.

Definition sort_lower (l : list string) : list string :=
  fold_right insert_lower [] l.

(** The module of a directory entry. *)
Definition module_of_entry (fin : string) : string :=
  if Str.contains "_" fin then default "" (head (Str.split fin "_"))
  else default "" (head (Str.split fin ".")).

(** What [gen_includes] makes of a listing. *)
Record GenIncludes := mkGenIncludes {
  (** the list returned, which is also written to [all_modules.json] *)
  occt_mods : list string;
  all_includes : list string;
  (** the text of [all_includes.h] *)
  all_includes_h : list string
}.

(** [gen_includes].  [list(occt_mods)] is the set of modules as the
    process iterates it; the sort that follows is stable. *)
Definition gen_includes (listing : list string) : GenIncludes :=
  let all_includes :=
    List.filter (fun fin => Str.endswith fin ".hxx") listing in
  let occt_mods : gset string := list_to_set (map module_of_entry listing) in
  (* OCCT modules *)
  let occt_mods := sort_lower (iter_set occt_mods) in
  (* sort ignoring case *)
  let all_includes := sort_lower all_includes in
  (* all_includes.h *)
  let text :=
    ["/*****************************************************/" +:+ Str.nl;
     "/* Do not edit! This file is automatically generated */" +:+ Str.nl;
     "/*****************************************************/" +:+ Str.nl;
     "#ifdef _WIN32" +:+ Str.nl;
     "    #include <Windows.h>" +:+ Str.nl;
     "#endif" +:+ Str.nl;
     Str.nl +:+ "// OCCT" +:+ Str.nl]
    ++ map (fun header => "#include <" +:+ header +:+ ">" +:+ Str.nl) all_includes in
  mkGenIncludes occt_mods all_includes text.

End GenIncludes.

(** * Sample surroundings for the worked examples

    A stand-in for what the generator takes from outside: a banner, two
    operators, [fnmatch] on patterns without wildcards (where it is
    equality), a hash without collisions, sets iterated in the order of
    [elements], the limit of 4300 digits that [int] has by default, and
    an [int] that knows no digits beyond ASCII. *)

#[local] Instance sample_environment : Environment := {|
  SRC_PREFIX := "// generated" +:+ Str.nl;
  PY_OPERATORS := [("operator+", "__add__"); ("operator()", "__call__")];
  fnmatch := fun name pat => String.eqb name pat;
  sha256 := fun data => data;
  iter_set := elements;
  iter_set_elements := fun s => Permutation_refl (elements s);
  int_max_str_digits := 4300;
  int_beyond_ascii := fun literal => inl (ValueError_int literal)
|}.
(** * Sanity checks of the string functions *)

Example split_sample : Str.split "a::b::c" "::" = ["a"; "b"; "c"].
Proof. reflexivity. Qed.

Example split_no_sep : Str.split "abc" ":" = ["abc"].
Proof. reflexivity. Qed.

Example replace_sample : Str.replace "+arg any: -x" "+arg" "" = " any: -x".
Proof. reflexivity. Qed.

Example strip_sample : Str.strip "  a b  " = "a b".
Proof. vm_compute. reflexivity. Qed.

(** A no-break space before and an ideographic space after. *)
Example strip_beyond_ascii :
  Str.strip (String (ascii_of_nat 194) (String (ascii_of_nat 160) "a b")
             +:+ String (ascii_of_nat 227)
                   (String (ascii_of_nat 128) (String (ascii_of_nat 128) "")))
  = "a b".
Proof. vm_compute. reflexivity. Qed.

Example of_nat_sample : Str.of_nat 12 = "12".
Proof. vm_compute. reflexivity. Qed.

(** * The configuration loader *)

Example config_sample :
  let run := process_config "linux" Generator.initial
     ["# comment"; ""; "-module Foo"; "+sort TColgp: Array=1";
      "-class@win32 Bar"; "-class@linux Baz"; "+pname A::B --> C"] in
  let g := fst run in
  snd run = None
  /\ Generator.mem g Generator.excluded_mods "Foo" = true
  /\ Generator.sort_order g !! "TColgp" = Some [("Array", 1%Z)]
  /\ Generator.mem g Generator.excluded_classes "Bar" = false
  /\ Generator.mem g Generator.excluded_classes "Baz" = true
  /\ Generator.lookup_str g Generator.python_names "A::B" = Some "C".
Proof. repeat split; vm_compute; reflexivity. Qed.

(** [int]: a sign, underscores between digits, white space around; no
    separator of the file group, which [str.strip] takes off and [int]
    does not. *)
Example py_int_sample :
  py_int " -1_000 " = inr (-1000)%Z
  /\ py_int "+7" = inr 7%Z
  /\ py_int "1__0" = inl (ValueError_int "1__0")
  /\ py_int "high" = inl (ValueError_int "high")
  /\ py_int (String (ascii_of_nat 28) "5")
     = inl (ValueError_int (String (ascii_of_nat 28) "5")).
Proof. repeat split; vm_compute; reflexivity. Qed.

(** * Sample cursors for the worked examples *)

Definition empty_disk : Disk := mkDisk ∅ [].

(** Sample cursors: a type by its spelling, the translation unit as the
    only ancestor, and a cursor with every flag off. *)
Definition sample_type (spelling : string) : Clang.Type_ :=
  Clang.mkType spelling Clang.OTHER_TYPE false spelling Clang.OTHER_TYPE
    "" Clang.INVALID_TYPE false spelling.

Definition record_type (spelling : string) : Clang.Type_ :=
  Clang.mkType spelling Clang.RECORD false spelling Clang.RECORD
    "" Clang.INVALID_TYPE false spelling.

Definition in_tu : list Clang.Ancestor :=
  [Clang.mkAncestor Clang.TRANSLATION_UNIT "all_includes.h" "all_includes.h" "" []].

Definition sample_cursor (kind : Clang.CursorKind) (spelling displayname : string)
    (file : string) (access : Clang.AccessSpecifier) (type_ rtype : Clang.Type_)
    (tokens : list string) (ancestors : list Clang.Ancestor)
    (children : list Clang.Cursor) : Clang.Cursor :=
  Clang.mkCursor kind spelling displayname None (Some file) access true false
    false false false false false false 0 type_ rtype tokens ancestors children
    None None None None None.

(** A parameter [type name] or [type name = value]. *)
Definition sample_param (type_ name : string) (value : option string)
  : Clang.Cursor :=
  sample_cursor Clang.PARM_DECL name name "Foo_Bar.hxx" Clang.INVALID
    (sample_type type_) Clang.null_type
    (match value with
     | Some v => [type_; name; "="; v]
     | None => [type_; name]
     end) [] [].


(** A class [name] declared in [file], with the given members. *)
Definition sample_class (name file : string) (members : list Clang.Cursor)
  : Clang.Cursor :=
  sample_cursor Clang.CLASS_DECL name name file Clang.INVALID (record_type name)
    Clang.null_type [] in_tu members.

Definition member_of (class_name : string) : list Clang.Ancestor :=
  Clang.mkAncestor Clang.CLASS_DECL class_name class_name class_name [] :: in_tu.

(** The destructor of [class_name], with the given access. *)
Definition sample_dtor (class_name : string) (access : Clang.AccessSpecifier)
  : Clang.Cursor :=
  sample_cursor Clang.DESTRUCTOR ("~" +:+ class_name) ("~" +:+ class_name +:+ "()")
    "Foo_Bar.hxx" access (sample_type "void ()") (sample_type "void") []
    (member_of class_name) [].

(** A method [void name()] of [class_name]. *)
Definition sample_method (class_name name : string) : Clang.Cursor :=
  sample_cursor Clang.CXX_METHOD name (name +:+ "()") "Foo_Bar.hxx" Clang.PUBLIC
    (sample_type "void ()") (sample_type "void") [] (member_of class_name) [].


(** * Induction on cursors *)

Section CursorInduction.
Import Clang.

(** Induction on a cursor, with the property at hand for its children. *)
Lemma Cursor_children_ind (P : Cursor → Prop) :
  (∀ c, Forall P (children c) → P c) → ∀ c, P c.
Proof.
  intros Hstep.
  refine (fix IH (c : Cursor) : P c :=
            Hstep c ((fix each (l : list Cursor) : Forall P l :=
                        match l with
                        | [] => Forall_nil_2 P
                        | child :: l' => Forall_cons_2 P child l' (IH child) (each l')
                        end) (children c))).
Qed.

End CursorInduction.

(** * The module graph *)

Definition sample_module (name : string) (imports : list string) : Mod.t :=
  Mod.mk name [] [] [] [] [] [] imports.

Definition sample_tables (mods : list string) : Generator.t :=
  fold_right (Generator.add Generator.available_mods) Generator.initial mods.

Example is_circular_sample :
  let a := sample_module "A" ["B"] in
  let b := sample_module "B" ["C"] in
  let c := sample_module "C" ["A"] in
  let reg := [("A", a); ("B", b); ("C", c)] in
  fst (is_circular (sample_tables ["A"; "B"; "C"]) reg a c) = Some true.
Proof. vm_compute. reflexivity. Qed.

Example circular_pairs_sample :
  let a := sample_module "A" [] in
  let b := sample_module "B" [] in
  let c := sample_module "C" [] in
  let d := sample_module "D" [] in
  map (fun p => (Mod.name (fst p), Mod.name (snd p))) (circular_pairs [a; b; c; d])
  = [("A", "B"); ("A", "C"); ("B", "C")].
Proof. vm_compute. reflexivity. Qed.

(** * The pairs [check_circular] tests *)

Section CheckCircular.

Lemma py_index_last (n : nat) : py_index n (-1) = n - 1.
Proof. unfold py_index. simpl. lia. Qed.

Lemma py_index_succ (n i : nat) : py_index n (Z.of_nat i + 1) = S i `min` n.
Proof.
  unfold py_index.
  destruct (Z.ltb_spec (Z.of_nat i + 1) 0) as [Hneg|_]; [lia|].
  replace (Z.to_nat (Z.of_nat i + 1)) with (S i) by lia. reflexivity.
Qed.

(** The inner loop at index [i]: the modules at the indices from [i + 1]
    up to, and not including, the last one. *)
Lemma inner_loop_lookup (mods : list Mod.t) (i : nat) (m : Mod.t) :
  m ∈ py_slice mods (Z.of_nat i + 1) (-1)
  ↔ ∃ j, mods !! j = Some m ∧ i < j ∧ S j < length mods.
Proof.
  unfold py_slice. rewrite py_index_last, py_index_succ.
  rewrite list_elem_of_lookup. split.
  - intros [k Hk]. apply lookup_take_Some in Hk as [Hk Hlt].
    rewrite lookup_drop in Hk.
    exists (S i `min` length mods + k). split; [exact Hk|].
    apply lookup_lt_Some in Hk. lia.
  - intros (j & Hj & Hij & Hlast).
    exists (j - S i). apply lookup_take_Some. split.
    + rewrite lookup_drop.
      replace (S i `min` length mods + (j - S i)) with j by lia. exact Hj.
    + lia.
Qed.

Lemma circular_pairs_lookup (mods : list Mod.t) (mod1 mod2 : Mod.t) :
  (mod1, mod2) ∈ circular_pairs mods
  ↔ ∃ i j, mods !! i = Some mod1 ∧ mods !! j = Some mod2
           ∧ i < j ∧ S j < length mods.
Proof.
  unfold circular_pairs. rewrite list_elem_of_In, in_flat_map. split.
  - intros ([i m] & Him & Hin).
    apply list_elem_of_In, elem_of_lookup_imap in Him as (i' & m' & Heq & Hlk).
    inversion Heq; subst i' m'; clear Heq.
    apply list_elem_of_In, list_elem_of_fmap in Hin as (m2 & Heq & Hm2).
    inversion Heq; subst; clear Heq.
    apply inner_loop_lookup in Hm2 as (j & Hj & Hij & Hlast).
    exists i, j. auto.
  - intros (i & j & Hi & Hj & Hij & Hlast).
    exists (i, mod1). split.
    + apply list_elem_of_In, elem_of_lookup_imap. exists i, mod1. auto.
    + apply list_elem_of_In, list_elem_of_fmap. exists mod2. split; [reflexivity|].
      apply inner_loop_lookup. exists j. auto.
Qed.

(** C9.  The two loops of [check_circular] reach the pairs of modules at
    indices [i < j] where [j] stops one short of the last index: the last
    module of the registry is in no pair that is tested, neither as the
    first nor as the second module.  When the module names are pairwise
    distinct, as the keys of the registry are, no tested pair names the
    last module. *)
Theorem check_circular_skips_last (mods : list Mod.t) (mod1 mod2 : Mod.t) :
  (mod1, mod2) ∈ circular_pairs mods →
  (∃ i j, mods !! i = Some mod1 ∧ mods !! j = Some mod2
          ∧ i < j ∧ j < length mods - 1)
  ∧ (NoDup (map Mod.name mods) →
     ∀ final, last mods = Some final →
       Mod.name mod1 ≠ Mod.name final ∧ Mod.name mod2 ≠ Mod.name final).
Proof.
  intros Hin. apply circular_pairs_lookup in Hin as (i & j & Hi & Hj & Hij & Hlast).
  split.
  - exists i, j. repeat split; auto. lia.
  - intros Hnodup final Hfinal.
    rewrite last_lookup in Hfinal.
    assert (Hne : ∀ k m, mods !! k = Some m → k < pred (length mods) →
                         Mod.name m ≠ Mod.name final).
    { intros k m Hk Hlt Heq.
      assert (map Mod.name mods !! k = Some (Mod.name m)) as H1
        by (rewrite list_lookup_fmap, Hk; reflexivity).
      assert (map Mod.name mods !! pred (length mods) = Some (Mod.name final)) as H2
        by (rewrite list_lookup_fmap, Hfinal; reflexivity).
      rewrite Heq in H1.
      pose proof (NoDup_lookup _ _ _ _ Hnodup H1 H2). lia. }
    split; [apply (Hne i) | apply (Hne j)]; auto; lia.
Qed.

End CheckCircular.

Definition four_modules : list Mod.t :=
  [sample_module "A" ["B"]; sample_module "B" ["A"];
   sample_module "C" ["D"]; sample_module "D" ["C"]].

(** [check_circular_skips_last] at a registry of four modules: the pair
    (A, C) is tested, and it does not name the last module D. *)
Lemma check_circular_skips_last_witness :
  (∃ i j, four_modules !! i = Some (sample_module "A" ["B"])
          ∧ four_modules !! j = Some (sample_module "C" ["D"])
          ∧ i < j ∧ j < length four_modules - 1)
  ∧ (NoDup (map Mod.name four_modules) →
     ∀ final, last four_modules = Some final →
       Mod.name (sample_module "A" ["B"]) ≠ Mod.name final
       ∧ Mod.name (sample_module "C" ["D"]) ≠ Mod.name final).
Proof.
  apply (check_circular_skips_last four_modules).
  vm_compute. do 1 constructor. constructor.
Defined.

(** The check on these four modules: C and D import each other, yet the
    pair (C, D) is not tested and nothing is logged for it. *)
Example check_circular_misses_last_pair :
  fst (check_circular (sample_tables ["A"; "B"; "C"; "D"])
         (map (fun m => (Mod.name m, m)) four_modules))
  = [Str.tab +:+ "Found circular import: A <--> B" +:+ Str.nl].
Proof. vm_compute. reflexivity. Qed.

(** * Errors of the configuration loader *)

Section ProcessConfig.
Context `{Environment}.

(** The loop of [process_config] from line index [n]: it ends without an
    error exactly when every line was processed. *)
Lemma process_lines_app (platform : string) (g : Generator.t)
    (pre post : list string) (n : nat) (g1 : Generator.t) :
  process_lines platform g pre n = (g1, None) →
  process_lines platform g (pre ++ post) n
  = process_lines platform g1 post (n + length pre).
Proof.
  revert g n. induction pre as [|line pre IH]; intros g n Hpre; simpl in *.
  - inversion Hpre; subst. f_equal; lia.
  - destruct (process_line platform g line) as [g' [e|]] eqn:Hline.
    + discriminate.
    + rewrite (IH _ _ Hpre). f_equal; lia.
Qed.

Lemma process_lines_error (platform : string) (g : Generator.t)
    (lines : list string) (n : nat) (g' : Generator.t) (i : nat)
    (e : Exception) :
  process_lines platform g lines n = (g', Some (Error_in_config_at_line i e)) →
  ∃ pre line post g1,
    lines = pre ++ line :: post
    ∧ i = n + length pre + 1
    ∧ process_lines platform g pre n = (g1, None)
    ∧ process_line platform g1 line = (g', Some e).
Proof.
  revert g n. induction lines as [|line lines IH]; intros g n Hrun; simpl in Hrun.
  - discriminate.
  - destruct (process_line platform g line) as [g1 [e1|]] eqn:Hline.
    + inversion Hrun; subst. exists [], line, lines, g. simpl.
      repeat split; auto; lia.
    + apply IH in Hrun as (pre & l & post & g2 & -> & -> & Hpre & Hl).
      exists (line :: pre), l, post, g2. simpl. rewrite Hline.
      repeat split; auto; lia.
Qed.

(** A line that raises ends the load: the error carries the 1-based
    number of the line, and the tables are those the lines before it and
    the line itself have written. *)
Lemma process_lines_raise (platform : string) (g : Generator.t)
    (pre post : list string) (line : string) (n : nat) (g1 g2 : Generator.t)
    (e : Exception) :
  process_lines platform g pre n = (g1, None) →
  process_line platform g1 line = (g2, Some e) →
  process_lines platform g (pre ++ line :: post) n
  = (g2, Some (Error_in_config_at_line (n + length pre + 1) e)).
Proof.
  intros Hpre Hline. rewrite (process_lines_app _ _ _ _ _ _ Hpre).
  cbn [process_lines]. rewrite Hline. reflexivity.
Qed.

(** C3, as amended.  [process_config] raises exactly when a line raises:
    the error carries the 1-based number of the first line that does, and
    the load stops there.  The tables are left as the lines before it and
    the failing line itself wrote them: nothing is rolled back. *)
Theorem process_config_error_line (platform : string) (g : Generator.t)
    (lines : list string) (g' : Generator.t) (i : nat) (e : Exception) :
  process_config platform g lines = (g', Some (Error_in_config_at_line i e))
  ↔ ∃ pre line post g1,
      lines = pre ++ line :: post
      ∧ i = length pre + 1
      ∧ 1 ≤ i ≤ length lines
      ∧ process_config platform g pre = (g1, None)
      ∧ process_line platform g1 line = (g', Some e).
Proof.
  unfold process_config. split.
  - intros Hrun.
    apply process_lines_error in Hrun
      as (pre & line & post & g1 & -> & -> & Hpre & Hl).
    exists pre, line, post, g1. repeat split; auto; try lia.
    rewrite length_app. simpl. lia.
  - intros (pre & line & post & g1 & -> & -> & _ & Hpre & Hl).
    rewrite (process_lines_raise _ _ _ post _ _ _ _ _ Hpre Hl). reflexivity.
Qed.

(** A load that raises nothing processed every line. *)
Lemma process_config_ok_all (platform : string) (g : Generator.t)
    (lines : list string) (g' : Generator.t) :
  process_config platform g lines = (g', None) →
  ∀ pre post, lines = pre ++ post →
    ∃ g1, process_config platform g pre = (g1, None).
Proof.
  unfold process_config. generalize 0 as n. revert g.
  induction lines as [|line lines IH]; intros g n Hrun pre post Heq.
  - destruct pre; [|discriminate]. exists g. reflexivity.
  - destruct pre as [|l pre].
    + exists g. reflexivity.
    + simpl in Heq. injection Heq as <- ->. simpl in *.
      destruct (process_line platform g line) as [g1 [e1|]]; [discriminate|].
      eapply IH; eauto.
Qed.

End ProcessConfig.

(** A file whose second line does not parse. *)
Definition bad_config : list string := ["-module Foo"; "+arg missing-colon"].

(** C3 as stated fails: the load of [bad_config] raises at line 2, and the
    directive of line 1 stays applied -- [excluded_mods] holds [Foo], which
    it did not before the load. *)
Lemma process_config_partially_applied :
  let run := process_config "linux" Generator.initial bad_config in
  snd run = Some (Error_in_config_at_line 2 (ValueError_unpack 2 1))
  ∧ Generator.mem Generator.initial Generator.excluded_mods "Foo" = false
  ∧ Generator.mem (fst run) Generator.excluded_mods "Foo" = true
  ∧ fst run ≠ Generator.initial.
Proof.
  intros run.
  assert (Hbefore : Generator.mem Generator.initial Generator.excluded_mods "Foo" = false)
    by (vm_compute; reflexivity).
  assert (Hafter : Generator.mem (fst run) Generator.excluded_mods "Foo" = true)
    by (vm_compute; reflexivity).
  split; [vm_compute; reflexivity|]. split; [exact Hbefore|]. split; [exact Hafter|].
  intros Heq. rewrite Heq, Hbefore in Hafter. discriminate.
Qed.

(** A failing line can itself leave a trace: [+sort] registers the module
    before [int] raises on the priority. *)
Example process_config_failing_line_writes :
  let run := process_config "linux" Generator.initial ["+sort M: pat=high"] in
  snd run = Some (Error_in_config_at_line 1 (ValueError_int "high"))
  ∧ Generator.sort_order Generator.initial !! "M" = None
  ∧ Generator.sort_order (fst run) !! "M" = Some [].
Proof. repeat split; vm_compute; reflexivity. Qed.

(** [process_config_error_line] at [bad_config]: the first line is
    processed, the second raises, and the load raises with the number 2
    and the tables the two lines have left. *)
Lemma process_config_error_line_witness :
  process_config "linux" Generator.initial bad_config
  = (Generator.add Generator.excluded_mods "Foo" Generator.initial,
     Some (Error_in_config_at_line 2 (ValueError_unpack 2 1))).
Proof.
  apply (process_config_error_line "linux" Generator.initial bad_config).
  exists ["-module Foo"], "+arg missing-colon", [],
    (Generator.add Generator.excluded_mods "Foo" Generator.initial).
  split; [reflexivity|]. split; [reflexivity|].
  split; [cbn; lia|].
  split; reflexivity.
Defined.

(** * Writing output files *)

Section Overwrite.
Context `{Environment}.






End Overwrite.

(** * Overload bindings *)

Section Overloads.
Import Clang.
Context `{Environment}.





Lemma range_arities_nonempty (n d : nat) : range (n - d) (n + 1) ≠ [].
Proof.
  unfold range. replace (n + 1 - (n - d)) with (S (n + 1 - (n - d) - 1)) by lia.
  discriminate.
Qed.





End Overloads.

(** The free function [int f(int x = 0)]. *)
Definition function_with_default : CursorBinder :=
  CursorBinder_init
    (sample_cursor Clang.FUNCTION_DECL "f" "f(int)" "Foo_f.hxx" Clang.INVALID
       (sample_type "int (int)") (sample_type "int") [] in_tu
       [sample_param "int" "x" (Some "0")]).


(** The constructor [Bar(int a, int b = 1, int c = 2)] of a class bound as
    [cls_Bar]: three bindings, for one, two and three arguments. *)
Definition ctor_with_defaults : CursorBinder :=
  set_parent_name "cls_Bar"
    (CursorBinder_init
       (sample_cursor Clang.CONSTRUCTOR "Bar" "Bar(int, int, int)" "Foo_Bar.hxx"
          Clang.PUBLIC (sample_type "void (int, int, int)") (sample_type "void") []
          (Clang.mkAncestor Clang.CLASS_DECL "Bar" "Bar" "Bar" [] :: in_tu)
          [sample_param "int" "a" None; sample_param "int" "b" (Some "1");
           sample_param "int" "c" (Some "2")])).

Example ctor_overloads_sample :
  generate_ctor Generator.initial ctor_with_defaults
  = ["cls_Bar.def(py::init<int>(), py::arg(" +:+ Str.quoted "a" +:+ "));" +:+ Str.nl;
     "cls_Bar.def(py::init<int, int>(), py::arg(" +:+ Str.quoted "a"
       +:+ "), py::arg(" +:+ Str.quoted "b" +:+ "));" +:+ Str.nl;
     "cls_Bar.def(py::init<int, int, int>(), py::arg(" +:+ Str.quoted "a"
       +:+ "), py::arg(" +:+ Str.quoted "b" +:+ "), py::arg(" +:+ Str.quoted "c"
       +:+ "));" +:+ Str.nl].
Proof. vm_compute. reflexivity. Qed.

(** The static method [operator()] of [Bar]: the name looked up in
    [PY_OPERATORS] is [operator()_], which the table does not hold. *)
Definition static_call_operator : CursorBinder :=
  set_parent_name "cls_Bar"
    (CursorBinder_init
       (Clang.mkCursor Clang.CXX_METHOD "operator()" "operator()(int)" None
          (Some "Foo_Bar.hxx") Clang.PUBLIC true false false false true false
          false false 0 (sample_type "int (int)") (sample_type "int") []
          (Clang.mkAncestor Clang.CLASS_DECL "Bar" "Bar" "Bar" [] :: in_tu)
          [sample_param "int" "x" None] None None None None None)).

Example static_operator_raises :
  generate_method Generator.initial static_call_operator
  = inl (KeyError "operator()_").
Proof. vm_compute. reflexivity. Qed.

(** * Class registration: holder, bases, constructors *)

Section ClassRegistration.
Import Clang.
Context `{Environment}.

Lemma append_assoc (a b c : string) : (a +:+ b) +:+ c = a +:+ (b +:+ c).
Proof.
  induction a as [|x a IH]; [reflexivity|].
  change (String x ((a +:+ b) +:+ c) = String x (a +:+ (b +:+ c))).
  rewrite IH. reflexivity.
Qed.

(** The holder models of the specification. *)
Inductive HolderModel :=
| IntrusiveHandle
| ExclusivePointer
| ExclusivePointerNoDelete.

(** The holder model a class resolves to in [generate_class]. *)
Definition holder_model (g : Generator.t) (binder : CursorBinder) : HolderModel :=
  if is_transient binder then IntrusiveHandle
  else if needs_nodelete binder
          || Generator.mem g Generator.nodelete (qualified_name binder)
  then ExclusivePointerNoDelete
  else ExclusivePointer.

(** The registration prints the model as its holder argument, but the
    holder type compared with the bases' tells only the handle from the
    exclusive pointer. *)
Lemma class_holder_model (g : Generator.t) (binder : CursorBinder) :
  class_holder g binder
  = match holder_model g binder with
    | IntrusiveHandle =>
        (", opencascade::handle<" +:+ qualified_name binder +:+ ">",
         "opencascade::handle")
    | ExclusivePointerNoDelete =>
        (", std::unique_ptr<" +:+ qualified_name binder +:+ ", py::nodelete>",
         "std::unique_ptr")
    | ExclusivePointer => ("", "std::unique_ptr")
    end.
Proof.
  unfold class_holder, holder_model.
  destruct (is_transient binder); [reflexivity|].
  destruct (needs_nodelete binder || _); reflexivity.
Qed.










(** The shape of what [generate_class] prints, when it does not raise,
    for a class that is not bound through a macro and has children: the
    text before the type, the registration, the constructors, then the
    other members; all of it in a block comment when the class is
    excluded. *)
Lemma generate_class_shape (g : Generator.t) (binder : CursorBinder)
    (lines : list string) :
  macro binder = None → children (cursor binder) ≠ [] →
  generate_class g binder = inr lines →
  ∃ rest,
    lines
    = (if is_excluded g binder then block_comment else fun src => src)
        (class_before g binder ++ [class_registration g binder]
         ++ with_header (Str.nl +:+ "// Constructors" +:+ Str.nl)
              (class_ctors g binder (class_cls g binder))
         ++ rest).
Proof.
  destruct binder as [c al pn pname bn inc gb sk sr op mc].
  cbn [macro cursor]. intros -> Hchildren.
  unfold generate_class. cbn [cursor].
  destruct c as [k sp dn bc lf acc isdef isabs ispure isconst isstat ismove
                 isanon isbit h ty rty toks anc ch def spec tdecl cdecl udecl].
  cbn [children] in Hchildren.
  destruct ch as [|child ch]; [contradiction|].
  cbn [generate_class_at alias parent_name _pname bind_name includes
       grouped_binders skip src opaque macro children].
  destruct (class_methods g _ _) as [e|src_methods]; [discriminate|].
  match goal with
  | |- match ?nested with _ => _ end = _ → _ =>
      destruct nested as [e|src_nested]; [discriminate|]
  end.
  intros Heq. inversion Heq. eexists.
  destruct (is_excluded g _); reflexivity.
Qed.

(** The template argument [tname] and the base text of the registration. *)
Definition registration_tname (binder : CursorBinder) : string :=
  if Str.contains "::" (qualified_name binder)
  then "typename " +:+ qualified_name binder else qualified_name binder.

Definition registration_bases (base_names : list string) : string :=
  match base_names with
  | [] => ""
  | _ => ", " +:+ Str.join ", " base_names
  end.

Lemma class_registration_parts (g : Generator.t) (binder : CursorBinder) :
  ∃ tail,
    class_registration g binder
    = "py::class_<" +:+ registration_tname binder +:+ fst (class_holder g binder)
      +:+ registration_bases
            (class_base_names g (class_excluded_bases g binder)
               (snd (class_holder g binder)) (bases binder))
      +:+ tail.
Proof.
  unfold class_registration, registration_tname, registration_bases.
  destruct (class_holder g binder) as [holder holder_type_].
  cbn [fst snd]. eexists. reflexivity.
Qed.


Lemma dtors_children (binder : CursorBinder) :
  needs_nodelete binder = true → children (cursor binder) ≠ [].
Proof.
  unfold needs_nodelete, dtors, get_children_of_kind, get_children.
  intros Hdtor Hnil. rewrite Hnil in Hdtor. discriminate.
Qed.

(** What [needs_default_ctor] tests: the class is not abstract, and
    neither the class nor an entry of its list of transitive bases has a
    constructor among its children. *)
Lemma needs_default_ctor_spec (binder : CursorBinder) :
  needs_default_ctor binder = true
  ↔ is_abstract binder = false
    ∧ Forall (fun item => ctors item = []) (binder :: _all_bases binder).
Proof.
  unfold needs_default_ctor. destruct (is_abstract binder).
  - split; [discriminate|]. intros [Habs _]. discriminate.
  - rewrite negb_true_iff. split.
    + intros Hnone. split; [reflexivity|].
      apply Forall_forall. intros item Hin.
      destruct (ctors item) as [|ctor rest] eqn:Hctors; [reflexivity|].
      exfalso.
      assert (Hsome : existsb (fun item => bool_decide (ctors item ≠ []))
                        (binder :: _all_bases binder) = true).
      { apply existsb_exists. exists item. split.
        - apply list_elem_of_In. exact Hin.
        - apply bool_decide_eq_true. rewrite Hctors. discriminate. }
      congruence.
    + intros [_ Hall].
      destruct (existsb _ _) eqn:Hsome; [|reflexivity].
      apply existsb_exists in Hsome as (item & Hin & Hctors).
      apply list_elem_of_In in Hin. apply bool_decide_eq_true in Hctors.
      rewrite Forall_forall in Hall. specialize (Hall item Hin). contradiction.
Qed.

(** The line of the default constructor, as [generate_class] prints it:
    live, or tagged as abstract -- and so behind a line comment -- when
    the class has unimplemented virtual methods. *)
Definition default_ctor_binding (g : Generator.t) (binder : CursorBinder)
  : string :=
  class_cls g binder +:+ ".def(py::init<>());" +:+ Str.nl.

Definition default_ctor_line (g : Generator.t) (binder : CursorBinder) : string :=
  if has_unimplemented_methods binder
  then "// abstract virtual methods // " +:+ default_ctor_binding g binder
  else default_ctor_binding g binder.

Lemma class_ctors_default (g : Generator.t) (binder : CursorBinder) :
  is_abstract binder = false →
  Forall (fun item => ctors item = []) (binder :: _all_bases binder) →
  Generator.mem g Generator.excluded_functions (qualified_name binder) = false →
  class_ctors g binder (class_cls g binder) = [default_ctor_line g binder].
Proof.
  intros Habs Hnone Hexcl.
  assert (Hneeds : needs_default_ctor binder = true)
    by (apply needs_default_ctor_spec; auto).
  apply Forall_cons in Hnone as [Hself _].
  unfold class_ctors, default_ctor_line, default_ctor_binding.
  rewrite Habs, Hself, Hneeds, Hexcl.
  cbn [negb flat_map andb]. destruct (has_unimplemented_methods binder); reflexivity.
Qed.

Lemma elem_of_block_comment (line : string) (src : list string) :
  line ∈ src → line ∈ block_comment src.
Proof.
  intros Hin. unfold block_comment. apply elem_of_cons. right.
  apply elem_of_app. left. exact Hin.
Qed.

(** C7, as amended.  A class with a destructor that is not public, not
    transient and not bound through a macro, is registered -- when its
    generation does not raise -- with the holder
    [std::unique_ptr<..., py::nodelete>].  The destructor has no say on
    the default constructor: when the class is not abstract, neither it
    nor an entry of its list of transitive bases has a constructor, and
    it is not named in [excluded_functions], the binding of the default
    constructor is printed, live when the class has no unimplemented
    virtual method and tagged [// abstract virtual methods //] when it has
    one. *)
Theorem private_destructor_registration (g : Generator.t) (binder : CursorBinder)
    (lines : list string) :
  macro binder = None → is_transient binder = false →
  needs_nodelete binder = true →
  generate_class g binder = inr lines →
  class_holder g binder
  = (", std::unique_ptr<" +:+ qualified_name binder +:+ ", py::nodelete>",
     "std::unique_ptr")
  ∧ (∃ tail,
       class_registration g binder
       = "py::class_<" +:+ registration_tname binder +:+ ", std::unique_ptr<"
         +:+ qualified_name binder +:+ ", py::nodelete>" +:+ tail)
  ∧ class_registration g binder ∈ lines
  ∧ (is_abstract binder = false →
     Forall (fun item => ctors item = []) (binder :: _all_bases binder) →
     Generator.mem g Generator.excluded_functions (qualified_name binder) = false →
     if has_unimplemented_methods binder
     then ("// abstract virtual methods // " +:+ default_ctor_binding g binder)
          ∈ lines
     else default_ctor_binding g binder ∈ lines).
Proof.
  intros Hmacro Htransient Hdtor Hlines.
  assert (Hholder : class_holder g binder
                    = (", std::unique_ptr<" +:+ qualified_name binder
                       +:+ ", py::nodelete>", "std::unique_ptr")).
  { unfold class_holder. rewrite Htransient, Hdtor. reflexivity. }
  destruct (generate_class_shape g binder lines Hmacro (dtors_children _ Hdtor)
              Hlines) as [rest Hshape].
  split; [exact Hholder|]. split.
  { destruct (class_registration_parts g binder) as [tail Hparts].
    rewrite Hholder in Hparts. cbn [fst snd] in Hparts.
    rewrite Hparts. rewrite !append_assoc. eexists. reflexivity. }
  split.
  { rewrite Hshape.
    assert (class_registration g binder
            ∈ class_before g binder ++ [class_registration g binder]
              ++ with_header (Str.nl +:+ "// Constructors" +:+ Str.nl)
                   (class_ctors g binder (class_cls g binder)) ++ rest) as Hin.
    { apply elem_of_app. right. apply elem_of_cons. left. reflexivity. }
    destruct (is_excluded g binder); [apply elem_of_block_comment|]; exact Hin. }
  intros Habs Hnone Hexcl.
  assert (Hline : default_ctor_line g binder ∈ lines).
  { rewrite Hshape, (class_ctors_default g binder Habs Hnone Hexcl).
    cbn [with_header].
    assert (default_ctor_line g binder
            ∈ class_before g binder ++ [class_registration g binder]
              ++ ((Str.nl +:+ "// Constructors" +:+ Str.nl)
                  :: [default_ctor_line g binder]) ++ rest) as Hin.
    { apply elem_of_app. right. apply elem_of_cons. right.
      apply elem_of_app. left. apply elem_of_cons. right.
      apply elem_of_cons. left. reflexivity. }
    destruct (is_excluded g binder); [apply elem_of_block_comment|]; exact Hin. }
  unfold default_ctor_line in Hline.
  destruct (has_unimplemented_methods binder); exact Hline.
Qed.

End ClassRegistration.




(** A class whose only member is a private destructor. *)
Definition lonely_class : Clang.Cursor :=
  sample_class "Lonely" "Foo_Lonely.hxx" [sample_dtor "Lonely" Clang.PRIVATE].

(** C7 as stated fails in its second half: [Lonely] has only a private
    destructor, is registered with the [py::nodelete] holder, and still
    gets a default constructor binding. *)
Lemma private_destructor_default_ctor :
  let binder := CursorBinder_init lonely_class in
  needs_nodelete binder = true
  ∧ is_transient binder = false
  ∧ generate_class Generator.initial binder
    = inr ["py::class_<Lonely, std::unique_ptr<Lonely, py::nodelete>> cls_Lonely(mod, "
           +:+ Str.quoted "Lonely" +:+ ", " +:+ Str.quoted "None" +:+ ");" +:+ Str.nl;
           Str.nl +:+ "// Constructors" +:+ Str.nl;
           "cls_Lonely.def(py::init<>());" +:+ Str.nl].
Proof. repeat split; vm_compute; reflexivity. Qed.

(** The text generated for [Lonely]. *)
Definition lonely_lines : list string :=
  ["py::class_<Lonely, std::unique_ptr<Lonely, py::nodelete>> cls_Lonely(mod, "
   +:+ Str.quoted "Lonely" +:+ ", " +:+ Str.quoted "None" +:+ ");" +:+ Str.nl;
   Str.nl +:+ "// Constructors" +:+ Str.nl;
   "cls_Lonely.def(py::init<>());" +:+ Str.nl].

(** [private_destructor_registration] at [Lonely]. *)
Lemma private_destructor_registration_witness :
  let binder := CursorBinder_init lonely_class in
  class_holder Generator.initial binder
  = (", std::unique_ptr<" +:+ qualified_name binder +:+ ", py::nodelete>",
     "std::unique_ptr")
  ∧ (∃ tail,
       class_registration Generator.initial binder
       = "py::class_<" +:+ registration_tname binder +:+ ", std::unique_ptr<"
         +:+ qualified_name binder +:+ ", py::nodelete>" +:+ tail)
  ∧ class_registration Generator.initial binder ∈ lonely_lines
  ∧ (is_abstract binder = false →
     Forall (fun item => ctors item = []) (binder :: _all_bases binder) →
     Generator.mem Generator.initial Generator.excluded_functions
       (qualified_name binder) = false →
     if has_unimplemented_methods binder
     then ("// abstract virtual methods // "
           +:+ default_ctor_binding Generator.initial binder) ∈ lonely_lines
     else default_ctor_binding Generator.initial binder ∈ lonely_lines).
Proof.
  apply (private_destructor_registration Generator.initial
           (CursorBinder_init lonely_class) lonely_lines);
    vm_compute; reflexivity.
Defined.

(** * Excluded declarations *)

Section Exclusion.
Import Clang.
Context `{Environment}.

(** A list of lines starts with the line that opens a block comment and
    ends with the line that closes one. *)
Definition block_commented (src : list string) : Prop :=
  ∃ body, src = ("/*" +:+ Str.nl) :: body ++ ["*/" +:+ Str.nl].

(** Every line starts a line comment. *)
Definition line_commented (src : list string) : Prop :=
  Forall (fun line => Str.startswith line "// " = true) src.

Lemma startswith_comment_out (src : string) :
  Str.startswith (comment_out src) "// " = true.
Proof. destruct src; reflexivity. Qed.

Lemma startswith_excluded (src : string) :
  Str.startswith ("// excluded // " +:+ src) "// " = true.
Proof. destruct src; reflexivity. Qed.

Lemma startswith_app (p s rest : string) :
  Str.startswith s p = true → Str.startswith (s +:+ rest) p = true.
Proof.
  unfold Str.startswith. revert s.
  induction p as [|c p IH]; intros s.
  - intros _. destruct (s +:+ rest); reflexivity.
  - destruct s as [|d s]; [discriminate|].
    change (String d s +:+ rest) with (String d (s +:+ rest)). cbn [String.prefix].
    destruct (ascii_dec c d); [apply IH | discriminate].
Qed.

Lemma method_prefix_excluded (g : Generator.t) (binder : CursorBinder)
    (names : MethodNames) (rest : string) :
  is_excluded g binder = true → method_names g binder = inr names →
  Str.startswith (m_prefix names +:+ rest) "// " = true.
Proof.
  intros Hexcl. unfold method_names. rewrite Hexcl.
  destruct (if is_operator binder then _ else _) as [e|fname]; [discriminate|].
  intros Heq. inversion Heq. cbn [m_prefix].
  apply startswith_app, startswith_excluded.
Qed.

Lemma method_binding_excluded (g : Generator.t) (binder : CursorBinder)
    (names : MethodNames) (sig : Signature) (i : nat) :
  is_excluded g binder = true → method_names g binder = inr names →
  Str.startswith (method_binding binder names sig i) "// " = true.
Proof.
  intros Hexcl Hnames. unfold method_binding.
  destruct (bool_decide (i = nargs sig)).
  - destruct (bool_decide _ || Str.contains _ _);
      [apply startswith_comment_out
      | apply (method_prefix_excluded g binder); assumption].
  - destruct (Str.truthy (m_is_operator _));
      destruct (bool_decide _ || Str.contains _ _);
      try apply startswith_comment_out;
      apply (method_prefix_excluded g binder); assumption.
Qed.

(** What exclusion does where the generators test it.  The text of an
    excluded enum, and of an excluded class that is not bound through a
    macro and has children, is put between the line that opens a block
    comment and the line that closes one.  Every binding of an excluded
    function, constructor, method or field starts a line comment, and at
    least one is printed.  For a class and a method this is said of the
    text they print when they do not raise. *)
Theorem excluded_text_commented (g : Generator.t) (binder : CursorBinder) :
  is_excluded g binder = true →
  block_commented (generate_enum g binder)
  ∧ (∀ lines, macro binder = None → children (cursor binder) ≠ [] →
       generate_class g binder = inr lines → block_commented lines)
  ∧ line_commented (generate_function g binder)
  ∧ line_commented (generate_ctor g binder)
  ∧ (∀ lines, generate_method g binder = inr lines →
       line_commented lines ∧ lines ≠ [])
  ∧ line_commented (generate_field g binder)
  ∧ generate_function g binder ≠ []
  ∧ generate_ctor g binder ≠ []
  ∧ generate_field g binder ≠ [].
Proof.
  intros Hexcl. unfold block_commented, line_commented.
  pose proof (range_arities_nonempty (nargs (function_signature g binder))
                (ndefaults (function_signature g binder))) as Harities.
  split.
  { unfold generate_enum. rewrite Hexcl. eexists. reflexivity. }
  split.
  { intros lines Hmacro Hchildren Hlines.
    destruct (generate_class_shape g binder lines Hmacro Hchildren Hlines)
      as [rest ->].
    rewrite Hexcl. eexists. reflexivity. }
  split.
  { unfold generate_function. rewrite Hexcl.
    destruct (bool_decide _); (constructor; [|constructor]);
      [apply startswith_comment_out | apply startswith_excluded]. }
  split.
  { unfold generate_ctor. apply Forall_forall. intros line Hin.
    apply list_elem_of_fmap in Hin as (i & -> & _).
    unfold ctor_binding. rewrite Hexcl. apply startswith_comment_out. }
  split.
  { intros lines. unfold generate_method.
    destruct (method_names g binder) as [e|names] eqn:Hnames; [discriminate|].
    intros Heq. inversion Heq. subst lines. clear Heq.
    unfold method_bindings.
    destruct (needs_inout_method g binder).
    - destruct (range _ _); [contradiction|]. split; [|discriminate].
      constructor; [|constructor].
      unfold inout_binding.
      destruct (bool_decide _);
        [apply startswith_comment_out
        | apply (method_prefix_excluded g binder); assumption].
    - split.
      + apply Forall_forall. intros line Hin.
        apply list_elem_of_fmap in Hin as (i & -> & _).
        apply (method_binding_excluded g binder); assumption.
      + intros Hnil%fmap_nil_inv. contradiction. }
  split.
  { unfold generate_field. rewrite Hexcl.
    destruct (type_is_array_like _); (constructor; [|constructor]);
      [apply startswith_comment_out|].
    destruct (is_bitfield _); [destruct (String.eqb _ _)|];
      apply startswith_app, (startswith_comment_out (parent_name binder)). }
  split.
  { unfold generate_function. destruct (bool_decide _); discriminate. }
  split.
  { unfold generate_ctor. intros Hnil%fmap_nil_inv. contradiction. }
  unfold generate_field. destruct (type_is_array_like _); discriminate.
Qed.

End Exclusion.

(** The class [TColStd_HArray1OfReal], declared by the macro
    [DEFINE_HARRAY1] and excluded by a [-class] line. *)
Definition harray_class : CursorBinder :=
  set_macro
    (Some (mkMacro "DEFINE_HARRAY1" "TColStd_HArray1OfReal" "TColStd_Array1OfReal"))
    (CursorBinder_init
       (sample_class "TColStd_HArray1OfReal" "TColStd_HArray1OfReal.hxx"
          [sample_method "TColStd_HArray1OfReal" "Length"])).

Definition harray_excluded : Generator.t :=
  Generator.add Generator.excluded_classes "TColStd_HArray1OfReal" Generator.initial.

(** C8 at the failing input: the class is excluded, and its generated text
    is the macro expansion, live, with no disabling comment around it. *)
Lemma excluded_macro_class_live :
  is_excluded harray_excluded harray_class = true
  ∧ generate_class harray_excluded harray_class
    = inr ["bind_Define_HArray1<TColStd_HArray1OfReal, TColStd_Array1OfReal>(mod, "
           +:+ Str.quoted "TColStd_HArray1OfReal" +:+ ");"; Str.nl]
  ∧ bind_class harray_excluded harray_class
    = inr (set_src
             ["// CLASS: TCOLSTD_HARRAY1OFREAL" +:+ Str.nl;
              "bind_Define_HArray1<TColStd_HArray1OfReal, TColStd_Array1OfReal>(mod, "
              +:+ Str.quoted "TColStd_HArray1OfReal" +:+ ");"; Str.nl; Str.nl]
             harray_class,
           ["bind_Define_HArray1.hxx"]).
Proof. repeat split; vm_compute; reflexivity. Qed.

(** The same class without the macro, for comparison: excluded, and its
    text is inside a block comment. *)
Example excluded_plain_class_commented :
  let binder := set_macro None harray_class in
  match generate_class harray_excluded binder with
  | inr lines =>
      head lines = Some ("/*" +:+ Str.nl) ∧ last lines = Some ("*/" +:+ Str.nl)
  | inl _ => False
  end.
Proof. vm_compute. split; reflexivity. Qed.

(** The lines that open and close the block comment say nothing of the
    lines between them.  An excluded class with an excluded public enum
    inside: the text of the enum brings a closing line of its own, which
    ends the comment of the class one line before its end. *)
Definition outer_kind : Clang.Cursor :=
  sample_cursor Clang.ENUM_DECL "Kind" "Kind" "Foo_Outer.hxx" Clang.PUBLIC
    (sample_type "Foo_Outer::Kind") Clang.null_type [] (member_of "Foo_Outer") [].

Definition outer_class : CursorBinder :=
  CursorBinder_init
    (sample_class "Foo_Outer" "Foo_Outer.hxx"
       [outer_kind; sample_method "Foo_Outer" "Length"]).

Definition outer_excluded : Generator.t :=
  Generator.add Generator.excluded_enums "Foo_Outer::Kind"
    (Generator.add Generator.excluded_classes "Foo_Outer" Generator.initial).

Example excluded_class_closed_early :
  is_excluded outer_excluded outer_class = true
  ∧ ∃ before,
      generate_class outer_excluded outer_class
      = inr (("/*" +:+ Str.nl) :: before
             ++ ["/*" +:+ Str.nl;
                 "py::enum_<Foo_Outer::Kind>(cls_Foo_Outer, " +:+ Str.quoted "Kind"
                 +:+ ", " +:+ Str.quoted "None" +:+ ")" +:+ Str.nl;
                 Str.tab +:+ ".export_values();" +:+ Str.nl;
                 "*/" +:+ Str.nl;
                 "*/" +:+ Str.nl]).
Proof.
  split; [vm_compute; reflexivity|].
  eexists [_; _; _; _; _; _]. vm_compute. reflexivity.
Qed.

(** A macro written in lower case: the traversal takes it, since it
    compares the spelling in upper case, and [generate] looks the name up
    as written. *)
Example macro_name_as_written :
  MacroForHandle_generate (mkMacro "define_harray1" "A" "B")
  = inl (KeyError "define_harray1").
Proof. reflexivity. Qed.

(** [excluded_text_commented] at the free function [f], excluded by a
    [-function] line: its one binding is printed behind a line comment. *)
Lemma excluded_text_commented_witness :
  let g := Generator.add Generator.excluded_functions "f" Generator.initial in
  is_excluded g function_with_default = true
  ∧ line_commented (generate_function g function_with_default)
  ∧ generate_function g function_with_default ≠ [].
Proof.
  intros g.
  assert (Hexcl : is_excluded g function_with_default = true)
    by (vm_compute; reflexivity).
  destruct (excluded_text_commented g function_with_default Hexcl)
    as (_ & _ & Hfun & _ & _ & _ & Hsome & _).
  split; [exact Hexcl|]. split; [exact Hfun|exact Hsome].
Defined.

(** * Typedef aliases *)

Section Alias.
Import Clang.
Context `{Environment}.
Variable g : Generator.t.
Variable to_bind : list CursorKind.
Variable available_macros : gmap string MacroForHandle.









(** The declarations [traverse_binder] reaches from a cursor, in the
    order it reaches them: the cursor itself, or, for a namespace that is
    not left out, what it reaches from the children of the namespace. *)
Fixpoint visited (c : Cursor) : list Cursor :=
  if negb (is_definition c)
     && negb (Str.startswith (spelling c) "IGESFile")
     && negb (Str.startswith (spelling c) "StepFile")
  then []
  else if bool_decide (kind c = NAMESPACE) then
    if Str.startswith (spelling c) "__"
       || Generator.mem g Generator.excluded_namespaces (spelling c)
    then []
    else
      (fix each (l : list Cursor) : list Cursor :=
         match l with
         | [] => []
         | child :: l' => visited child ++ each l'
         end) (children c)
  else [c].

Definition step (st : Traversal) (c : Cursor) : Traversal :=
  traverse_binder g to_bind available_macros c st.

















End Alias.

(** A typedef [name] in [file] whose canonical type is the class declared
    by [decl]. *)
Definition sample_typedef (name file canonical : string) (decl : Clang.Cursor)
  : Clang.Cursor :=
  Clang.mkCursor Clang.TYPEDEF_DECL name name None (Some file) Clang.INVALID
    true false false false false false false false 0
    (Clang.mkType name Clang.TYPEDEF false canonical Clang.RECORD ""
       Clang.INVALID_TYPE false name)
    Clang.null_type [] in_tu [] None None (Some decl) (Some decl) (Some decl).

(** The class [N_X] of module [N], and two typedefs of it in module [M]. *)
Definition class_x : Clang.Cursor :=
  sample_class "N_X" "N_X.hxx" [sample_method "N_X" "Value"].
Definition typedef_1 : Clang.Cursor := sample_typedef "M_T1" "M_T1.hxx" "N_X" class_x.
Definition typedef_2 : Clang.Cursor := sample_typedef "M_T2" "M_T2.hxx" "N_X" class_x.

Definition alias_tables : Generator.t :=
  fold_right (Generator.add Generator.available_incs)
    (fold_right (Generator.add Generator.available_mods) Generator.initial ["N"; "M"])
    ["N_X.hxx"; "M_T1.hxx"; "M_T2.hxx"].

Definition all_kinds : list Clang.CursorKind :=
  [Clang.ENUM_DECL; Clang.FUNCTION_DECL; Clang.STRUCT_DECL; Clang.CLASS_DECL;
   Clang.TYPEDEF_DECL; Clang.CLASS_TEMPLATE].

Definition translation_unit (decls : list Clang.Cursor) : Clang.Cursor :=
  sample_cursor Clang.TRANSLATION_UNIT "all_includes.h" "all_includes.h"
    "all_includes.h" Clang.INVALID Clang.null_type Clang.null_type [] [] decls.






Example attribute_copy_sample :
  attribute_copy
    (set_alias (Some (CursorBinder_init typedef_1)) (CursorBinder_init typedef_2))
    (CursorBinder_init typedef_1)
  = ["if (py::hasattr(mod, " +:+ Str.quoted "M_T1" +:+ ")) {" +:+ Str.nl;
     Str.tab +:+ "mod.attr(" +:+ Str.quoted "M_T2" +:+ ") = mod.attr("
     +:+ Str.quoted "M_T1" +:+ ");" +:+ Str.nl;
     "}" +:+ Str.nl].
Proof. vm_compute. reflexivity. Qed.

(** * Which modules are bound *)

Section Bind.
Import Clang.
Context `{Environment}.

Lemma bind_inv {A B} (m : M A) (k : A → M B) (s s' : Run) (r : Exception + B) :
  (m ≫= k) s = (s', r) →
  (∃ e, m s = (s', inl e) ∧ r = inl e)
  ∨ (∃ s1 a, m s = (s1, inr a) ∧ k a s1 = (s', r)).
Proof.
  unfold mbind, M_bind, bind. destruct (m s) as [s1 [e|a]]; intros Heq.
  - left. inversion Heq; subst. eauto.
  - right. eauto.
Qed.

(** Steps that stay within a relation on states. *)
Section Respects.
Variable R : Run → Run → Prop.
Hypothesis R_refl : ∀ s, R s s.
Hypothesis R_trans : ∀ s1 s2 s3, R s1 s2 → R s2 s3 → R s1 s3.
Hypothesis R_write :
  ∀ path data s, R s (mkRun (tables s) (overwrite_if_changed path data (disk s))).
Hypothesis R_add :
  ∀ name s,
    R s (mkRun (Generator.add Generator.available_templates name (tables s)) (disk s)).

Definition respects {A} (m : M A) : Prop := ∀ s s' r, m s = (s', r) → R s s'.

Lemma respects_ret {A} (a : A) : respects (ret a).
Proof. intros s s' r Heq. inversion Heq; subst. apply R_refl. Qed.

Lemma respects_mret {A} (a : A) : respects (mret a).
Proof. apply respects_ret. Qed.

Lemma respects_throw {A} (e : Exception) : respects (@throw A e).
Proof. intros s s' r Heq. inversion Heq; subst. apply R_refl. Qed.

Lemma respects_lift {A} (r : Exception + A) : respects (lift r).
Proof. intros s s' r' Heq. inversion Heq; subst. apply R_refl. Qed.

Lemma respects_get_tables : respects get_tables.
Proof. intros s s' r Heq. inversion Heq; subst. apply R_refl. Qed.

Lemma respects_write_file (path data : string) : respects (write_file path data).
Proof. intros s s' r Heq. inversion Heq; subst. apply R_write. Qed.

Lemma respects_add_template (name : string) : respects (add_available_template name).
Proof. intros s s' r Heq. inversion Heq; subst. apply R_add. Qed.

Lemma respects_bind {A B} (m : M A) (k : A → M B) :
  respects m → (∀ a, respects (k a)) → respects (m ≫= k).
Proof.
  intros Hm Hk s s' r Heq.
  apply bind_inv in Heq as [(e & Hms & _)|(s1 & a & Hms & Hks)].
  - eapply Hm, Hms.
  - eapply R_trans; [eapply Hm, Hms | eapply Hk, Hks].
Qed.

Lemma respects_for_each {A B} (f : A → M B) (l : list A) :
  (∀ x, respects (f x)) → respects (for_each f l).
Proof.
  intros Hf. induction l as [|x l IH]; cbn [for_each].
  - apply respects_ret.
  - apply respects_bind; [apply Hf|]. intros y.
    apply respects_bind; [apply IH|]. intros ys. apply respects_ret.
Qed.

Ltac respects_step :=
  first
    [ apply respects_ret | apply respects_mret | apply respects_throw
    | apply respects_lift | apply respects_get_tables | apply respects_write_file
    | apply respects_add_template
    | apply respects_for_each; intros
    | apply respects_bind; [|intros]
    | match goal with
      | |- respects (if ?b then _ else _) => destruct b
      | |- respects (match ?x with _ => _ end) => destruct x
      end ].

Lemma respects_patch_src (filename : string) (src : list string) :
  respects (patch_src filename src).
Proof. unfold patch_src. repeat respects_step. Qed.

Lemma respects_bind_class_template (binder : CursorBinder) (path : string) :
  respects (bind_class_template binder path).
Proof.
  unfold bind_class_template.
  repeat first [respects_step | apply respects_patch_src].
Qed.

Lemma respects_CursorBinder_bind (binder : CursorBinder) (path : string) :
  respects (CursorBinder_bind binder path).
Proof.
  unfold CursorBinder_bind.
  repeat first [respects_step | apply respects_bind_class_template].
Qed.

Lemma respects_Module_bind_templates (m : Mod.t) (path : string) :
  respects (Module_bind_templates m path).
Proof.
  unfold Module_bind_templates.
  repeat first [respects_step | apply respects_CursorBinder_bind].
Qed.

Lemma respects_Module_bind (m : Mod.t) (path : string) :
  respects (Module_bind m path).
Proof.
  unfold Module_bind.
  repeat first [respects_step | apply respects_CursorBinder_bind
               | apply respects_patch_src].
Qed.

(** When a loop ends without raising, every pass ran without raising, from
    a state reached from the start and to a state from which the end was
    reached. *)
Lemma for_each_passes {A B} (f : A → M B) (l : list A) (s s' : Run)
    (ys : list B) :
  (∀ x, respects (f x)) →
  for_each f l s = (s', inr ys) →
  ∀ x, x ∈ l → ∃ s1 s2 y, R s s1 ∧ f x s1 = (s2, inr y) ∧ R s2 s'.
Proof.
  intros Hf. revert s ys. induction l as [|x0 l IH]; intros s ys Hrun x Hin.
  - inversion Hin.
  - cbn [for_each] in Hrun.
    apply bind_inv in Hrun as [(e & _ & Habs)|(s1 & y & Hx0 & Hrest)]; [discriminate|].
    apply bind_inv in Hrest as [(e & _ & Habs)|(s2 & ys' & Hl & Hret)]; [discriminate|].
    inversion Hret; subst.
    apply elem_of_cons in Hin as [->|Hin].
    + exists s, s1, y. split; [apply R_refl|]. split; [exact Hx0|].
      eapply (respects_for_each f l Hf), Hl.
    + destruct (IH _ _ Hl x Hin) as (t1 & t2 & y' & Hreach & Hstep & Hend).
      exists t1, t2, y'. split; [|auto].
      eapply R_trans; [eapply Hf, Hx0 | exact Hreach].
Qed.

End Respects.

(** The states a run goes through keep the set of excluded modules. *)
Definition same_exclusions (s s' : Run) : Prop :=
  Generator.sets (tables s') Generator.excluded_mods
  = Generator.sets (tables s) Generator.excluded_mods.

Lemma Module_bind_same_exclusions (m : Mod.t) (path : string) :
  respects same_exclusions (Module_bind m path).
Proof.
  apply respects_Module_bind; unfold same_exclusions.
  - reflexivity.
  - intros s1 s2 s3 H12 H23. rewrite H23. exact H12.
  - reflexivity.
  - reflexivity.
Qed.

Lemma Module_is_excluded_same (s s' : Run) (m : Mod.t) :
  same_exclusions s s' →
  Module_is_excluded (tables s') m = Module_is_excluded (tables s) m.
Proof.
  unfold same_exclusions, Module_is_excluded, Generator.mem.
  intros ->. reflexivity.
Qed.

(** What is left of a step when its answer is dropped. *)
Definition outcome {A} (r : Run * (Exception + A)) : Run * option Exception :=
  (r.1, match r.2 with inl e => Some e | inr _ => None end).

Lemma then_unit {A B} (m : M A) (m' : M B) (s : Run) :
  outcome (m s) = outcome (m' s) → (m;; ret tt) s = (m';; ret tt) s.
Proof.
  unfold mbind, M_bind, bind, outcome, ret.
  destruct (m s) as [s1 [e|a]], (m' s) as [s2 [e'|a']]; cbn;
    intros Heq; inversion Heq; subst; reflexivity.
Qed.

(** The body of the loop of [Generator.bind]. *)
Definition bind_unless_excluded (path : string) (m : Mod.t) : M unit :=
  g ← get_tables;
  if Module_is_excluded g m then ret tt else Module_bind m path.

(** The modules [Generator.bind] binds: those not excluded by the tables
    the run starts from. *)
Definition not_excluded (g : Generator.t) (mods : list Mod.t) : list Mod.t :=
  List.filter (fun m => negb (Module_is_excluded g m)) mods.

Lemma outcome_for_each_cons {A B} (f : A → M B) (x : A) (l : list A) (s : Run) :
  outcome (for_each f (x :: l) s)
  = match f x s with
    | (s1, inl e) => (s1, Some e)
    | (s1, inr _) => outcome (for_each f l s1)
    end.
Proof.
  cbn [for_each]. unfold mbind, M_bind, bind, outcome, ret.
  destruct (f x s) as [s1 [e|y]]; [reflexivity|].
  destruct (for_each f l s1) as [s2 [e|ys]]; reflexivity.
Qed.

Lemma bind_loop_filter (path : string) (mods : list Mod.t) (s : Run) :
  outcome (for_each (bind_unless_excluded path) mods s)
  = outcome (for_each (fun m => Module_bind m path)
               (not_excluded (tables s) mods) s).
Proof.
  revert s. induction mods as [|m mods IH]; intros s; [reflexivity|].
  rewrite outcome_for_each_cons. cbn [not_excluded List.filter].
  unfold bind_unless_excluded at 1, mbind, M_bind, bind, get_tables.
  destruct (Module_is_excluded (tables s) m) eqn:Hex; cbn [negb ret].
  - apply IH.
  - rewrite outcome_for_each_cons.
    destruct (Module_bind m path s) as [s1 [e|[]]] eqn:Hm; [reflexivity|].
    rewrite IH. unfold not_excluded. f_equal. f_equal.
    apply filter_ext. intros m'.
    rewrite (Module_is_excluded_same s s1); [reflexivity|].
    eapply Module_bind_same_exclusions, Hm.
Qed.

(** The files on disk stay, the record of what was written grows, and a
    file that appears was written. *)
Definition disk_extends (s s' : Run) : Prop :=
  (∀ p, is_Some (files (disk s) !! p) → is_Some (files (disk s') !! p))
  ∧ (∀ p, p ∈ written (disk s) → p ∈ written (disk s'))
  ∧ (∀ p, files (disk s) !! p = None → is_Some (files (disk s') !! p) →
          p ∈ written (disk s')).

Lemma disk_extends_refl (s : Run) : disk_extends s s.
Proof.
  repeat split; auto. intros p Hnone [v Hsome]. congruence.
Qed.

Lemma disk_extends_trans (s1 s2 s3 : Run) :
  disk_extends s1 s2 → disk_extends s2 s3 → disk_extends s1 s3.
Proof.
  intros (Hf12 & Hw12 & Hn12) (Hf23 & Hw23 & Hn23). repeat split; auto.
  intros p Hnone Hsome.
  destruct (files (disk s2) !! p) as [v|] eqn:Hmid.
  - apply Hw23, Hn12; [exact Hnone|]. rewrite Hmid. eauto.
  - apply Hn23; assumption.
Qed.

Lemma overwrite_is_Some (path data : string) (d : Disk) :
  is_Some (files (overwrite_if_changed path data d) !! path).
Proof.
  unfold overwrite_if_changed.
  destruct (files d !! path) as [old|] eqn:Hold.
  - destruct (String.eqb _ _); cbn.
    + rewrite Hold. eauto.
    + rewrite lookup_insert_eq. eauto.
  - cbn. rewrite lookup_insert_eq. eauto.
Qed.

Lemma disk_extends_insert (path data : string) (d : Disk) (t t' : Generator.t) :
  disk_extends (mkRun t d)
    (mkRun t' (mkDisk (<[path := data]> (files d)) (written d ++ [path]))).
Proof.
  unfold disk_extends; cbn. repeat split.
  - intros p Hp. apply lookup_insert_is_Some.
    destruct (decide (path = p)); auto.
  - intros p Hp. apply elem_of_app. auto.
  - intros p Hnone Hsome. apply elem_of_app. right.
    apply lookup_insert_is_Some in Hsome as [->|[_ [v Hv]]].
    + apply list_elem_of_singleton. reflexivity.
    + congruence.
Qed.

Lemma disk_extends_write (path data : string) (s : Run) :
  disk_extends s (mkRun (tables s) (overwrite_if_changed path data (disk s))).
Proof.
  unfold overwrite_if_changed. destruct s as [t d]; cbn [tables disk].
  destruct (files d !! path) as [old|].
  - destruct (String.eqb _ _).
    + apply disk_extends_refl.
    + apply disk_extends_insert.
  - apply disk_extends_insert.
Qed.

Lemma disk_extends_add (name : string) (s : Run) :
  disk_extends s
    (mkRun (Generator.add Generator.available_templates name (tables s)) (disk s)).
Proof. unfold disk_extends; cbn. repeat split; auto. intros p Hn [v Hv]. congruence. Qed.

Lemma CursorBinder_bind_extends (binder : CursorBinder) (path : string) :
  respects disk_extends (CursorBinder_bind binder path).
Proof.
  apply respects_CursorBinder_bind.
  - exact disk_extends_refl.
  - exact disk_extends_trans.
  - exact disk_extends_write.
  - exact disk_extends_add.
Qed.

Lemma Module_bind_templates_extends (m : Mod.t) (path : string) :
  respects disk_extends (Module_bind_templates m path).
Proof.
  apply respects_Module_bind_templates.
  - exact disk_extends_refl.
  - exact disk_extends_trans.
  - exact disk_extends_write.
  - exact disk_extends_add.
Qed.

(** The file [bind_class_template] writes for a class template. *)
Definition template_file (path : string) (binder : CursorBinder) : string :=
  Str.join "" [path; "/"; "bind_" +:+ python_name binder; ".hxx"].

Lemma bind_class_template_file (binder binder' : CursorBinder) (path : string)
    (s s' : Run) :
  bind_class_template binder path s = (s', inr binder') →
  is_Some (files (disk s') !! template_file path binder).
Proof.
  unfold bind_class_template. intros Hrun.
  apply bind_inv in Hrun as [(e & _ & Habs)|(s1 & g & _ & Hrun)]; [discriminate|].
  cbv zeta in Hrun.
  apply bind_inv in Hrun as [(e & _ & Habs)|(s2 & [] & _ & Hrun)]; [discriminate|].
  apply bind_inv in Hrun as [(e & _ & Habs)|(s3 & g' & _ & Hrun)]; [discriminate|].
  apply bind_inv in Hrun as [(e & _ & Habs)|(s3' & generated & _ & Hrun)];
    [discriminate|].
  apply bind_inv in Hrun as [(e & _ & Habs)|(s4 & lines & _ & Hrun)]; [discriminate|].
  apply bind_inv in Hrun as [(e & _ & Habs)|(s5 & [] & Hwrite & Hrun)]; [discriminate|].
  inversion Hrun; subst. inversion Hwrite; subst. cbn [disk].
  apply overwrite_is_Some.
Qed.

Lemma CursorBinder_bind_template_file (binder : CursorBinder) (path : string)
    (s s' : Run) (r : CursorBinder * list string) :
  is_class_template binder = true →
  CursorBinder_bind binder path s = (s', inr r) →
  is_Some (files (disk s') !! template_file path binder).
Proof.
  unfold CursorBinder_bind, is_class_template, is_enum, is_function, is_class,
    is_typedef.
  intros Hkind%bool_decide_eq_true Hrun. rewrite Hkind in Hrun.
  apply bind_inv in Hrun as [(e & _ & Habs)|(s1 & g & Hget & Hrun)]; [discriminate|].
  inversion Hget; subst.
  replace (bool_decide (CLASS_TEMPLATE = ENUM_DECL)) with false in Hrun
    by reflexivity.
  replace (bool_decide (CLASS_TEMPLATE = FUNCTION_DECL)) with false in Hrun
    by reflexivity.
  replace (bool_decide (CLASS_TEMPLATE ∈ [CLASS_DECL; STRUCT_DECL])) with false
    in Hrun by reflexivity.
  replace (bool_decide (CLASS_TEMPLATE = TYPEDEF_DECL)) with false in Hrun
    by reflexivity.
  replace (bool_decide (CLASS_TEMPLATE = CLASS_TEMPLATE)) with true in Hrun
    by reflexivity.
  apply bind_inv in Hrun as [(e & _ & Habs)|(s2 & b' & Hbind & Hrun)]; [discriminate|].
  inversion Hrun; subst.
  eapply bind_class_template_file, Hbind.
Qed.

Lemma then_unit_inv {A} (m : M A) (s s' : Run) :
  (m;; ret tt) s = (s', inr tt) → ∃ a, m s = (s', inr a).
Proof.
  intros Hrun.
  apply bind_inv in Hrun as [(e & _ & Habs)|(s1 & a & Hm & Hret)]; [discriminate|].
  inversion Hret; subst. eauto.
Qed.

(** C10.  [Generator.bind] binds the modules that are not excluded and no
    others: its run is that of [Module.bind] over the modules whose name is
    not in [excluded_mods], in the order of the registry.
    [Generator.bind_templates] does not look at [excluded_mods]: when it
    ends without raising, then for every module of the registry, excluded
    or not, and every class template gathered for it, the file
    [bind_<name>.hxx] of that template is on disk, and it was written by
    the run if it was not there before. *)
Theorem module_exclusion_scope (reg : Registry) (path : string) (s s' : Run)
    (m : Mod.t) (binder : CursorBinder) :
  Generator_bind_templates reg path s = (s', inr tt) →
  m ∈ modules reg →
  binder ∈ Mod.templates m →
  is_class_template binder = true →
  Generator_bind reg path s
  = (for_each (fun m => Module_bind m path)
       (not_excluded (tables s) (modules reg));; ret tt) s
  ∧ is_Some (files (disk s') !! template_file path binder)
  ∧ (files (disk s) !! template_file path binder = None →
     template_file path binder ∈ written (disk s')).
Proof.
  intros Hrun Hm Hbinder Hkind. split.
  { unfold Generator_bind. apply then_unit.
    apply (bind_loop_filter path (modules reg) s). }
  unfold Generator_bind_templates in Hrun.
  apply then_unit_inv in Hrun as [units Hrun].
  destruct (for_each_passes disk_extends disk_extends_refl disk_extends_trans
              _ _ _ _ _ (fun m => Module_bind_templates_extends m path)
              Hrun m Hm) as (s1 & s2 & [] & Hreach & Hmod & Hend).
  unfold Module_bind_templates in Hmod.
  apply then_unit_inv in Hmod as [bound Hmod].
  destruct (for_each_passes disk_extends disk_extends_refl disk_extends_trans
              _ _ _ _ _ (fun b => CursorBinder_bind_extends b path)
              Hmod binder Hbinder) as (t1 & t2 & r & Hreach' & Hbind & Hend').
  pose proof (CursorBinder_bind_template_file _ _ _ _ _ Hkind Hbind) as Hfile.
  assert (Hafter : disk_extends t2 s').
  { eapply disk_extends_trans; [exact Hend'|exact Hend]. }
  assert (Hall : disk_extends s s').
  { eapply disk_extends_trans; [exact Hreach|].
    eapply disk_extends_trans; [exact Hreach'|].
    eapply disk_extends_trans; [|exact Hafter].
    eapply CursorBinder_bind_extends, Hbind. }
  destruct Hafter as (Hkeep & _ & _). destruct Hall as (_ & _ & Hnew).
  split; [apply Hkeep, Hfile|].
  intros Hnone. apply Hnew; [exact Hnone|]. apply Hkeep, Hfile.
Qed.

End Bind.

(** The class template [Foo_Array<T>], gathered for the module [Foo], which
    the configuration excludes. *)
Definition array_template : CursorBinder :=
  CursorBinder_init
    (sample_cursor Clang.CLASS_TEMPLATE "Foo_Array" "Foo_Array<T>" "Foo_Array.hxx"
       Clang.INVALID (sample_type "Foo_Array<T>") Clang.null_type [] in_tu
       [sample_cursor Clang.TEMPLATE_TYPE_PARAMETER "T" "T" "Foo_Array.hxx"
          Clang.INVALID (sample_type "T") Clang.null_type [] (member_of "Foo_Array")
          []]).

Definition excluded_module : Mod.t :=
  Mod.mk "Foo" [] [] [] [array_template] [] ["Foo_Array.hxx"] [].

Definition excluded_run : Run :=
  mkRun (Generator.add Generator.excluded_mods "Foo" (sample_tables ["Foo"]))
    empty_disk.

(** [module_exclusion_scope] at the excluded module [Foo]: binding writes
    nothing, binding the templates writes the file of [Foo_Array]. *)
Lemma module_exclusion_scope_witness :
  let reg := [("Foo", excluded_module)] in
  let after_bind := (Generator_bind reg "out" excluded_run).1 in
  let after_templates := (Generator_bind_templates reg "out" excluded_run).1 in
  Module_is_excluded (tables excluded_run) excluded_module = true
  ∧ written (disk after_bind) = []
  ∧ (Generator_bind reg "out" excluded_run
     = (for_each (fun m => Module_bind m "out")
          (not_excluded (tables excluded_run) (modules reg));; ret tt) excluded_run
     ∧ is_Some (files (disk after_templates) !! template_file "out" array_template)
     ∧ (files (disk excluded_run) !! template_file "out" array_template = None →
        template_file "out" array_template ∈ written (disk after_templates))).
Proof.
  intros reg after_bind after_templates.
  split; [vm_compute; reflexivity|]. split; [vm_compute; reflexivity|].
  apply (module_exclusion_scope reg "out" excluded_run after_templates
           excluded_module array_template).
  - subst after_templates.
    rewrite (surjective_pairing (Generator_bind_templates reg "out" excluded_run))
      at 1.
    f_equal; vm_compute; reflexivity.
  - apply list_elem_of_singleton. reflexivity.
  - apply list_elem_of_singleton. reflexivity.
  - vm_compute. reflexivity.
Defined.

Example template_file_written :
  let reg := [("Foo", excluded_module)] in
  written (disk (Generator_bind_templates reg "out" excluded_run).1)
  = ["out/bind_Foo_Array.hxx"]
  ∧ written (disk (Generator_bind reg "out" excluded_run).1) = []
  ∧ written (disk (Module_bind excluded_module "out" excluded_run).1)
    = ["out/Foo.cxx"].
Proof. repeat split; vm_compute; reflexivity. Qed.

(** * Dependency between modules *)

Section Dependent.
Variable g : Generator.t.

(** The transitive import closure, as the specification words it: the
    names a module imports, and the names imported by every registered
    module whose name is in the closure. *)
Inductive import_closure (reg : Registry) (start : list string) : string → Prop :=
| closure_start name :
    name ∈ start → import_closure reg start name
| closure_import name m name' :
    import_closure reg start name →
    registry_lookup reg name = Some m →
    name' ∈ Mod.imports m →
    import_closure reg start name'.

(** What [get_module] does to the registry: the modules that were there
    stay, and a module that is new imports nothing. *)
Definition registers_leaves (reg reg' : Registry) : Prop :=
  (∀ name m, registry_lookup reg name = Some m →
             registry_lookup reg' name = Some m)
  ∧ (∀ name m, registry_lookup reg' name = Some m →
               registry_lookup reg name = Some m ∨ Mod.imports m = []).

Lemma registers_leaves_refl (reg : Registry) : registers_leaves reg reg.
Proof. split; intros name m Hm; auto. Qed.

Lemma registers_leaves_trans (reg1 reg2 reg3 : Registry) :
  registers_leaves reg1 reg2 → registers_leaves reg2 reg3 →
  registers_leaves reg1 reg3.
Proof.
  intros [Hkeep12 Hnew12] [Hkeep23 Hnew23]. split; intros name m Hm.
  - auto.
  - destruct (Hnew23 _ _ Hm) as [Hm2|Hnil]; auto.
Qed.

Lemma registry_lookup_app (reg : Registry) (name name' : string) (m : Mod.t) :
  registry_lookup (reg ++ [(name', m)]) name
  = match registry_lookup reg name with
    | Some m' => Some m'
    | None => if String.eqb name' name then Some m else None
    end.
Proof.
  induction reg as [|[k m'] reg IH]; cbn; [reflexivity|].
  destruct (String.eqb k name); [reflexivity|exact IH].
Qed.

Lemma get_module_leaves (reg reg' : Registry) (name : string) (r : option Mod.t) :
  get_module g reg name = (r, reg') →
  registers_leaves reg reg'
  ∧ (∀ m, r = Some m → registry_lookup reg' name = Some m)
  ∧ (r = None → Generator.mem g Generator.available_mods name = false).
Proof.
  unfold get_module.
  destruct (Generator.mem g Generator.available_mods name); cbn [negb].
  - destruct (registry_lookup reg name) as [m|] eqn:Hlook; intros Heq;
      inversion Heq; subst.
    + split; [apply registers_leaves_refl|].
      split; [intros m' Hm'; congruence|discriminate].
    + split; [split|].
      * intros k m Hm. rewrite registry_lookup_app, Hm. reflexivity.
      * intros k m Hm. rewrite registry_lookup_app in Hm.
        destruct (registry_lookup reg k); [left; exact Hm|].
        destruct (String.eqb name k); [|discriminate].
        right. inversion Hm. reflexivity.
      * split; [|discriminate].
        intros m Hm. inversion Hm; subst.
        rewrite registry_lookup_app, Hlook, String.eqb_refl. reflexivity.
  - intros Heq. inversion Heq; subst.
    split; [apply registers_leaves_refl|]. split; [discriminate|reflexivity].
Qed.

Lemma import_closure_leaves (reg reg' : Registry) (start : list string)
    (name : string) :
  registers_leaves reg reg' →
  import_closure reg' start name ↔ import_closure reg start name.
Proof.
  intros [Hkeep Hnew]. split; intros Hclosure.
  - induction Hclosure as [name Hin|name m name' _ IH Hm Hin].
    + apply closure_start, Hin.
    + destruct (Hnew _ _ Hm) as [Hm'|Hnil].
      * eapply closure_import; eauto.
      * rewrite Hnil in Hin. inversion Hin.
  - induction Hclosure as [name Hin|name m name' _ IH Hm Hin].
    + apply closure_start, Hin.
    + eapply closure_import; eauto.
Qed.

Lemma import_closure_nil (reg : Registry) (name : string) :
  ¬ import_closure reg [] name.
Proof.
  intros Hclosure. induction Hclosure as [name Hin|name m name' _ IH _ _].
  - inversion Hin.
  - exact IH.
Qed.

Lemma import_closure_from (reg : Registry) (start start' : list string)
    (name : string) :
  (∀ x, x ∈ start' → import_closure reg start x) →
  import_closure reg start' name → import_closure reg start name.
Proof.
  intros Hstart Hclosure.
  induction Hclosure as [name Hin|name m name' _ IH Hm Hin].
  - apply Hstart, Hin.
  - eapply closure_import; eauto.
Qed.

(** The loop leaves the registry as [get_module] does. *)
Lemma is_dependent_loop_registry (fuel : nat) (reg reg' : Registry)
    (other_name : string) (visited : gset string) (stack : list string)
    (r : option bool) :
  is_dependent_loop fuel g reg other_name visited stack = (r, reg') →
  registers_leaves reg reg'.
Proof.
  revert reg visited stack.
  induction fuel as [|fuel IH]; intros reg visited stack; cbn [is_dependent_loop].
  { intros Heq. inversion Heq. apply registers_leaves_refl. }
  destruct stack as [|mod_name stack].
  { intros Heq. inversion Heq. apply registers_leaves_refl. }
  destruct (bool_decide (mod_name ∈ visited)); [apply IH|].
  destruct (String.eqb mod_name other_name).
  { intros Heq. inversion Heq. apply registers_leaves_refl. }
  destruct (get_module g reg mod_name) as [[m|] reg1] eqn:Hget.
  - destruct (get_module_leaves _ _ _ _ Hget) as (Hleaves & _ & _).
    intros Hrun. eapply registers_leaves_trans; [exact Hleaves|].
    eapply IH, Hrun.
  - destruct (get_module_leaves _ _ _ _ Hget) as (Hleaves & _ & _).
    intros Heq. inversion Heq; subst. exact Hleaves.
Qed.

Lemma is_dependent_registry (reg reg' : Registry) (self other : Mod.t)
    (r : option bool) :
  is_dependent g reg self other = (r, reg') → registers_leaves reg reg'.
Proof.
  unfold is_dependent.
  destruct (Mod.imports self) as [|x xs];
    [destruct (Mod.imports other) as [|y ys];
     [intros Heq; inversion Heq; apply registers_leaves_refl|]|];
    apply is_dependent_loop_registry.
Qed.

(** The loop answers [True] only for a name of the closure. *)
Lemma is_dependent_loop_sound (fuel : nat) (reg reg' : Registry)
    (other_name : string) (visited : gset string) (stack : list string) :
  is_dependent_loop fuel g reg other_name visited stack = (Some true, reg') →
  import_closure reg stack other_name.
Proof.
  revert reg visited stack.
  induction fuel as [|fuel IH]; intros reg visited stack; cbn [is_dependent_loop];
    [discriminate|].
  destruct stack as [|mod_name stack]; [discriminate|].
  destruct (bool_decide (mod_name ∈ visited)).
  - intros Hrun. apply IH in Hrun.
    eapply import_closure_from; [|exact Hrun].
    intros x Hx. apply closure_start. apply elem_of_cons. auto.
  - destruct (String.eqb_spec mod_name other_name) as [->|Hne].
    + intros _. apply closure_start. apply elem_of_cons. auto.
    + destruct (get_module g reg mod_name) as [[m|] reg1] eqn:Hget;
        [|discriminate].
      destruct (get_module_leaves _ _ _ _ Hget) as (Hleaves & Hm & _).
      intros Hrun. apply IH in Hrun.
      apply (import_closure_leaves _ _ _ _ Hleaves) in Hrun.
      eapply import_closure_from; [|exact Hrun].
      intros x [Hx|Hx]%elem_of_app.
      * destruct (proj2 Hleaves _ _ (Hm m eq_refl)) as [Hlook|Hnil].
        -- eapply closure_import; [|exact Hlook|exact Hx].
           apply closure_start. apply elem_of_cons. auto.
        -- rewrite Hnil in Hx. inversion Hx.
      * apply closure_start. apply elem_of_cons. auto.
Qed.

Lemma is_dependent_sound (reg reg' : Registry) (self other : Mod.t) :
  is_dependent g reg self other = (Some true, reg') →
  import_closure reg (Mod.imports self) (Mod.name other).
Proof.
  unfold is_dependent.
  destruct (Mod.imports self) as [|x xs] eqn:Hself.
  - destruct (Mod.imports other); [discriminate|].
    cbn [is_dependent_loop]. discriminate.
  - apply is_dependent_loop_sound.
Qed.

(** The names in import lists of modules not yet visited: what the loop
    can still push on its stack. *)
Definition unvisited_imports (reg : Registry) (visited : gset string) : nat :=
  sum_list (map (fun '(name, m) =>
                   if bool_decide (name ∈ visited) then 0
                   else length (Mod.imports m)) reg).

Lemma unvisited_imports_empty (reg : Registry) :
  unvisited_imports reg ∅ = import_count reg.
Proof.
  unfold unvisited_imports, import_count.
  induction reg as [|[name m] reg IH]; cbn; [reflexivity|].
  rewrite IH. reflexivity.
Qed.

Lemma unvisited_imports_app (reg : Registry) (name : string)
    (visited : gset string) :
  unvisited_imports (reg ++ [(name, Mod.init name)]) visited
  = unvisited_imports reg visited.
Proof.
  unfold unvisited_imports.
  induction reg as [|[k m] reg IH]; cbn.
  - destruct (bool_decide (name ∈ visited)); reflexivity.
  - cbn in IH. rewrite IH. reflexivity.
Qed.

Lemma unvisited_imports_visit (reg : Registry) (name : string)
    (visited : gset string) :
  unvisited_imports reg ({[name]} ∪ visited) ≤ unvisited_imports reg visited.
Proof.
  unfold unvisited_imports.
  induction reg as [|[k m] reg IH]; cbn; [lia|].
  destruct (decide (k ∈ visited)) as [Hk|Hk].
  - rewrite !bool_decide_eq_true_2 by set_solver. lia.
  - rewrite (bool_decide_eq_false_2 (k ∈ visited)) by exact Hk.
    destruct (bool_decide (k ∈ {[name]} ∪ visited)); lia.
Qed.

Lemma unvisited_imports_lookup (reg : Registry) (name : string) (m : Mod.t)
    (visited : gset string) :
  registry_lookup reg name = Some m → name ∉ visited →
  length (Mod.imports m) + unvisited_imports reg ({[name]} ∪ visited)
  ≤ unvisited_imports reg visited.
Proof.
  intros Hlook Hnew. unfold unvisited_imports.
  induction reg as [|[k m'] reg IH]; cbn in Hlook |- *; [discriminate|].
  destruct (String.eqb_spec k name) as [->|Hne].
  - inversion Hlook; subst.
    rewrite bool_decide_eq_true_2 by set_solver.
    rewrite (bool_decide_eq_false_2 (name ∈ visited)) by exact Hnew.
    pose proof (unvisited_imports_visit reg name visited) as Hle.
    unfold unvisited_imports in Hle. lia.
  - specialize (IH Hlook).
    destruct (decide (k ∈ visited)) as [Hk|Hk].
    + rewrite !bool_decide_eq_true_2 by set_solver. lia.
    + rewrite (bool_decide_eq_false_2 (k ∈ visited)) by exact Hk.
      rewrite bool_decide_eq_false_2; [lia|].
      intros [Heq%elem_of_singleton|Hin]%elem_of_union; congruence.
Qed.

(** The loop ends: with more passes than names on the stack and in the
    import lists of unvisited modules, it answers.  When it answers
    [False] the stack held no more names, or the name of a module that is
    not available was popped. *)
Lemma is_dependent_loop_total (fuel : nat) (reg : Registry)
    (other_name : string) (visited : gset string) (stack : list string) :
  length stack + unvisited_imports reg visited < fuel →
  ∃ b reg', is_dependent_loop fuel g reg other_name visited stack
            = (Some b, reg').
Proof.
  revert reg visited stack.
  induction fuel as [|fuel IH]; intros reg visited stack Hfuel; [lia|].
  cbn [is_dependent_loop].
  destruct stack as [|mod_name stack]; [eauto|]. cbn [length] in Hfuel.
  destruct (decide (mod_name ∈ visited)) as [Hin|Hnew].
  - rewrite bool_decide_eq_true_2 by exact Hin. apply IH. lia.
  - rewrite bool_decide_eq_false_2 by exact Hnew.
    destruct (String.eqb mod_name other_name); [eauto|].
    unfold get_module.
    destruct (negb (Generator.mem g Generator.available_mods mod_name)); [eauto|].
    destruct (registry_lookup reg mod_name) as [m|] eqn:Hlook.
    + apply IH. rewrite length_app.
      pose proof (unvisited_imports_lookup _ _ _ _ Hlook Hnew). lia.
    + apply IH. cbn [Mod.init Mod.imports app].
      rewrite unvisited_imports_app.
      pose proof (unvisited_imports_visit reg mod_name visited). lia.
Qed.

Lemma is_dependent_total (reg : Registry) (self other : Mod.t) :
  ∃ b reg', is_dependent g reg self other = (Some b, reg').
Proof.
  unfold is_dependent.
  destruct (Mod.imports self) as [|x xs] eqn:Hself;
    [destruct (Mod.imports other) as [|y ys]; [eauto|]|];
    apply is_dependent_loop_total; rewrite unvisited_imports_empty; cbn; lia.
Qed.

Lemma is_dependent_no_imports (reg : Registry) (self other : Mod.t) :
  Mod.imports self = [] →
  ∃ reg', is_dependent g reg self other = (Some false, reg').
Proof.
  unfold is_dependent. intros ->.
  destruct (Mod.imports other); cbn [is_dependent_loop]; eauto.
Qed.

(** [is_circular] always answers. *)
Lemma is_circular_total (reg : Registry) (self other : Mod.t) :
  ∃ b reg', is_circular g reg self other = (Some b, reg').
Proof.
  unfold is_circular.
  destruct (is_dependent_total reg self other) as ([|] & reg1 & ->).
  - apply is_dependent_total.
  - eauto.
Qed.

(** [is_circular] answers [True] only when each module is in the import
    closure of the other. *)
Lemma is_circular_sound (reg reg' : Registry) (self other : Mod.t) :
  is_circular g reg self other = (Some true, reg') →
  import_closure reg (Mod.imports self) (Mod.name other)
  ∧ import_closure reg (Mod.imports other) (Mod.name self).
Proof.
  unfold is_circular.
  destruct (is_dependent_total reg self other) as ([|] & reg1 & Hfirst);
    rewrite Hfirst; [|discriminate].
  intros Hsecond.
  pose proof (is_dependent_registry _ _ _ _ _ Hfirst) as Hleaves.
  apply is_dependent_sound in Hfirst, Hsecond.
  split; [exact Hfirst|].
  apply (import_closure_leaves _ _ _ _ Hleaves). exact Hsecond.
Qed.

(** [is_circular] answers [False] when either module imports nothing. *)
Lemma is_circular_no_imports (reg : Registry) (self other : Mod.t) :
  Mod.imports self = [] ∨ Mod.imports other = [] →
  (is_circular g reg self other).1 = Some false.
Proof.
  unfold is_circular. intros [Hself|Hother].
  - destruct (is_dependent_no_imports reg self other Hself) as [reg' ->].
    reflexivity.
  - destruct (is_dependent_total reg self other) as ([|] & reg1 & ->).
    + destruct (is_dependent_no_imports reg1 other self Hother) as [reg' ->].
      reflexivity.
    + reflexivity.
Qed.

(** Every name is the name of an available module. *)
Definition all_available (names : list string) : Prop :=
  ∀ name, name ∈ names → Generator.mem g Generator.available_mods name = true.

(** Every registered module imports available modules only. *)
Definition imports_available (reg : Registry) : Prop :=
  ∀ name m, registry_lookup reg name = Some m → all_available (Mod.imports m).

Lemma imports_available_leaves (reg reg' : Registry) :
  registers_leaves reg reg' → imports_available reg → imports_available reg'.
Proof.
  intros [_ Hnew] Havail name m Hm.
  destruct (Hnew _ _ Hm) as [Hm'|Hnil].
  - eapply Havail, Hm'.
  - rewrite Hnil. intros x Hx. inversion Hx.
Qed.

(** A set of names that holds the imports of its registered members. *)
Definition closed_under_imports (reg : Registry) (names : gset string) : Prop :=
  ∀ name m x, name ∈ names → registry_lookup reg name = Some m →
              x ∈ Mod.imports m → x ∈ names.

Lemma import_closure_closed (reg : Registry) (names : gset string)
    (start : list string) (name : string) :
  closed_under_imports reg names → (∀ x, x ∈ start → x ∈ names) →
  import_closure reg start name → name ∈ names.
Proof.
  intros Hclosed Hstart Hclosure.
  induction Hclosure as [name Hin|name m name' _ IH Hm Hin].
  - apply Hstart, Hin.
  - eapply Hclosed; eauto.
Qed.

(** When only available modules are imported, the loop answers [False]
    after a search that visited the whole closure of its stack: the names
    visited do not hold the name looked for, and the imports of every
    visited module were visited too. *)
Lemma is_dependent_loop_visits (fuel : nat) (reg reg' : Registry)
    (other_name : string) (visited : gset string) (stack : list string) :
  all_available stack → imports_available reg →
  other_name ∉ visited →
  (∀ name m x, name ∈ visited → registry_lookup reg name = Some m →
               x ∈ Mod.imports m → x ∈ visited ∨ x ∈ stack) →
  is_dependent_loop fuel g reg other_name visited stack = (Some false, reg') →
  ∃ visited' : gset string,
    (other_name ∉ visited')
    ∧ (∀ x, x ∈ visited → x ∈ visited')
    ∧ (∀ x, x ∈ stack → x ∈ visited')
    ∧ closed_under_imports reg visited'.
Proof.
  revert reg visited stack.
  induction fuel as [|fuel IH]; intros reg visited stack Hstack Hreg Hother Hinv;
    cbn [is_dependent_loop]; [discriminate|].
  destruct stack as [|mod_name stack].
  { intros _. exists visited. split; [exact Hother|]. split; [auto|].
    split; [intros x Hx; inversion Hx|].
    intros name m x Hname Hm Hx.
    destruct (Hinv _ _ _ Hname Hm Hx) as [Hin|Hin]; [exact Hin|inversion Hin]. }
  destruct (decide (mod_name ∈ visited)) as [Hseen|Hnew].
  - rewrite bool_decide_eq_true_2 by exact Hseen. intros Hrun.
    destruct (IH reg visited stack) as (visited' & Hother' & Hsub & Hstack' & Hclosed);
      auto.
    + intros x Hx. apply Hstack. apply elem_of_cons. auto.
    + intros name m x Hname Hm Hx.
      destruct (Hinv _ _ _ Hname Hm Hx) as [Hin|[->|Hin]%elem_of_cons]; auto.
    + exists visited'. split; [exact Hother'|]. split; [exact Hsub|].
      split; [|exact Hclosed].
      intros x [->|Hx]%elem_of_cons; auto.
  - rewrite bool_decide_eq_false_2 by exact Hnew.
    destruct (String.eqb_spec mod_name other_name) as [Heq|Hne]; [discriminate|].
    destruct (get_module g reg mod_name) as [[m|] reg1] eqn:Hget.
    + destruct (get_module_leaves _ _ _ _ Hget) as (Hleaves & Hm & _).
      specialize (Hm m eq_refl). intros Hrun.
      destruct (IH reg1 ({[mod_name]} ∪ visited) (Mod.imports m ++ stack))
        as (visited' & Hother' & Hsub & Hstack' & Hclosed); auto.
      * intros x [Hx|Hx]%elem_of_app.
        -- eapply (imports_available_leaves _ _ Hleaves Hreg), Hx. exact Hm.
        -- apply Hstack. apply elem_of_cons. auto.
      * eapply imports_available_leaves; eassumption.
      * intros [Heq%elem_of_singleton|Hin]%elem_of_union; [|contradiction].
        congruence.
      * intros name m' x [->%elem_of_singleton|Hname]%elem_of_union Hm' Hx.
        -- right. apply elem_of_app. left. congruence.
        -- destruct (proj2 Hleaves _ _ Hm') as [Hold|Hnil];
             [|rewrite Hnil in Hx; inversion Hx].
           destruct (Hinv _ _ _ Hname Hold Hx) as [Hin|[->|Hin]%elem_of_cons].
           ++ left. apply elem_of_union. auto.
           ++ left. apply elem_of_union. left. apply elem_of_singleton. reflexivity.
           ++ right. apply elem_of_app. auto.
      * exists visited'. split; [exact Hother'|].
        split; [intros x Hx; apply Hsub, elem_of_union; auto|].
        split.
        -- intros x [->|Hx]%elem_of_cons.
           ++ apply Hsub, elem_of_union. left. apply elem_of_singleton. reflexivity.
           ++ apply Hstack', elem_of_app. auto.
        -- intros name m' x Hname Hm' Hx.
           eapply Hclosed; [exact Hname| |exact Hx]. apply (proj1 Hleaves), Hm'.
    + destruct (get_module_leaves _ _ _ _ Hget) as (_ & _ & Hexternal).
      rewrite Hstack in Hexternal; [|apply elem_of_cons; auto].
      specialize (Hexternal eq_refl). discriminate.
Qed.

(** Among available modules [is_dependent] is the membership test of the
    import closure. *)
Lemma is_dependent_closure (reg : Registry) (self other : Mod.t) :
  all_available (Mod.imports self) → imports_available reg →
  (is_dependent g reg self other).1 = Some true
  ↔ import_closure reg (Mod.imports self) (Mod.name other).
Proof.
  intros Hself Hreg. split.
  - destruct (is_dependent g reg self other) as [r reg'] eqn:Hrun. cbn.
    intros ->. eapply is_dependent_sound, Hrun.
  - intros Hclosure.
    destruct (is_dependent_total reg self other) as ([|] & reg' & Hrun);
      rewrite Hrun; [reflexivity|]. exfalso.
    unfold is_dependent in Hrun.
    assert (Hloop : ∃ fuel,
               is_dependent_loop fuel g reg (Mod.name other) ∅ (Mod.imports self)
               = (Some false, reg')).
    { destruct (Mod.imports self) as [|x xs] eqn:Himports.
      - exists 1. cbn [is_dependent_loop].
        destruct (Mod.imports other); [exact Hrun|].
        cbn [is_dependent_loop] in Hrun. exact Hrun.
      - eexists. exact Hrun. }
    destruct Hloop as [fuel Hloop].
    destruct (is_dependent_loop_visits _ _ _ _ _ _ Hself Hreg
                (not_elem_of_empty _) ltac:(set_solver) Hloop)
      as (visited' & Hother & _ & Hstart & Hclosed).
    apply Hother. eapply import_closure_closed; eauto.
Qed.

(** Among available modules [is_circular] holds exactly when each module is
    in the transitive import closure of the other. *)
Theorem is_circular_closure (reg : Registry) (self other : Mod.t) :
  all_available (Mod.imports self) → all_available (Mod.imports other) →
  imports_available reg →
  (is_circular g reg self other).1 = Some true
  ↔ import_closure reg (Mod.imports self) (Mod.name other)
    ∧ import_closure reg (Mod.imports other) (Mod.name self).
Proof.
  intros Hself Hother Hreg.
  pose proof (is_dependent_closure reg self other Hself Hreg) as Hfirst.
  unfold is_circular.
  destruct (is_dependent g reg self other) as [r reg1] eqn:Hrun.
  pose proof (is_dependent_registry _ _ _ _ _ Hrun) as Hleaves.
  pose proof (is_dependent_closure reg1 other self Hother
                (imports_available_leaves _ _ Hleaves Hreg)) as Hsecond.
  rewrite (import_closure_leaves _ _ _ _ Hleaves) in Hsecond.
  cbn [fst] in Hfirst.
  destruct r as [[|]|].
  - rewrite Hsecond. split; [intros Hback; split; [apply Hfirst; reflexivity|exact Hback]|].
    intros [_ Hback]. exact Hback.
  - cbn [fst]. split; [discriminate|]. intros [Hto _].
    apply Hfirst in Hto. discriminate.
  - cbn [fst]. split; [discriminate|]. intros [Hto _].
    apply Hfirst in Hto. discriminate.
Qed.

(** C2.  [is_dependent] stops with [False] at the first imported name that
    is not an available module: when the first import of [self] is such a
    name, and not the name of [other], [is_circular] answers [False]
    whatever the rest of the import lists holds, so also when each module
    is in the transitive import closure of the other. *)
Theorem is_circular_external_import (reg : Registry) (self other : Mod.t)
    (external : string) (rest : list string) :
  Mod.imports self = external :: rest →
  Generator.mem g Generator.available_mods external = false →
  external ≠ Mod.name other →
  is_circular g reg self other = (Some false, reg).
Proof.
  intros Himports Hexternal Hne.
  unfold is_circular, is_dependent. rewrite Himports.
  cbn [is_dependent_loop].
  rewrite bool_decide_eq_false_2 by set_solver.
  destruct (String.eqb_spec external (Mod.name other)) as [Heq|_]; [contradiction|].
  unfold get_module. rewrite Hexternal. reflexivity.
Qed.

End Dependent.

(** The modules [A] and [B] import each other; [A] first imports [Ext], a
    module of another package. *)
Definition module_a : Mod.t := sample_module "A" ["Ext"; "B"].
Definition module_b : Mod.t := sample_module "B" ["A"].
Definition cyclic_registry : Registry := [("A", module_a); ("B", module_b)].

(** [is_circular_external_import] at [A] and [B]: each is in the import
    closure of the other, and [is_circular] answers [False]. *)
Lemma is_circular_external_import_witness :
  import_closure cyclic_registry (Mod.imports module_a) (Mod.name module_b)
  ∧ import_closure cyclic_registry (Mod.imports module_b) (Mod.name module_a)
  ∧ is_circular (sample_tables ["A"; "B"]) cyclic_registry module_a module_b
    = (Some false, cyclic_registry).
Proof.
  split; [|split].
  - apply closure_start. cbn. set_solver.
  - apply closure_start. cbn. set_solver.
  - apply (is_circular_external_import (sample_tables ["A"; "B"]) cyclic_registry
             module_a module_b "Ext" ["B"]).
    + reflexivity.
    + vm_compute. reflexivity.
    + discriminate.
Defined.

(** With the imports of [A] in the other order the answer is [True]. *)
Example is_circular_import_order :
  let a := sample_module "A" ["B"; "Ext"] in
  (is_circular (sample_tables ["A"; "B"]) [("A", a); ("B", module_b)] a module_b).1
  = Some true.
Proof. vm_compute. reflexivity. Qed.

(** [is_circular_sound] on the cycle [A -> B -> C -> A]. *)
Lemma is_circular_sound_witness :
  let a := sample_module "A" ["B"] in
  let b := sample_module "B" ["C"] in
  let c := sample_module "C" ["A"] in
  let reg := [("A", a); ("B", b); ("C", c)] in
  import_closure reg (Mod.imports a) (Mod.name c)
  ∧ import_closure reg (Mod.imports c) (Mod.name a).
Proof.
  intros a b c reg.
  apply (is_circular_sound (sample_tables ["A"; "B"; "C"]) reg reg a c).
  vm_compute. reflexivity.
Defined.

(** [is_circular_no_imports] when the second module imports nothing. *)
Lemma is_circular_no_imports_witness :
  let a := sample_module "A" ["B"] in
  let b := sample_module "B" [] in
  (is_circular (sample_tables ["A"; "B"]) [("A", a); ("B", b)] a b).1 = Some false.
Proof.
  intros a b.
  apply (is_circular_no_imports (sample_tables ["A"; "B"]) [("A", a); ("B", b)] a b).
  right. reflexivity.
Defined.

(** [is_circular_closure] on the cycle [A -> B -> C -> A]. *)
Lemma is_circular_closure_witness :
  let a := sample_module "A" ["B"] in
  let b := sample_module "B" ["C"] in
  let c := sample_module "C" ["A"] in
  let reg := [("A", a); ("B", b); ("C", c)] in
  (is_circular (sample_tables ["A"; "B"; "C"]) reg a c).1 = Some true
  ↔ import_closure reg (Mod.imports a) (Mod.name c)
    ∧ import_closure reg (Mod.imports c) (Mod.name a).
Proof.
  intros a b c reg.
  assert (Hnames : ∀ names,
             forallb (Generator.mem (sample_tables ["A"; "B"; "C"])
                        Generator.available_mods) names = true →
             all_available (sample_tables ["A"; "B"; "C"]) names).
  { intros names Hall name Hin. rewrite forallb_forall in Hall.
    apply Hall, list_elem_of_In, Hin. }
  apply (is_circular_closure (sample_tables ["A"; "B"; "C"]) reg a c).
  - apply Hnames. vm_compute. reflexivity.
  - apply Hnames. vm_compute. reflexivity.
  - intros name m Hm. apply Hnames. cbn in Hm.
    repeat match type of Hm with
           | (if ?b then _ else _) = _ => destruct b
           end; inversion Hm; subst; vm_compute; reflexivity.
Defined.

(** * Sorting the binders of a module *)

Section SortBinders.
Import Clang.

(** A binder and the binders grouped under it. *)
Definition with_group (b : CursorBinder) : list CursorBinder :=
  b :: grouped_binders b.

Lemma add_to_group_cursors {K : Type} `{EqDecision K} (key : CursorBinder → K)
    (b : CursorBinder) (masters masters' : list CursorBinder) :
  add_to_group key b masters = Some masters' →
  map cursor (flat_map with_group masters')
  ≡ₚ map cursor (flat_map with_group masters) ++ [cursor b].
Proof.
  revert masters'. induction masters as [|master rest IH]; intros masters';
    cbn [add_to_group]; [discriminate|].
  destruct (decide (key master = key b)) as [_|_].
  - intros Heq. inversion Heq; subst. cbn [flat_map]. rewrite !map_app.
    unfold with_group at 1 3.
    cbn [grouped_binders set_grouped_binders cursor map].
    rewrite map_app. cbn [map cursor set_skip].
    cbn [app]. rewrite <- !app_assoc.
    apply Permutation_cons; [reflexivity|]. apply Permutation_app_head.
    apply Permutation_app_comm.
  - destruct (add_to_group key b rest) as [rest'|]; [|discriminate].
    intros Heq. inversion Heq; subst. cbn [flat_map].
    rewrite !map_app, (IH rest' eq_refl).
    rewrite <- app_assoc. reflexivity.
Qed.

Lemma group_steps_cursors {K : Type} `{EqDecision K} (key : CursorBinder → K)
    (binders masters : list CursorBinder) :
  Forall (fun b => grouped_binders b = []) binders →
  map cursor (flat_map with_group (fold_left (group_step key) binders masters))
  ≡ₚ map cursor (flat_map with_group masters) ++ map cursor binders.
Proof.
  intros Hfresh. revert masters.
  induction Hfresh as [|b binders Hb _ IH]; intros masters; cbn [fold_left map].
  - rewrite app_nil_r. reflexivity.
  - rewrite IH. unfold group_step.
    destruct (add_to_group key b masters) as [masters'|] eqn:Hadd.
    + rewrite (add_to_group_cursors _ _ _ _ Hadd), <- app_assoc. reflexivity.
    + rewrite flat_map_app, map_app. cbn [flat_map]. unfold with_group at 2.
      rewrite Hb. cbn. rewrite <- app_assoc. reflexivity.
Qed.

Lemma insert_by_Permutation {A : Type} (key : A → Z * nat) (x : A) (l : list A) :
  insert_by key x l ≡ₚ x :: l.
Proof.
  induction l as [|y l IH]; cbn [insert_by]; [reflexivity|].
  destruct (key_le (key x) (key y)); [reflexivity|].
  rewrite IH. apply perm_swap.
Qed.

Lemma sort_by_Permutation {A : Type} (key : A → Z * nat) (l : list A) :
  sort_by key l ≡ₚ l.
Proof.
  induction l as [|x l IH]; cbn; [reflexivity|].
  unfold sort_by in IH. rewrite insert_by_Permutation, IH. reflexivity.
Qed.

(** The binders [sort_binders] leaves in [sorted_binders], before it sorts
    them. *)
Definition gathered_order (m : Mod.t) : list CursorBinder :=
  Mod.sorted_binders m ++ group_by filename (Mod.enums m)
  ++ group_by spelling_of (Mod.funcs m) ++ Mod.types m.

Lemma sorted_binders_Permutation (g : Generator.t) (m : Mod.t) :
  Mod.sorted_binders (Module_sort_binders g m) ≡ₚ gathered_order m.
Proof.
  unfold Module_sort_binders, gathered_order. cbn [Mod.sorted_binders].
  rewrite <- !app_assoc.
  destruct (Generator.sort_order g !! Mod.name m) as [[|entry entries]|];
    try reflexivity.
  apply sort_by_Permutation.
Qed.

(** [sort_binders] loses no binder and repeats none: the cursors of the
    sorted binders and of the binders grouped under them are those of the
    enums, functions and types of the module. *)
Theorem sort_binders_keeps_all (g : Generator.t) (m : Mod.t) :
  Mod.sorted_binders m = [] →
  Forall (fun b => grouped_binders b = [])
         (Mod.enums m ++ Mod.funcs m ++ Mod.types m) →
  map cursor (flat_map with_group (Mod.sorted_binders (Module_sort_binders g m)))
  ≡ₚ map cursor (Mod.enums m ++ Mod.funcs m ++ Mod.types m).
Proof.
  intros Hempty Hfresh.
  apply Forall_app in Hfresh as [Henums Hfresh].
  apply Forall_app in Hfresh as [Hfuncs Htypes].
  rewrite (sorted_binders_Permutation g m). unfold gathered_order, group_by.
  rewrite Hempty. cbn [app].
  rewrite !flat_map_app, !map_app.
  rewrite (group_steps_cursors filename _ [] Henums).
  rewrite (group_steps_cursors spelling_of _ [] Hfuncs). cbn [flat_map map app].
  do 2 f_equiv.
  clear -Htypes. induction Htypes as [|b types Hb _ IH]; [reflexivity|].
  cbn [flat_map]. unfold with_group at 1. rewrite Hb. cbn. f_equiv. exact IH.
Qed.

(** What a grouping loop makes of the binders [l]: the masters have keys
    of their own, and each is the first binder of [l] with its key, with
    the later binders of that key appended to its group, each marked
    [skip]. *)
Definition grouped {K : Type} `{EqDecision K} (key : CursorBinder → K)
    (l masters : list CursorBinder) : Prop :=
  NoDup (map key masters)
  ∧ (∀ b, b ∈ l → key b ∈ map key masters)
  ∧ ∀ master, master ∈ masters →
      ∃ pre first post,
        l = pre ++ first :: post
        ∧ (key first ∉ map key pre)
        ∧ master
          = set_grouped_binders
              (grouped_binders first
               ++ map (set_skip true) (filter (fun b => key b = key first) post))
              first.

Section Grouping.
Context {K : Type} `{EqDecision K} (key : CursorBinder → K).
Hypothesis key_cursor : ∀ b b', cursor b = cursor b' → key b = key b'.

Lemma add_to_group_None (b : CursorBinder) (masters : list CursorBinder) :
  add_to_group key b masters = None ↔ key b ∉ map key masters.
Proof.
  induction masters as [|master rest IH]; cbn [add_to_group map].
  - split; [intros _ Hin; inversion Hin|reflexivity].
  - destruct (decide (key master = key b)) as [Heq|Hne].
    + split; [discriminate|]. intros Hnot. exfalso. apply Hnot.
      rewrite Heq. apply elem_of_cons. auto.
    + rewrite not_elem_of_cons, <- IH.
      destruct (add_to_group key b rest); cbn; split; try discriminate; auto.
      intros [_ Habs]. discriminate.
Qed.

Lemma add_to_group_Some (b : CursorBinder) (masters masters' : list CursorBinder) :
  add_to_group key b masters = Some masters' →
  ∃ before master after,
    masters = before ++ master :: after
    ∧ key master = key b
    ∧ (key b ∉ map key before)
    ∧ masters'
      = before
        ++ set_grouped_binders (grouped_binders master ++ [set_skip true b]) master
        :: after.
Proof.
  revert masters'. induction masters as [|master rest IH]; intros masters';
    cbn [add_to_group]; [discriminate|].
  destruct (decide (key master = key b)) as [Heq|Hne].
  - intros Hsome. inversion Hsome; subst. exists [], master, rest.
    split; [reflexivity|]. split; [exact Heq|].
    split; [intros Hin; inversion Hin|reflexivity].
  - destruct (add_to_group key b rest) as [rest'|]; [|discriminate].
    intros Hsome. inversion Hsome; subst.
    destruct (IH rest' eq_refl) as (before & m0 & after & -> & Hk & Hnot & ->).
    exists (master :: before), m0, after.
    split; [reflexivity|]. split; [exact Hk|].
    split; [|reflexivity]. cbn [map]. apply not_elem_of_cons. auto.
Qed.

Lemma filter_key_snoc_eq (first b : CursorBinder) (post : list CursorBinder) :
  key b = key first →
  filter (fun x => key x = key first) (post ++ [b])
  = filter (fun x => key x = key first) post ++ [b].
Proof.
  intros Heq. rewrite filter_app. f_equal.
  rewrite filter_cons, decide_True by exact Heq. reflexivity.
Qed.

Lemma filter_key_snoc_ne (first b : CursorBinder) (post : list CursorBinder) :
  key b ≠ key first →
  filter (fun x => key x = key first) (post ++ [b])
  = filter (fun x => key x = key first) post.
Proof.
  intros Hne. rewrite filter_app, filter_cons, decide_False by exact Hne.
  apply app_nil_r.
Qed.

Lemma grouped_step (l masters : list CursorBinder) (b : CursorBinder) :
  grouped key l masters → grouped key (l ++ [b]) (group_step key masters b).
Proof.
  intros (Hnodup & Hkeys & Hmasters). unfold group_step.
  destruct (add_to_group key b masters) as [masters'|] eqn:Hadd.
  - destruct (add_to_group_Some _ _ _ Hadd)
      as (before & m0 & after & -> & Hk & Hnot & ->).
    assert (Hsame : map key (before
                     ++ set_grouped_binders
                          (grouped_binders m0 ++ [set_skip true b]) m0 :: after)
                    = map key (before ++ m0 :: after)).
    { rewrite !map_app. cbn [map]. do 2 f_equal. apply key_cursor. reflexivity. }
    split; [rewrite Hsame; exact Hnodup|]. split.
    + rewrite Hsame. intros x [Hx|Hx%list_elem_of_singleton]%elem_of_app.
      * apply Hkeys, Hx.
      * subst x. rewrite <- Hk, map_app. apply elem_of_app. right.
        apply elem_of_cons. auto.
    + intros master' Hin.
      assert (Hother : ∀ m, m ∈ before ++ m0 :: after → key m ≠ key b →
                 ∃ pre first post,
                   (l ++ [b]) = pre ++ first :: post
                   ∧ (key first ∉ map key pre)
                   ∧ m = set_grouped_binders
                           (grouped_binders first
                            ++ map (set_skip true)
                                 (filter (fun x => key x = key first) post))
                           first).
      { intros m Hm Hne.
        destruct (Hmasters m Hm) as (pre & first & post & -> & Hfirst & ->).
        exists pre, first, (post ++ [b]).
        split; [rewrite <- app_assoc; reflexivity|]. split; [exact Hfirst|].
        rewrite filter_key_snoc_ne; [reflexivity|].
        intros Heq. apply Hne. rewrite Heq. apply key_cursor. reflexivity. }
      rewrite map_app in Hnodup. cbn [map] in Hnodup.
      apply NoDup_app in Hnodup as (_ & Hdisjoint & Hnodup).
      apply NoDup_cons in Hnodup as [Hm0 _].
      apply elem_of_app in Hin as [Hin|[->|Hin]%elem_of_cons].
      * apply Hother; [apply elem_of_app; auto|].
        intros Heq. apply Hnot. rewrite <- Heq. apply list_elem_of_fmap_2, Hin.
      * destruct (Hmasters m0) as (pre & first & post & -> & Hfirst & ->).
        { apply elem_of_app. right. apply elem_of_cons. auto. }
        exists pre, first, (post ++ [b]).
        split; [rewrite <- app_assoc; reflexivity|]. split; [exact Hfirst|].
        rewrite filter_key_snoc_eq, map_app, app_assoc; [reflexivity|].
        rewrite <- Hk. symmetry. apply key_cursor. reflexivity.
      * apply Hother; [apply elem_of_app; right; apply elem_of_cons; auto|].
        intros Heq. apply Hm0. rewrite Hk, <- Heq.
        apply list_elem_of_fmap_2, Hin.
  - apply add_to_group_None in Hadd.
    split.
    { rewrite map_app. apply NoDup_app. split; [exact Hnodup|].
      split; [|apply NoDup_singleton].
      intros k Hk [->|Habs]%elem_of_cons; [contradiction|inversion Habs]. }
    split.
    { intros x [Hx|Hx%list_elem_of_singleton]%elem_of_app; rewrite map_app;
        apply elem_of_app.
      - left. apply Hkeys, Hx.
      - right. subst x. apply elem_of_cons. auto. }
    intros master' [Hin|Hin%list_elem_of_singleton]%elem_of_app.
    + destruct (Hmasters _ Hin) as (pre & first & post & -> & Hfirst & ->).
      exists pre, first, (post ++ [b]).
      split; [rewrite <- app_assoc; reflexivity|]. split; [exact Hfirst|].
      rewrite filter_key_snoc_ne; [reflexivity|].
      intros Heq. apply Hadd. rewrite Heq.
      replace (key first)
        with (key (set_grouped_binders
                     (grouped_binders first
                      ++ map (set_skip true)
                           (filter (fun x => key x = key first) post)) first))
        by (apply key_cursor; reflexivity).
      apply list_elem_of_fmap_2, Hin.
    + subst master'. exists l, b, [].
      split; [reflexivity|]. split.
      * intros Hin. apply Hadd.
        apply list_elem_of_fmap in Hin as (x & -> & Hx). apply Hkeys, Hx.
      * rewrite filter_nil. cbn [map]. rewrite app_nil_r.
        destruct b. reflexivity.
Qed.

Lemma group_by_grouped (l : list CursorBinder) : grouped key l (group_by key l).
Proof.
  unfold group_by. induction l as [|b l IH] using rev_ind.
  - split; [constructor|]. split; intros x Hx; inversion Hx.
  - rewrite fold_left_app. cbn [fold_left]. apply grouped_step, IH.
Qed.

End Grouping.

(** The enums of a file are bound together, and so are the functions of
    a name: the first one gathered is in [sorted_binders], the later ones
    are in its [grouped_binders] in the order gathered, each marked
    [skip]; no two enums of [sorted_binders] come from one file and no two
    functions have one name. *)
Theorem sort_binders_groups (g : Generator.t) (m : Mod.t) :
  let enums := group_by filename (Mod.enums m) in
  let funcs := group_by spelling_of (Mod.funcs m) in
  Mod.sorted_binders (Module_sort_binders g m)
  ≡ₚ Mod.sorted_binders m ++ enums ++ funcs ++ Mod.types m
  ∧ grouped filename (Mod.enums m) enums
  ∧ grouped spelling_of (Mod.funcs m) funcs.
Proof.
  intros enums funcs. split; [apply sorted_binders_Permutation|].
  split; apply group_by_grouped; intros b b' Heq.
  - unfold filename. rewrite Heq. reflexivity.
  - unfold spelling_of. rewrite Heq. reflexivity.
Qed.

Lemma key_le_total (a b : Z * nat) : key_le a b = false → key_le b a = true.
Proof.
  unfold key_le. intros Hab.
  apply orb_false_elim in Hab as [Hlt Heq]. apply Z.ltb_ge in Hlt.
  destruct (Z.eqb_spec a.1 b.1) as [Heq1|Hne].
  - cbn in Heq. apply Nat.leb_gt in Heq. rewrite Heq1, Z.eqb_refl.
    apply orb_true_intro. right. apply Nat.leb_le. lia.
  - apply orb_true_intro. left. apply Z.ltb_lt. lia.
Qed.

Lemma key_le_spec (a b : Z * nat) :
  key_le a b = true ↔ (a.1 < b.1)%Z ∨ (a.1 = b.1 ∧ a.2 ≤ b.2).
Proof.
  unfold key_le.
  rewrite orb_true_iff, andb_true_iff, Z.ltb_lt, Z.eqb_eq, Nat.leb_le.
  reflexivity.
Qed.

Lemma key_le_trans (a b c : Z * nat) :
  key_le a b = true → key_le b c = true → key_le a c = true.
Proof. rewrite !key_le_spec. lia. Qed.

Section Sorting.
Context {A : Type} (key : A → Z * nat).

Lemma insert_by_sorted (x : A) (l : list A) :
  StronglySorted (fun a b => key_le (key a) (key b) = true) l →
  StronglySorted (fun a b => key_le (key a) (key b) = true) (insert_by key x l).
Proof.
  induction 1 as [|y l Hsorted IH Hall]; cbn [insert_by].
  - repeat constructor.
  - destruct (key_le (key x) (key y)) eqn:Hxy.
    + constructor; [constructor; assumption|].
      constructor; [exact Hxy|].
      eapply Forall_impl; [exact Hall|]. intros z Hz.
      eapply key_le_trans; eassumption.
    + constructor; [exact IH|].
      rewrite (insert_by_Permutation key x l).
      constructor; [apply key_le_total, Hxy|exact Hall].
Qed.

Lemma sort_by_sorted (l : list A) :
  StronglySorted (fun a b => key_le (key a) (key b) = true) (sort_by key l).
Proof.
  induction l as [|x l IH]; cbn; [constructor|].
  apply insert_by_sorted, IH.
Qed.

(** Inserting a binder that comes before the binders of its priority keeps
    every priority class in its order. *)
Lemma insert_by_filter (x : A) (l : list A) (p : Z) :
  Forall (fun y => (key y).1 = (key x).1 → (key x).2 ≤ (key y).2) l →
  filter (fun y => (key y).1 = p) (insert_by key x l)
  = filter (fun y => (key y).1 = p) (x :: l).
Proof.
  induction 1 as [|y l Hy _ IH]; cbn [insert_by]; [reflexivity|].
  destruct (key_le (key x) (key y)) eqn:Hxy; [reflexivity|].
  assert (Hne : (key y).1 ≠ (key x).1).
  { intros Heq. specialize (Hy Heq).
    assert (Hle : key_le (key x) (key y) = true)
      by (apply key_le_spec; right; split; [congruence|lia]).
    congruence. }
  rewrite (filter_cons _ y (insert_by key x l)), IH.
  rewrite (filter_cons _ x (y :: l)), (filter_cons _ y l), (filter_cons _ x l).
  destruct (decide ((key x).1 = p)), (decide ((key y).1 = p));
    try reflexivity; congruence.
Qed.

Lemma sort_by_filter (l : list A) (p : Z) :
  StronglySorted (fun x y => (key y).1 = (key x).1 → (key x).2 ≤ (key y).2) l →
  filter (fun y => (key y).1 = p) (sort_by key l)
  = filter (fun y => (key y).1 = p) l.
Proof.
  induction 1 as [|x l _ IH Hall]; [reflexivity|].
  cbn [sort_by fold_right]. fold (sort_by key l).
  rewrite insert_by_filter.
  - rewrite !(filter_cons _ x), IH. reflexivity.
  - rewrite (sort_by_Permutation key l). exact Hall.
Qed.

Lemma index_sorted (l : list A) (k : nat) :
  (∀ i v, l !! i = Some v → (key v).2 = k + i) →
  StronglySorted (fun x y => (key y).1 = (key x).1 → (key x).2 ≤ (key y).2) l.
Proof.
  revert k. induction l as [|x l IH]; intros k Hindex; constructor.
  - apply (IH (S k)). intros i v Hi.
    rewrite (Hindex (S i) v Hi). lia.
  - apply Forall_lookup. intros i y Hi _.
    rewrite (Hindex 0 x eq_refl), (Hindex (S i) y Hi). lia.
Qed.

End Sorting.

Lemma original_order_None (k : nat) (l : list CursorBinder) (v : CursorBinder) :
  hash (cursor v) ∉ map (fun b => hash (cursor b)) l →
  original_order k l v = None.
Proof.
  revert k. induction l as [|b l IH]; intros k Hnot; [reflexivity|].
  cbn [map] in Hnot. apply not_elem_of_cons in Hnot as [Hne Hnot].
  cbn [original_order]. rewrite (IH _ Hnot).
  destruct (Z.eqb_spec (hash (cursor b)) (hash (cursor v))); congruence.
Qed.

(** When no two binders have one cursor, [original_order] is the index. *)
Lemma original_order_lookup (k i : nat) (l : list CursorBinder) (v : CursorBinder) :
  NoDup (map (fun b => hash (cursor b)) l) →
  l !! i = Some v → original_order k l v = Some (k + i).
Proof.
  revert k i. induction l as [|b l IH]; intros k i Hnodup Hi; [discriminate|].
  cbn [map] in Hnodup. apply NoDup_cons in Hnodup as [Hnot Hnodup].
  cbn [original_order]. destruct i as [|i].
  - inversion Hi; subst. rewrite (original_order_None _ _ _ Hnot), Z.eqb_refl.
    f_equal. lia.
  - rewrite (IH (S k) i Hnodup Hi). f_equal. lia.
Qed.

(** The order [sort_binders] leaves the binders in.  Without a [+sort]
    entry for the module it is the order gathered: enums, functions,
    types.  With one, binders of a lower priority come first; and when no
    two binders have one cursor, binders of one priority keep the order
    gathered. *)
Theorem sort_binders_order (g : Generator.t) (m : Mod.t) :
  let sorted := Mod.sorted_binders (Module_sort_binders g m) in
  match Generator.sort_order g !! Mod.name m with
  | Some (entry :: entries) =>
      let priority := sort_priority (entry :: entries) in
      StronglySorted (fun a b => (priority a ≤ priority b)%Z) sorted
      ∧ (NoDup (map (fun b => hash (cursor b)) (gathered_order m)) →
         ∀ p, filter (fun b => priority b = p) sorted
              = filter (fun b => priority b = p) (gathered_order m))
  | _ => sorted = gathered_order m
  end.
Proof.
  unfold Module_sort_binders, gathered_order. cbn [Mod.sorted_binders].
  rewrite <- !app_assoc.
  destruct (Generator.sort_order g !! Mod.name m) as [[|entry entries]|];
    try reflexivity.
  set (unsorted := Mod.sorted_binders m ++ _). split.
  - pose proof (sort_by_sorted (sort_fn (entry :: entries) unsorted) unsorted)
      as Hsorted.
    induction Hsorted as [|x l _ IH Hall]; constructor; [exact IH|].
    eapply Forall_impl; [exact Hall|]. intros y Hy.
    apply key_le_spec in Hy. cbn [sort_fn fst] in Hy. lia.
  - intros Hnodup p.
    apply (sort_by_filter (sort_fn (entry :: entries) unsorted) unsorted p).
    apply (index_sorted _ _ 0). intros i v Hi. unfold sort_fn. cbn [snd].
    rewrite (original_order_lookup 0 i unsorted v Hnodup Hi). reflexivity.
Qed.

End SortBinders.

(** [c] with the hash [h]. *)
Definition with_hash (h : Z) (c : Clang.Cursor) : Clang.Cursor :=
  Clang.mkCursor (Clang.kind c) (Clang.spelling c) (Clang.displayname c)
    (Clang.brief_comment c) (Clang.location_file c) (Clang.access_specifier c)
    (Clang.is_definition c) (Clang.is_abstract_record c)
    (Clang.is_pure_virtual_method c) (Clang.is_const_method c)
    (Clang.is_static_method c) (Clang.is_move_constructor c)
    (Clang.is_anonymous c) (Clang.is_bitfield c) h
    (Clang.type_ c) (Clang.result_type c) (Clang.tokens c) (Clang.ancestors c)
    (Clang.children c) (Clang.definition c) (Clang.specialization c)
    (Clang.type_declaration c) (Clang.canonical_declaration c)
    (Clang.underlying_declaration c).

Definition sample_enum (h : Z) (name file : string) : CursorBinder :=
  CursorBinder_init
    (with_hash h
       (sample_cursor Clang.ENUM_DECL name name file Clang.INVALID
          (sample_type name) Clang.null_type [] in_tu [])).

Definition sample_function (h : Z) (name signature : string) : CursorBinder :=
  CursorBinder_init
    (with_hash h
       (sample_cursor Clang.FUNCTION_DECL name (name +:+ signature) "Foo.hxx"
          Clang.INVALID (sample_type "void ()") (sample_type "void") [] in_tu [])).

Definition sample_record (h : Z) (name : string) : CursorBinder :=
  CursorBinder_init
    (with_hash h (sample_class name (name +:+ ".hxx") [sample_method name "Get"])).

(** A module with two enums of one file and a third of another, a
    function with two overloads, and two classes; the configuration puts
    the classes named [Array] first. *)
Definition sorting_module : Mod.t :=
  Mod.mk "Foo"
    [sample_enum 1 "Foo_A" "Foo_Kinds.hxx"; sample_enum 2 "Foo_B" "Foo_Kinds.hxx";
     sample_enum 3 "Foo_C" "Foo_C.hxx"]
    [sample_function 4 "Make" "(int)"; sample_function 5 "Make" "(double)"]
    [sample_record 6 "Foo_List"; sample_record 7 "Foo_Array"]
    [] [] [] [].

Definition sorting_tables : Generator.t :=
  Generator.with_sort_order {["Foo" := [("Array", 1%Z)]]} Generator.initial.

(** [sort_binders_keeps_all] at [sorting_module]. *)
Lemma sort_binders_keeps_all_witness :
  map Clang.hash
    (map cursor
       (flat_map with_group
          (Mod.sorted_binders (Module_sort_binders sorting_tables sorting_module))))
  ≡ₚ [1; 2; 3; 4; 5; 6; 7]%Z.
Proof.
  rewrite (sort_binders_keeps_all sorting_tables sorting_module).
  - reflexivity.
  - reflexivity.
  - repeat constructor.
Defined.

Example sort_binders_sample :
  let sorted := Mod.sorted_binders (Module_sort_binders sorting_tables sorting_module) in
  map (fun b => (spelling_of b, map spelling_of (grouped_binders b))) sorted
  = [("Foo_Array", []); ("Foo_A", ["Foo_B"]); ("Foo_C", []); ("Make", ["Make"]);
     ("Foo_List", [])]
  ∧ map (fun b => skip <$> grouped_binders b) sorted
    = [[]; [true]; []; [true]; []].
Proof. split; vm_compute; reflexivity. Qed.

(** * Include files and imports *)

Section Includes.
Import Clang.
Context `{Environment}.

Lemma elem_of_add_new (l : list string) (x y : string) :
  y ∈ add_new l x ↔ y ∈ l ∨ y = x.
Proof.
  unfold add_new. destruct (bool_decide_reflect (x ∈ l)) as [Hin|Hnot].
  - split; [auto|]. intros [Hy| ->]; assumption.
  - rewrite elem_of_app, list_elem_of_singleton. reflexivity.
Qed.

Lemma NoDup_add_new (l : list string) (x : string) :
  NoDup l → NoDup (add_new l x).
Proof.
  intros Hnodup. unfold add_new.
  destruct (bool_decide_reflect (x ∈ l)) as [Hin|Hnot]; [exact Hnodup|].
  apply NoDup_app. split; [exact Hnodup|]. split; [|apply NoDup_singleton].
  intros y Hy ->%list_elem_of_singleton. contradiction.
Qed.

Lemma elem_of_fold_add_new (xs l : list string) (y : string) :
  y ∈ fold_left add_new xs l ↔ y ∈ l ∨ y ∈ xs.
Proof.
  revert l. induction xs as [|x xs IH]; intros l; cbn [fold_left].
  - split; [auto|]. intros [Hy|Hy]; [exact Hy|inversion Hy].
  - rewrite IH, elem_of_add_new, elem_of_cons. tauto.
Qed.

Lemma NoDup_fold_add_new (xs l : list string) :
  NoDup l → NoDup (fold_left add_new xs l).
Proof.
  revert l. induction xs as [|x xs IH]; intros l Hnodup; cbn [fold_left];
    [exact Hnodup|].
  apply IH, NoDup_add_new, Hnodup.
Qed.

Lemma fold_add_new_present (xs l : list string) :
  (∀ x, x ∈ xs → x ∈ l) → fold_left add_new xs l = l.
Proof.
  revert l. induction xs as [|x xs IH]; intros l Hall; cbn [fold_left];
    [reflexivity|].
  assert (Hx : add_new l x = l).
  { unfold add_new. rewrite bool_decide_eq_true_2; [reflexivity|].
    apply Hall. apply elem_of_cons. auto. }
  rewrite Hx. apply IH. intros y Hy. apply Hall. apply elem_of_cons. auto.
Qed.

Lemma fold_add_new_map (f : string → string) (xs l : list string) :
  fold_left (fun own inc => add_new own (f inc)) xs l
  = fold_left add_new (map f xs) l.
Proof.
  revert l. induction xs as [|x xs IH]; intros l; cbn [fold_left map];
    [reflexivity|]. apply IH.
Qed.

(** What [build_includes] gathers depends on the cursor alone. *)
Lemma gathered_includes_cursor (g : Generator.t) (b b' : CursorBinder) :
  cursor b = cursor b' → gathered_includes g b = gathered_includes g b'.
Proof.
  intros Heq. unfold gathered_includes, qualified_name, dfs.
  rewrite Heq. reflexivity.
Qed.

Lemma elem_of_fold_referenced (g : Generator.t) (qname : string)
    (items : list CursorBinder) (start : list string) (x : string) :
  x ∈ fold_left (fun includes item =>
                   match referenced_file g qname item with
                   | Some f => add_new includes f
                   | None => includes
                   end) items start
  ↔ x ∈ start ∨ ∃ item, item ∈ items ∧ referenced_file g qname item = Some x.
Proof.
  revert start. induction items as [|item items IH]; intros start;
    cbn [fold_left].
  - split; [auto|]. intros [Hin|(item & Habs & _)]; [exact Hin|inversion Habs].
  - rewrite IH. split.
    + intros [Hin|(it & Hit & Hx)].
      * destruct (referenced_file g qname item) as [f|] eqn:Hfile; [|auto].
        apply elem_of_add_new in Hin as [Hin| ->]; [auto|].
        right. exists item. split; [apply elem_of_cons; auto|exact Hfile].
      * right. exists it. split; [apply elem_of_cons; auto|exact Hx].
    + intros [Hin|(it & [->|Hit]%elem_of_cons & Hx)].
      * left. destruct (referenced_file g qname item); [|exact Hin].
        apply elem_of_add_new. auto.
      * left. rewrite Hx. apply elem_of_add_new. auto.
      * right. eauto.
Qed.

(** The files [build_includes] gathers: the extra headers of the binder,
    and the files of the definitions its type and template references
    refer to. *)
Lemma elem_of_gathered_includes (g : Generator.t) (b : CursorBinder) (x : string) :
  x ∈ gathered_includes g b
  ↔ x ∈ default [] (Generator.lookup_list g Generator.plus_headers (qualified_name b))
    ∨ ∃ item, item ∈ dfs b
              ∧ referenced_file g (qualified_name b) item = Some x.
Proof.
  unfold gathered_includes. rewrite elem_of_fold_referenced, elem_of_fold_add_new.
  split.
  - intros [[Habs|Hin]|Hitem]; [inversion Habs|auto|auto].
  - intros [Hin|Hitem]; auto.
Qed.

(** The includes of a binder after [build_includes], in terms of the
    files gathered. *)
Lemma build_includes_binder_gathered (g : Generator.t) (b : CursorBinder) :
  match filename b with
  | None => CursorBinder_build_includes g b = inl NoneType_is_not_iterable
  | Some f =>
      ∃ b', CursorBinder_build_includes g b = inr b'
            ∧ b' = set_includes (includes b') b
            ∧ (∀ x, x ∈ includes b' ↔
                 x ∈ includes b
                 ∨ ∃ inc, x = replace_extension inc
                          ∧ (inc = f ∨ inc ∈ gathered_includes g b))
            ∧ (NoDup (includes b) → NoDup (includes b'))
            ∧ CursorBinder_build_includes g b' = inr b'
  end.
Proof.
  unfold CursorBinder_build_includes.
  destruct (filename b) as [f|] eqn:Hfile; [|reflexivity].
  eexists. split; [reflexivity|]. cbn [includes set_includes].
  rewrite fold_add_new_map.
  set (own := fold_left add_new _ (includes b)).
  assert (Hown : ∀ x, x ∈ own ↔
             x ∈ includes b
             ∨ ∃ inc, x = replace_extension inc
                      ∧ (inc = f ∨ inc ∈ gathered_includes g b)).
  { intros x. subst own. rewrite elem_of_fold_add_new, list_elem_of_fmap.
    split.
    - intros [Hin|(inc & -> & Hinc)]; [auto|]. right. exists inc.
      split; [reflexivity|]. apply elem_of_add_new in Hinc. tauto.
    - intros [Hin|(inc & -> & Hinc)]; [auto|]. right. exists inc.
      split; [reflexivity|]. apply elem_of_add_new. tauto. }
  split; [reflexivity|]. split; [exact Hown|].
  split; [apply NoDup_fold_add_new|].
  assert (Hfile' : filename (set_includes own b) = Some f) by exact Hfile.
  rewrite Hfile'.
  rewrite (gathered_includes_cursor g (set_includes own b) b eq_refl).
  cbn [includes set_includes]. rewrite fold_add_new_map.
  rewrite fold_add_new_present; [reflexivity|].
  intros x (inc & -> & Hinc)%list_elem_of_fmap. apply Hown. right.
  exists inc. split; [reflexivity|]. apply elem_of_add_new in Hinc. tauto.
Qed.

(** [CursorBinder.build_includes] raises for a binder without a file, and
    for no other.  For a binder with a file it keeps the includes the
    binder has and adds, with [.lxx] and [.gxx] turned into [.hxx], the
    extra headers of the binder, the files its type and template
    references are defined in, and its own file; it repeats no file, and a
    second call adds nothing. *)
Theorem build_includes_binder (g : Generator.t) (b : CursorBinder) :
  match filename b with
  | None => CursorBinder_build_includes g b = inl NoneType_is_not_iterable
  | Some f =>
      ∃ b', CursorBinder_build_includes g b = inr b'
            ∧ b' = set_includes (includes b') b
            ∧ (∀ x, x ∈ includes b' ↔
                 x ∈ includes b
                 ∨ ∃ inc, x = replace_extension inc
                          ∧ (inc = f
                             ∨ inc ∈ default [] (Generator.lookup_list g
                                         Generator.plus_headers (qualified_name b))
                             ∨ ∃ item, item ∈ dfs b
                                       ∧ referenced_file g (qualified_name b) item
                                         = Some inc))
            ∧ (NoDup (includes b) → NoDup (includes b'))
            ∧ CursorBinder_build_includes g b' = inr b'
  end.
Proof.
  pose proof (build_includes_binder_gathered g b) as Hbuilt.
  destruct (filename b) as [f|]; [|exact Hbuilt].
  destruct Hbuilt as (b' & Hb' & Hset & Hown & Hnodup & Hagain).
  exists b'. repeat split; try assumption.
  - intros [Hin|(inc & -> & Hinc)]%Hown; [auto|]. right. exists inc.
    split; [reflexivity|]. rewrite elem_of_gathered_includes in Hinc. exact Hinc.
  - intros [Hin|(inc & -> & Hinc)]; apply Hown; [auto|]. right. exists inc.
    split; [reflexivity|]. rewrite elem_of_gathered_includes. exact Hinc.
Qed.

(** A header that a binder asks for is put in the includes of the module
    unless the module or the configuration excludes it. *)
Definition wanted (g : Generator.t) (minus_headers : list string) (f : string)
  : Prop :=
  (f ∉ minus_headers) ∧ Generator.mem g Generator.excluded_headers f = false.

Section ModuleIncludes.
Variable g : Generator.t.
Variable minus_headers : list string.

Let add_includes (temp incs : list string) : list string :=
  fold_left (fun incs f =>
               if negb (bool_decide (f ∈ incs))
                  && negb (bool_decide (f ∈ minus_headers))
                  && negb (Generator.mem g Generator.excluded_headers f)
               then incs ++ [f] else incs)
            temp incs.

Lemma elem_of_add_includes (temp incs : list string) (x : string) :
  x ∈ add_includes temp incs
  ↔ x ∈ incs ∨ (x ∈ temp ∧ wanted g minus_headers x).
Proof.
  unfold add_includes, wanted. revert incs.
  induction temp as [|f temp IH]; intros incs; cbn [fold_left].
  - split; [auto|]. intros [Hin|[Habs _]]; [exact Hin|inversion Habs].
  - rewrite IH, elem_of_cons.
    destruct (bool_decide_reflect (f ∈ incs)) as [Hf|Hf]; cbn [negb andb].
    { split; [tauto|]. intros [Hin|[[->|Hin] Hw]]; auto. }
    destruct (bool_decide_reflect (f ∈ minus_headers)) as [Hm|Hm]; cbn [negb andb].
    { split; [tauto|]. intros [Hin|[[->|Hin] [Hw1 Hw2]]]; auto. contradiction. }
    destruct (Generator.mem g Generator.excluded_headers f) eqn:He; cbn [negb].
    { split; [tauto|]. intros [Hin|[[->|Hin] [Hw1 Hw2]]]; auto. congruence. }
    rewrite elem_of_app, list_elem_of_singleton. split.
    + intros [[Hin| ->]|Hin]; auto. tauto.
    + intros [Hin|[[->|Hin] Hw]]; auto.
Qed.

Lemma NoDup_add_includes (temp incs : list string) :
  NoDup incs → NoDup (add_includes temp incs).
Proof.
  unfold add_includes. revert incs.
  induction temp as [|f temp IH]; intros incs Hnodup; cbn [fold_left];
    [exact Hnodup|].
  apply IH.
  destruct (bool_decide_reflect (f ∈ incs)) as [Hf|Hf]; cbn [negb andb];
    [exact Hnodup|].
  destruct (negb (bool_decide (f ∈ minus_headers))
            && negb (Generator.mem g Generator.excluded_headers f));
    [|exact Hnodup].
  apply NoDup_app. split; [exact Hnodup|]. split; [|apply NoDup_singleton].
  intros y Hy ->%list_elem_of_singleton. contradiction.
Qed.

(** A binder puts its includes in those of the module, unless it is a
    class template. *)
Definition provides (b : CursorBinder) (x : string) : Prop :=
  is_class_template b = false ∧ x ∈ includes b ∧ wanted g minus_headers x.

Lemma build_includes_one_spec (binder_ binder' : CursorBinder)
    (incs incs' : list string) :
  build_includes_one g minus_headers binder_ incs = inr (binder', incs') →
  CursorBinder_build_includes g binder_ = inr binder'
  ∧ (NoDup incs → NoDup incs')
  ∧ ∀ x, x ∈ incs' ↔ x ∈ incs ∨ provides binder' x.
Proof.
  unfold build_includes_one, provides.
  destruct (CursorBinder_build_includes g binder_) as [e|b1]; [discriminate|].
  destruct (is_class_template b1) eqn:Hkind; intros Heq; inversion Heq; subst.
  - split; [reflexivity|]. split; [auto|]. intros x. split; [auto|].
    intros [Hin|[Habs _]]; [exact Hin|congruence].
  - split; [reflexivity|]. split; [apply NoDup_add_includes|].
    intros x. fold (add_includes (includes binder') incs).
    rewrite elem_of_add_includes. tauto.
Qed.

Lemma build_includes_each_spec (binders binders' : list CursorBinder)
    (incs incs' : list string) :
  build_includes_each g minus_headers binders incs = inr (binders', incs') →
  Forall2 (fun b b' => CursorBinder_build_includes g b = inr b') binders binders'
  ∧ (NoDup incs → NoDup incs')
  ∧ ∀ x, x ∈ incs' ↔ x ∈ incs ∨ ∃ b', b' ∈ binders' ∧ provides b' x.
Proof.
  revert binders' incs incs'.
  induction binders as [|b binders IH]; intros binders' incs incs';
    cbn [build_includes_each].
  - intros Heq. inversion Heq; subst. split; [constructor|]. split; [auto|].
    intros x. split; [auto|].
    intros [Hin|(b' & Habs & _)]; [exact Hin|inversion Habs].
  - destruct (build_includes_one g minus_headers b incs) as [e|[b1 incs1]] eqn:Hone;
      [discriminate|].
    destruct (build_includes_each g minus_headers binders incs1)
      as [e|[rest incs2]] eqn:Hrest; [discriminate|].
    intros Heq. inversion Heq; subst.
    destruct (build_includes_one_spec _ _ _ _ Hone) as (Hb & Hnodup1 & Hin1).
    destruct (IH _ _ _ Hrest) as (Hall & Hnodup2 & Hin2).
    split; [constructor; assumption|]. split; [auto|].
    intros x. rewrite Hin2, Hin1. split.
    + intros [[Hin|Hp]|(b' & Hb' & Hp)]; [auto| |].
      * right. exists b1. split; [apply elem_of_cons; auto|exact Hp].
      * right. exists b'. split; [apply elem_of_cons; auto|exact Hp].
    + intros [Hin|(b' & [->|Hb']%elem_of_cons & Hp)]; [auto|auto|].
      right. eauto.
Qed.

Lemma build_includes_all_spec (all_binders all_binders' : list CursorBinder)
    (incs incs' : list string) :
  build_includes_all g minus_headers all_binders incs = inr (all_binders', incs') →
  map cursor all_binders' = map cursor all_binders
  ∧ (NoDup incs → NoDup incs')
  ∧ ∀ x, x ∈ incs' ↔
         x ∈ incs ∨ ∃ b', b' ∈ flat_map with_group all_binders' ∧ provides b' x.
Proof.
  revert all_binders' incs incs'.
  induction all_binders as [|b binders IH]; intros all_binders' incs incs';
    cbn [build_includes_all].
  - intros Heq. inversion Heq; subst. split; [reflexivity|]. split; [auto|].
    intros x. split; [auto|].
    intros [Hin|(b' & Habs & _)]; [exact Hin|inversion Habs].
  - destruct (build_includes_one g minus_headers b incs) as [e|[b1 incs1]] eqn:Hone;
      [discriminate|].
    destruct (build_includes_each g minus_headers (grouped_binders b) incs1)
      as [e|[group incs2]] eqn:Hgroup; [discriminate|].
    destruct (build_includes_all g minus_headers binders incs2)
      as [e|[rest incs3]] eqn:Hrest; [discriminate|].
    intros Heq. inversion Heq; subst.
    destruct (build_includes_one_spec _ _ _ _ Hone) as (Hb & Hnodup1 & Hin1).
    destruct (build_includes_each_spec _ _ _ _ Hgroup) as (_ & Hnodup2 & Hin2).
    destruct (IH _ _ _ Hrest) as (Hcursors & Hnodup3 & Hin3).
    split.
    { cbn [map cursor set_grouped_binders]. rewrite Hcursors. f_equal.
      unfold CursorBinder_build_includes in Hb.
      destruct (filename b); [|discriminate]. inversion Hb. reflexivity. }
    split; [auto|].
    intros x. rewrite Hin3, Hin2, Hin1. cbn [flat_map].
    unfold with_group at 1. cbn [grouped_binders set_grouped_binders].
    assert (Hsame : provides (set_grouped_binders group b1) x ↔ provides b1 x)
      by reflexivity.
    split.
    + intros [[[Hin|Hp]|(b' & Hb' & Hp)]|(b' & Hb' & Hp)]; [auto| | |].
      * right. exists (set_grouped_binders group b1).
        split; [apply elem_of_cons; auto|]. apply Hsame, Hp.
      * right. exists b'. split; [|exact Hp].
        apply elem_of_cons. right. apply elem_of_app. auto.
      * right. exists b'. split; [|exact Hp].
        apply elem_of_cons. right. apply elem_of_app. auto.
    + intros [Hin|(b' & [->|[Hb'|Hb']%elem_of_app]%elem_of_cons & Hp)];
        [auto| | |].
      * left. left. right. apply Hsame, Hp.
      * left. right. eauto.
      * right. eauto.
Qed.

End ModuleIncludes.

(** [Module.build_includes] puts no header twice in the includes of the
    module.  A header is among them exactly when it is a common include,
    an extra header of the module, or an include of a binder of the module
    -- sorted or grouped, and not a class template -- that neither the
    module nor the configuration excludes.  The binders stay in their
    order. *)
Theorem build_includes_module (g : Generator.t) (m m' : Mod.t) :
  Module_build_includes g m = inr m' →
  let minus_headers :=
    default [] (Generator.lookup_list g Generator.minus_headers (Mod.name m)) in
  let plus_headers :=
    default [] (Generator.lookup_list g Generator.plus_headers (Mod.name m)) in
  NoDup (Mod.includes m')
  ∧ map cursor (Mod.sorted_binders m') = map cursor (Mod.sorted_binders m)
  ∧ map cursor (Mod.templates m') = map cursor (Mod.templates m)
  ∧ ∀ x, x ∈ Mod.includes m' ↔
         x ∈ Generator.sets g Generator.common_includes
         ∨ x ∈ plus_headers
         ∨ ∃ b, b ∈ flat_map with_group (Mod.sorted_binders m' ++ Mod.templates m')
                ∧ is_class_template b = false
                ∧ x ∈ includes b
                ∧ wanted g minus_headers x.
Proof.
  unfold Module_build_includes.
  destruct (build_includes_all _ _ _ _) as [e|[all_binders incs]] eqn:Hall;
    [discriminate|].
  intros Heq. inversion Heq; subst. clear Heq.
  cbn [Mod.includes Mod.sorted_binders Mod.templates Mod.name].
  destruct (build_includes_all_spec _ _ _ _ _ _ Hall) as (Hcursors & Hnodup & Hin).
  rewrite map_app in Hcursors.
  assert (Hlen : length (take (length (Mod.sorted_binders m)) all_binders)
                 = length (Mod.sorted_binders m)).
  { apply (f_equal length) in Hcursors.
    rewrite length_map, length_app, !length_map in Hcursors.
    rewrite length_take. lia. }
  rewrite <- (take_drop (length (Mod.sorted_binders m)) all_binders) in Hcursors.
  rewrite map_app in Hcursors.
  apply app_inj_1 in Hcursors as [Hsorted Htemplates];
    [|rewrite !length_map; exact Hlen].
  split.
  { apply Hnodup, NoDup_fold_add_new. rewrite iter_set_elements.
    apply NoDup_elements. }
  split; [exact Hsorted|]. split; [exact Htemplates|].
  intros x. rewrite Hin, elem_of_fold_add_new, iter_set_elements,
    elem_of_elements, take_drop.
  unfold provides. tauto.
Qed.

(** Whether [build_imports] lets the module [name] import [other]. *)
Definition importable (g : Generator.t) (name other : string) : Prop :=
  get_namespace g other ≠ None
  ∧ other ≠ name
  ∧ other ∉ default [] (Generator.lookup_list g Generator.excluded_imports name).

(** [build_imports] keeps the imports a module has, and adds the module
    of every include of the module that belongs to some package of the
    namespace, is not the module itself and is not an excluded import.  It
    adds no name twice.  So a module whose imports were empty does not
    import itself. *)
Theorem build_imports_module (g : Generator.t) (m : Mod.t) :
  let imports := Mod.imports (Module_build_imports g m) in
  (∀ other, other ∈ imports ↔
     other ∈ Mod.imports m
     ∨ ∃ inc, inc ∈ Mod.includes m ∧ import_of inc = other
              ∧ importable g (Mod.name m) other)
  ∧ (NoDup (Mod.imports m) → NoDup imports)
  ∧ (Mod.name m ∉ Mod.imports m → Mod.name m ∉ imports).
Proof.
  unfold Module_build_imports. cbn [Mod.imports].
  generalize (Mod.imports m) as imports0.
  assert (Hloop : ∀ includes_ imports0,
    (∀ other,
       other ∈ fold_left
                 (fun imports inc_file =>
                    match get_namespace g (import_of inc_file) with
                    | None => imports
                    | Some _ =>
                        if String.eqb (Mod.name m) (import_of inc_file) then imports
                        else
                          match Generator.lookup_list g Generator.excluded_imports
                                  (Mod.name m) with
                          | Some excluded =>
                              if bool_decide (import_of inc_file ∈ excluded)
                              then imports
                              else add_new imports (import_of inc_file)
                          | None => add_new imports (import_of inc_file)
                          end
                    end) includes_ imports0
       ↔ other ∈ imports0
         ∨ ∃ inc, inc ∈ includes_ ∧ import_of inc = other
                  ∧ importable g (Mod.name m) other)
    ∧ (NoDup imports0 →
       NoDup (fold_left
                (fun imports inc_file =>
                   match get_namespace g (import_of inc_file) with
                   | None => imports
                   | Some _ =>
                       if String.eqb (Mod.name m) (import_of inc_file) then imports
                       else
                         match Generator.lookup_list g Generator.excluded_imports
                                 (Mod.name m) with
                         | Some excluded =>
                             if bool_decide (import_of inc_file ∈ excluded)
                             then imports
                             else add_new imports (import_of inc_file)
                         | None => add_new imports (import_of inc_file)
                         end
                   end) includes_ imports0))).
  { induction includes_ as [|inc includes_ IH]; intros imports0; cbn [fold_left].
    - split; [|auto]. intros other. split; [auto|].
      intros [Hin|(inc & Habs & _)]; [exact Hin|inversion Habs].
    - set (step := match get_namespace g (import_of inc) with
                   | None => imports0
                   | Some _ => _
                   end).
      assert (Hstep : (∀ other, other ∈ step ↔
                         other ∈ imports0
                         ∨ (import_of inc = other
                            ∧ importable g (Mod.name m) other))
                      ∧ (NoDup imports0 → NoDup step)).
      { subst step. unfold importable.
        destruct (get_namespace g (import_of inc)) as [ns|] eqn:Hns.
        2:{ split; [|auto]. intros other. split; [auto|].
            intros [Hin|[<- [Habs _]]]; [exact Hin|congruence]. }
        destruct (String.eqb_spec (Mod.name m) (import_of inc)) as [Heq|Hne].
        { split; [|auto]. intros other. split; [auto|].
          intros [Hin|[<- (_ & Habs & _)]]; [exact Hin|congruence]. }
        destruct (Generator.lookup_list g Generator.excluded_imports (Mod.name m))
          as [excluded|] eqn:Hexcl; cbn [default].
        - destruct (bool_decide_reflect (import_of inc ∈ excluded)) as [Hin|Hnot].
          + split; [|auto]. intros other. split; [auto|].
            intros [Ho|[<- (_ & _ & Habs)]]; [exact Ho|contradiction].
          + split; [|apply NoDup_add_new]. intros other.
            rewrite elem_of_add_new. split.
            * intros [Ho| ->]; [auto|]. right. split; [reflexivity|].
              split; [congruence|]. split; [congruence|exact Hnot].
            * intros [Ho|[<- _]]; auto.
        - split; [|apply NoDup_add_new]. intros other.
          rewrite elem_of_add_new. split.
          + intros [Ho| ->]; [auto|]. right. split; [reflexivity|].
            split; [congruence|]. split; [congruence|].
            intros Habs. inversion Habs.
          + intros [Ho|[<- _]]; auto. }
      destruct Hstep as [Hin Hnodup].
      destruct (IH step) as [IHin IHnodup].
      split; [|auto]. intros other. rewrite IHin, Hin. split.
      + intros [[Ho|[Heq Himp]]|(inc' & Hinc' & Heq & Himp)]; [auto| |].
        * right. exists inc. split; [apply elem_of_cons; auto|]. auto.
        * right. exists inc'. split; [apply elem_of_cons; auto|]. auto.
      + intros [Ho|(inc' & [->|Hinc']%elem_of_cons & Heq & Himp)]; [auto|auto|].
        right. eauto. }
  intros imports0. destruct (Hloop (Mod.includes m) imports0) as [Hin Hnodup].
  split; [exact Hin|]. split; [exact Hnodup|].
  intros Hnot [Habs|(inc & _ & _ & _ & Habs & _)]%Hin; contradiction.
Qed.

End Includes.

(** A reference to the type [name], whose definition is [decl]. *)
Definition sample_type_ref (name : string) (decl : Clang.Cursor) : Clang.Cursor :=
  Clang.mkCursor Clang.TYPE_REF name name None (Some "Foo_Shape.hxx")
    Clang.INVALID false false false false false false false false 0
    (record_type name) Clang.null_type [] [] [] (Some decl) None (Some decl)
    (Some decl) None.

(** The class [Foo_Shape] of [Foo_Shape.hxx]; its method [Origin] refers
    to the class [Bar_Point] of [Bar_Point.hxx]. *)
Definition shape_class : Clang.Cursor :=
  sample_class "Foo_Shape" "Foo_Shape.hxx"
    [sample_cursor Clang.CXX_METHOD "Origin" "Origin()" "Foo_Shape.hxx"
       Clang.PUBLIC (sample_type "Bar_Point ()") (record_type "Bar_Point") []
       (member_of "Foo_Shape")
       [sample_type_ref "Bar_Point"
          (sample_class "Bar_Point" "Bar_Point.hxx" [sample_method "Bar_Point" "X"])]].

(** The package [OCCT] has the modules [Foo] and [Bar]; [Ext] is a module
    of another package.  The configuration gives [Foo] the extra header
    [Ext_Thing.hxx]. *)
Definition includes_tables : Generator.t :=
  Generator.append Generator.plus_headers "Foo" "Ext_Thing.hxx"
    (Generator.add Generator.common_includes "pyOCCT_Common.hxx"
       (fold_right (Generator.add Generator.available_incs)
          (Generator.with_namespace [("OCCT", ["Foo"; "Bar"]); ("Other", ["Ext"])]
             (sample_tables ["Foo"; "Bar"]))
          ["Foo_Shape.hxx"; "Bar_Point.hxx"; "Foo_Array.hxx"])).

Definition includes_module : Mod.t :=
  Mod.mk "Foo" [] [] [CursorBinder_init shape_class] [array_template]
    [CursorBinder_init shape_class] [] [].

Definition includes_built : Mod.t :=
  match Module_build_includes includes_tables includes_module with
  | inr m => m
  | inl _ => includes_module
  end.

(** [build_includes_module] at the module [Foo]. *)
Lemma build_includes_module_witness :
  NoDup (Mod.includes includes_built)
  ∧ map cursor (Mod.sorted_binders includes_built)
    = map cursor (Mod.sorted_binders includes_module)
  ∧ map cursor (Mod.templates includes_built)
    = map cursor (Mod.templates includes_module)
  ∧ ∀ x, x ∈ Mod.includes includes_built ↔
         x ∈ Generator.sets includes_tables Generator.common_includes
         ∨ x ∈ default [] (Generator.lookup_list includes_tables
                             Generator.plus_headers (Mod.name includes_module))
         ∨ ∃ b, b ∈ flat_map with_group
                      (Mod.sorted_binders includes_built
                       ++ Mod.templates includes_built)
                ∧ is_class_template b = false
                ∧ x ∈ includes b
                ∧ wanted includes_tables
                    (default [] (Generator.lookup_list includes_tables
                                   Generator.minus_headers
                                   (Mod.name includes_module))) x.
Proof.
  apply (build_includes_module includes_tables includes_module includes_built).
  vm_compute. reflexivity.
Defined.

(** The includes of [Foo], and the imports made from them: the module of
    the other package is imported too, though it is no available module. *)
Example includes_and_imports_sample :
  Mod.includes includes_built
  = ["pyOCCT_Common.hxx"; "Ext_Thing.hxx"; "Bar_Point.hxx"; "Foo_Shape.hxx"]
  ∧ map includes (Mod.templates includes_built) = [["Foo_Array.hxx"]]
  ∧ Mod.imports (Module_build_imports includes_tables includes_built)
    = ["Ext"; "Bar"]
  ∧ Generator.mem includes_tables Generator.available_mods "Ext" = false.
Proof. repeat split; vm_compute; reflexivity. Qed.

(** * The module registry *)

Section Registry.
Variable g : Generator.t.

Lemma registry_lookup_None (reg : Registry) (name : string) :
  registry_lookup reg name = None ↔ name ∉ map fst reg.
Proof.
  induction reg as [|[k m] reg IH]; cbn [registry_lookup map fst].
  - split; [intros _ Hin; inversion Hin|reflexivity].
  - rewrite not_elem_of_cons, <- IH.
    destruct (String.eqb_spec k name) as [->|Hne].
    + split; [discriminate|]. intros [Habs _]. contradiction.
    + split; [auto|]. intros [_ Hnone]. exact Hnone.
Qed.

Lemma registry_lookup_append (reg : Registry) (name other : string) (m : Mod.t) :
  registry_lookup reg name = None →
  registry_lookup (reg ++ [(name, m)]) other
  = if String.eqb name other then Some m else registry_lookup reg other.
Proof.
  intros Hnone. induction reg as [|[k m'] reg IH]; cbn [registry_lookup app].
  - reflexivity.
  - cbn [registry_lookup] in Hnone.
    destruct (String.eqb_spec k name) as [->|Hkn]; [discriminate|].
    destruct (String.eqb_spec k other) as [->|Hko].
    + destruct (String.eqb_spec name other); [congruence|reflexivity].
    + apply IH, Hnone.
Qed.

(** [get_module] answers [None] for a name that is not an available
    module, and leaves the registry as it is.  For an available name it
    answers the module registered under the name, which it registers
    first, empty and at the end, when there is none: the module is found
    under its name afterwards, a second call answers the same module and
    registers nothing, the other names keep their modules, and no name is
    registered twice. *)
Theorem get_module_registers (reg : Registry) (name : string) :
  if Generator.mem g Generator.available_mods name then
    ∃ m reg',
      get_module g reg name = (Some m, reg')
      ∧ registry_lookup reg' name = Some m
      ∧ get_module g reg' name = (Some m, reg')
      ∧ (∀ other, other ≠ name →
           registry_lookup reg' other = registry_lookup reg other)
      ∧ match registry_lookup reg name with
        | Some registered => m = registered ∧ reg' = reg
        | None => m = Mod.init name ∧ reg' = reg ++ [(name, m)]
        end
      ∧ (NoDup (map fst reg) → NoDup (map fst reg'))
  else get_module g reg name = (None, reg).
Proof.
  unfold get_module.
  destruct (Generator.mem g Generator.available_mods name); cbn [negb];
    [|reflexivity].
  destruct (registry_lookup reg name) as [m|] eqn:Hlook.
  - exists m, reg. rewrite Hlook. repeat split; auto.
  - exists (Mod.init name), (reg ++ [(name, Mod.init name)]).
    rewrite (registry_lookup_append _ _ _ _ Hlook), String.eqb_refl.
    repeat split; auto.
    + intros other Hne. rewrite (registry_lookup_append _ _ _ _ Hlook).
      destruct (String.eqb_spec name other); [congruence|reflexivity].
    + intros Hnodup. rewrite map_app. apply NoDup_app.
      split; [exact Hnodup|]. split; [|apply NoDup_singleton].
      intros k Hk ->%list_elem_of_singleton.
      apply registry_lookup_None in Hlook. contradiction.
Qed.

End Registry.

(** * What the traversal gathers *)

Section Gathering.
Import Clang.
Variable g : Generator.t.
Variable to_bind : list CursorKind.
Variable available_macros : gmap string MacroForHandle.

(** A binder that the traversal may put in the module [name]: it is a
    declaration of a kind to bind, in a header of the module that is
    available and not excluded, is no [Handle_] definition, and is not
    skipped. *)
Definition gatherable (name : string) (b : CursorBinder) : Prop :=
  module_name b = name
  ∧ Generator.mem g Generator.available_mods name = true
  ∧ kind_of b ∈ to_bind
  ∧ (∃ inc, filename b = Some inc
            ∧ Generator.mem g Generator.available_incs inc = true
            ∧ Generator.mem g Generator.excluded_headers inc = false)
  ∧ Str.startswith (spelling_of b) "Handle_" = false
  ∧ Generator.mem g Generator.skipped (qualified_name b) = false.

(** A module that holds, list by list, binders of the kind of the list
    that the traversal may put in it. *)
Definition well_gathered (name : string) (m : Mod.t) : Prop :=
  Forall (fun b => gatherable name b ∧ is_enum b = true) (Mod.enums m)
  ∧ Forall (fun b => gatherable name b ∧ is_function b = true
                     ∧ Str.startswith (spelling_of b) "operator" = false)
           (Mod.funcs m)
  ∧ Forall (fun b => gatherable name b
                     ∧ (is_class b = true ∨ is_typedef b = true))
           (Mod.types m)
  ∧ Forall (fun b => gatherable name b ∧ is_class_template b = true)
           (Mod.templates m).

Definition registry_gathered (reg : Registry) : Prop :=
  Forall (fun entry => well_gathered entry.1 entry.2) reg.

Lemma gatherable_cursor (name : string) (b b' : CursorBinder) :
  cursor b = cursor b' → gatherable name b → gatherable name b'.
Proof.
  unfold gatherable, module_name, filename, kind_of, spelling_of, qualified_name.
  intros ->. auto.
Qed.

Lemma well_gathered_init (name : string) : well_gathered name (Mod.init name).
Proof. repeat split; constructor. Qed.

Lemma get_module_gathered (reg reg' : Registry) (name : string) (r : option Mod.t) :
  registry_gathered reg → get_module g reg name = (r, reg') →
  registry_gathered reg'.
Proof.
  unfold get_module, registry_gathered. intros Hreg.
  destruct (negb _); [intros Heq; inversion Heq; subst; exact Hreg|].
  destruct (registry_lookup reg name); intros Heq; inversion Heq; subst.
  - exact Hreg.
  - apply Forall_app. split; [exact Hreg|].
    constructor; [apply well_gathered_init|constructor].
Qed.

Lemma registry_update_gathered (reg : Registry) (name : string) (f : Mod.t → Mod.t) :
  registry_gathered reg →
  (∀ m, well_gathered name m → well_gathered name (f m)) →
  registry_gathered (registry_update reg name f).
Proof.
  unfold registry_gathered. intros Hreg Hf.
  induction Hreg as [|[k m] reg Hm Hrest IH]; cbn [registry_update]; [constructor|].
  destruct (String.eqb_spec k name) as [->|Hne].
  - constructor; [apply Hf, Hm|exact Hrest].
  - constructor; [exact Hm|exact IH].
Qed.

Lemma accept_gathered (binder : CursorBinder) (reg reg' : Registry)
    (mod_name qname : string) :
  registry_gathered reg →
  accept g to_bind binder reg = (Some (mod_name, qname), reg') →
  registry_gathered reg'
  ∧ gatherable mod_name binder
  ∧ (is_function binder = true →
     Str.startswith (spelling_of binder) "operator" = false).
Proof.
  unfold accept. intros Hreg.
  destruct (bool_decide_reflect (kind_of binder ∈ to_bind)) as [Hkind|_];
    cbn [negb]; [|discriminate].
  destruct (Str.startswith (spelling_of binder) "Handle_") eqn:Hhandle;
    [discriminate|].
  destruct (is_function binder && Str.startswith (spelling_of binder) "operator")
    eqn:Hop; [discriminate|].
  destruct (filename binder) as [inc|] eqn:Hfile; [|discriminate].
  destruct (Generator.mem g Generator.excluded_headers inc) eqn:Hexcl;
    cbn [orb]; [discriminate|].
  destruct (Generator.mem g Generator.available_incs inc) eqn:Hinc;
    cbn [negb]; [|discriminate].
  destruct (Generator.mem g Generator.available_mods (module_name binder))
    eqn:Hmod; cbn [negb]; [|discriminate].
  destruct (get_module g reg (module_name binder)) as [[m|] reg1] eqn:Hget;
    [|discriminate].
  destruct (Generator.mem g Generator.skipped (qualified_name binder)) eqn:Hskip;
    [discriminate|].
  destruct (negb (Str.truthy _)); [discriminate|].
  intros Heq. inversion Heq; subst.
  split; [eapply get_module_gathered; eassumption|].
  split.
  - repeat split; auto. eauto.
  - intros Hfun. rewrite Hfun in Hop. exact Hop.
Qed.

Lemma accept_rejected_gathered (binder : CursorBinder) (reg reg' : Registry) :
  registry_gathered reg →
  accept g to_bind binder reg = (None, reg') →
  registry_gathered reg'.
Proof.
  unfold accept. intros Hreg.
  repeat match goal with
         | |- (if ?b then _ else _) = _ → _ => destruct b
         | |- match filename ?b with _ => _ end = _ → _ => destruct (filename b)
         | |- (None, _) = _ → _ => intros Heq; inversion Heq; subst; exact Hreg
         end.
  destruct (get_module g reg (module_name binder)) as [[m|] reg1] eqn:Hget.
  - repeat match goal with
           | |- (if ?b then _ else _) = _ → _ => destruct b
           | |- (None, _) = _ → _ =>
               intros Heq; inversion Heq; subst;
               eapply get_module_gathered; eassumption
           | |- (Some _, _) = _ → _ => discriminate
           end.
  - intros Heq. inversion Heq; subst. eapply get_module_gathered; eassumption.
Qed.

Lemma add_to_module_gathered (mod_name qname : string) (binder : CursorBinder)
    (st : Traversal) :
  registry_gathered (t_mods st) →
  gatherable mod_name binder →
  (is_function binder = true →
   Str.startswith (spelling_of binder) "operator" = false) →
  registry_gathered (t_mods (add_to_module available_macros mod_name qname binder st)).
Proof.
  intros Hreg Hok Hop. unfold add_to_module.
  destruct (is_enum binder) eqn:Henum; cbn [t_mods].
  { apply registry_update_gathered; [exact Hreg|].
    intros m (He & Hf & Ht & Hc). repeat split; auto.
    cbn [Mod.enums append_enum]. apply Forall_app. split; [exact He|].
    constructor; [auto|constructor]. }
  destruct (is_function binder) eqn:Hfun; cbn [t_mods].
  { apply registry_update_gathered; [exact Hreg|].
    intros m (He & Hf & Ht & Hc). repeat split; auto.
    cbn [Mod.funcs append_func]. apply Forall_app. split; [exact Hf|].
    constructor; [auto|constructor]. }
  destruct (is_class binder) eqn:Hclass; cbn [t_mods].
  { apply registry_update_gathered; [exact Hreg|].
    intros m (He & Hf & Ht & Hc). repeat split; auto.
    cbn [Mod.types append_type]. apply Forall_app. split; [exact Ht|].
    constructor; [|constructor].
    destruct (available_macros !! qname); (split; [|left; exact Hclass]).
    - eapply gatherable_cursor; [|exact Hok]. reflexivity.
    - exact Hok. }
  destruct (is_typedef binder) eqn:Htypedef.
  { destruct (canonical_types st !! _); cbn [t_mods];
      (apply registry_update_gathered; [exact Hreg|]);
      intros m (He & Hf & Ht & Hc); repeat split; auto;
      cbn [Mod.types append_type]; (apply Forall_app; split; [exact Ht|]);
      (constructor; [|constructor]); (split; [|right; exact Htypedef]).
    - eapply gatherable_cursor; [|exact Hok]. reflexivity.
    - exact Hok. }
  destruct (is_class_template binder) eqn:Htemplate; cbn [t_mods]; [|exact Hreg].
  apply registry_update_gathered; [exact Hreg|].
  intros m (He & Hf & Ht & Hc). repeat split; auto.
  cbn [Mod.templates append_template]. apply Forall_app. split; [exact Hc|].
  constructor; [auto|constructor].
Qed.

Lemma traverse_binder_gathered (c : Cursor) :
  ∀ st, registry_gathered (t_mods st) →
        registry_gathered (t_mods (traverse_binder g to_bind available_macros c st)).
Proof.
  induction c as [c IH] using Cursor_children_ind. intros st Hreg.
  destruct c as [k sp dn bc lf acc isdef isabs ispure isconst isstat ismove
                 isanon isbit h ty rty toks anc ch def spec tdecl cdecl udecl].
  cbn [traverse_binder]. cbn [children] in IH.
  destruct (negb _ && _ && _); [exact Hreg|].
  destruct (is_namespace _).
  - destruct (_ || _); [exact Hreg|].
    revert st Hreg. induction IH as [|child ch Hchild _ IHch]; intros st Hreg;
      [exact Hreg|].
    apply IHch, Hchild, Hreg.
  - destruct (accept g to_bind _ (t_mods st)) as [[[mod_name qname]|] reg] eqn:Hacc.
    + destruct (accept_gathered _ _ _ _ _ Hreg Hacc) as (Hreg' & Hok & Hop).
      apply add_to_module_gathered; assumption.
    + cbn [t_mods]. eapply accept_rejected_gathered; eassumption.
Qed.

(** The traversal puts a declaration in the module named after the
    prefix of its header file, and only a declaration of a kind to bind
    from a header that is available and not excluded, whose spelling does
    not start with [Handle_] and that is not skipped; enums, functions --
    no operators --, classes and typedefs, and class templates are kept in
    the list of their kind. *)
Theorem traverse_gathers (tu : Cursor) (reg : Registry) :
  registry_gathered reg →
  registry_gathered (t_mods (traverse g to_bind available_macros tu reg)).
Proof.
  unfold traverse. intros Hreg.
  assert (Hstart : registry_gathered (t_mods (mkTraversal reg ∅))) by exact Hreg.
  revert Hstart. generalize (mkTraversal reg ∅) as st.
  induction (children tu) as [|c cs IH]; intros st Hst; [exact Hst|].
  cbn [fold_left]. apply IH, traverse_binder_gathered, Hst.
Qed.

End Gathering.

(** [traverse_gathers] at the translation unit of a class and two
    typedefs, from an empty registry. *)
Lemma traverse_gathers_witness :
  registry_gathered alias_tables all_kinds
    (t_mods (traverse alias_tables all_kinds ∅
               (translation_unit [class_x; typedef_1; typedef_2]) [])).
Proof.
  apply (traverse_gathers alias_tables all_kinds ∅
           (translation_unit [class_x; typedef_1; typedef_2]) []).
  constructor.
Defined.

(** * Patching the generated text *)

Section Patch.
Context `{Environment}.

Lemma patch_lines_length (find replace : string) (src : list string) :
  length (patch_lines find replace src) = length src.
Proof. unfold patch_lines. apply length_map. Qed.

Lemma patch_lines_lookup (find replace : string) (src : list string) (i : nat)
    (line : string) :
  src !! i = Some line → Str.contains find line = false →
  patch_lines find replace src !! i = Some line.
Proof.
  intros Hi Hfind. unfold patch_lines.
  rewrite list_lookup_fmap, Hi. cbn. rewrite Hfind. reflexivity.
Qed.

(** The texts a patch looks for: the first element of every entry. *)
Definition patch_finds (pairs : list (list string)) : list string :=
  flat_map (fun entry => match entry with find :: _ => [find] | [] => [] end) pairs.

Lemma apply_patches_ok (pairs : list (list string)) (src : list string) :
  Forall (fun entry => length entry = 2) pairs →
  ∃ src', apply_patches pairs src = inr src'
          ∧ length src' = length src
          ∧ ∀ i line, src !! i = Some line →
              Forall (fun find => Str.contains find line = false) (patch_finds pairs) →
              src' !! i = Some line.
Proof.
  intros Hpairs. revert src.
  induction Hpairs as [|entry pairs Hentry _ IH]; intros src.
  - exists src. repeat split; auto.
  - destruct entry as [|find [|replace [|extra entry]]]; try discriminate.
    cbn [apply_patches].
    destruct (IH (patch_lines find replace src)) as (src' & Heq & Hlen & Hkeep).
    exists src'. split; [exact Heq|].
    split; [rewrite Hlen; apply patch_lines_length|].
    intros i line Hi Hfinds. cbn [patch_finds flat_map app] in Hfinds.
    apply Forall_cons in Hfinds as [Hfind Hfinds].
    apply Hkeep; [|exact Hfinds]. apply patch_lines_lookup; assumption.
Qed.

Lemma apply_patches_error (pairs : list (list string)) (src : list string) :
  ¬ Forall (fun entry => length entry = 2) pairs →
  ∃ got, apply_patches pairs src = inl (ValueError_unpack 2 got) ∧ got ≠ 2.
Proof.
  revert src. induction pairs as [|entry pairs IH]; intros src Hnot.
  - exfalso. apply Hnot. constructor.
  - destruct (decide (length entry = 2)) as [Hlen|Hlen].
    + destruct entry as [|find [|replace [|extra entry]]]; try discriminate.
      cbn [apply_patches]. apply IH. intros Hall. apply Hnot.
      constructor; assumption.
    + exists (length entry). split; [|exact Hlen].
      destruct entry as [|find [|replace [|extra entry]]]; try reflexivity.
      contradiction.
Qed.

(** [patch_src] changes nothing but the lines: the tables and the disk
    are as before.  Without patches for the file the lines are returned
    as they are.  With patches that are all pairs it returns as many lines
    as it was given, and a line that holds none of the texts looked for is
    returned as it is.  With an entry that is not a pair -- a patch given
    without an arrow -- it raises. *)
Theorem patch_src_lines (filename : string) (src : list string) (s : Run) :
  match Generator.patches (tables s) !! filename with
  | None => patch_src filename src s = (s, inr src)
  | Some pairs =>
      (Forall (fun entry => length entry = 2) pairs →
       ∃ src', patch_src filename src s = (s, inr src')
               ∧ length src' = length src
               ∧ ∀ i line, src !! i = Some line →
                   Forall (fun find => Str.contains find line = false)
                          (patch_finds pairs) →
                   src' !! i = Some line)
      ∧ (¬ Forall (fun entry => length entry = 2) pairs →
         ∃ got, patch_src filename src s = (s, inl (ValueError_unpack 2 got))
                ∧ got ≠ 2)
  end.
Proof.
  unfold patch_src, mbind, M_bind, bind, get_tables.
  destruct (Generator.patches (tables s) !! filename) as [pairs|]; [|reflexivity].
  split.
  - intros Hpairs.
    destruct (apply_patches_ok pairs src Hpairs) as (src' & -> & Hlen & Hkeep).
    exists src'. auto.
  - intros Hnot.
    destruct (apply_patches_error pairs src Hnot) as (got & -> & Hgot).
    exists got. auto.
Qed.

End Patch.

(** A [+patch] line without an arrow is loaded without an error; the
    error comes when the file is patched. *)
Example patch_without_arrow :
  let run := process_config "linux" Generator.initial ["+patch Foo: no arrow here"] in
  run.2 = None
  ∧ Generator.patches run.1 !! "Foo" = Some [["no arrow here"]]
  ∧ (patch_src "Foo" ["line" +:+ Str.nl] (mkRun run.1 empty_disk)).2
    = inl (ValueError_unpack 2 1).
Proof. repeat split; vm_compute; reflexivity. Qed.

(** * What binding writes *)

Section BindFiles.
Import Clang.
Context `{Environment}.

Lemma bind_run {A B} (m : M A) (k : A → M B) (s : Run) :
  (m ≫= k) s = match m s with
               | (s', inl e) => (s', inl e)
               | (s', inr a) => k a s'
               end.
Proof. reflexivity. Qed.

(** Binding an enum, a function, a class or a typedef makes text, or
    raises, and touches neither the tables nor the disk. *)
Lemma CursorBinder_bind_pure (binder : CursorBinder) (path : string) (s : Run) :
  is_class_template binder = false →
  ∃ r, CursorBinder_bind binder path s = (s, r).
Proof.
  intros Hkind. unfold CursorBinder_bind, mbind, M_bind, bind, get_tables.
  rewrite Hkind.
  destruct (is_enum binder); [eexists; reflexivity|].
  destruct (is_function binder); [eexists; reflexivity|].
  destruct (is_class binder); [eexists; reflexivity|].
  destruct (is_typedef binder); eexists; reflexivity.
Qed.

Lemma for_each_bind_pure (binders : list CursorBinder) (path : string) (s : Run) :
  Forall (fun b => is_class_template b = false) binders →
  ∃ r, for_each (fun binder => CursorBinder_bind binder path) binders s = (s, r).
Proof.
  induction 1 as [|b binders Hb _ IH]; cbn [for_each].
  - eexists. reflexivity.
  - destruct (CursorBinder_bind_pure b path s Hb) as [[e|r] Hr];
      unfold mbind, M_bind, bind; rewrite Hr; [eexists; reflexivity|].
    destruct IH as [[e|bound] Hbound]; rewrite Hbound; eexists; reflexivity.
Qed.

(** Whether [patch_src] raises depends on the patches alone. *)
Lemma patch_src_outcome (filename : string) (src : list string) (s : Run) :
  (∃ src', patch_src filename src s = (s, inr src')
           ∧ ∀ src2, ∃ src2', patch_src filename src2 s = (s, inr src2'))
  ∨ ∃ e, patch_src filename src s = (s, inl e).
Proof.
  unfold patch_src, mbind, M_bind, bind, get_tables.
  destruct (Generator.patches (tables s) !! filename) as [pairs|].
  2:{ left. eexists. split; [reflexivity|]. intros src2. eexists. reflexivity. }
  assert (Hpairs : (∀ src0, ∃ src', apply_patches pairs src0 = inr src')
                   ∨ ∀ src0, ∃ e, apply_patches pairs src0 = inl e).
  { clear. induction pairs as [|entry pairs IH].
    - left. intros src0. eexists. reflexivity.
    - destruct entry as [|find [|replace [|extra entry]]];
        try (right; intros src0; eexists; reflexivity).
      destruct IH as [IH|IH]; [left|right]; intros src0; cbn [apply_patches];
        apply IH. }
  destruct Hpairs as [Hok|Herr].
  - left. destruct (Hok src) as [src' ->]. eexists. split; [reflexivity|].
    intros src2. destruct (Hok src2) as [src2' ->]. eexists. reflexivity.
  - right. destruct (Herr src) as [e ->]. eexists. reflexivity.
Qed.

(** The files of a module. *)
Definition module_file (path name : string) : string :=
  Str.join "/" [path; name +:+ ".cxx"].
Definition module_split_file (path name : string) : string :=
  Str.join "/" [path; name +:+ "_2.cxx"].

(** [Module.bind], for a module whose sorted binders hold no class
    template, leaves the tables as they are.  When it raises -- a binder
    does, or a patch of the module is not a pair -- it has written
    nothing.  Otherwise it has
    handed one text to [overwrite_if_changed] for the file of the module
    and, when the module is split, a second one for its second file, and
    has touched no other file. *)
Theorem Module_bind_files (m : Mod.t) (path : string) (s : Run) :
  Forall (fun b => is_class_template b = false) (Mod.sorted_binders m) →
  let run := Module_bind m path s in
  tables run.1 = tables s
  ∧ match run.2 with
    | inl _ => disk run.1 = disk s
    | inr _ =>
        ∃ text,
          let written_ := overwrite_if_changed (module_file path (Mod.name m))
                            text (disk s) in
          if Generator.mem (tables s) Generator.split (Mod.name m)
          then ∃ text2, disk run.1
                        = overwrite_if_changed
                            (module_split_file path (Mod.name m)) text2 written_
          else disk run.1 = written_
    end.
Proof.
  intros Hkinds run. subst run. unfold Module_bind. cbv zeta.
  destruct (for_each_bind_pure _ path s Hkinds) as [[e|bound] Hbound].
  { rewrite bind_run. cbn [get_tables]. rewrite bind_run, Hbound.
    split; reflexivity. }
  rewrite bind_run. cbn [get_tables].
  rewrite bind_run, Hbound.
  rewrite bind_run. cbn [get_tables].
  rewrite bind_run.
  fold (module_file path (Mod.name m)). fold (module_split_file path (Mod.name m)).
  match goal with
  | |- context [patch_src (Mod.name m) ?src s] =>
      destruct (patch_src_outcome (Mod.name m) src s)
        as [(lines & Hlines & Hagain)|[e He]];
      [rewrite Hlines|rewrite He; split; reflexivity]
  end.
  rewrite bind_run. cbn [write_file].
  destruct (Generator.mem (tables s) Generator.split (Mod.name m)) eqn:Hsplit.
  - rewrite bind_run.
    match goal with
    | |- context [patch_src (Mod.name m) ?src2 ?s1] =>
        assert (Hsecond : ∃ lines2, patch_src (Mod.name m) src2 s1
                                    = (s1, inr lines2))
    end.
    { destruct (Hagain (flat_map src
                          (drop (length (map fst bound) `div` 2) (map fst bound))))
        as [lines2 Hlines2].
      exists lines2. revert Hlines2.
      unfold patch_src. rewrite !bind_run. cbn [get_tables tables].
      destruct (Generator.patches (tables s) !! Mod.name m) as [pairs|].
      - destruct (apply_patches pairs _); [discriminate|].
        intros Heq. inversion Heq. reflexivity.
      - intros Heq. inversion Heq. reflexivity. }
    destruct Hsecond as [lines2 ->]. cbn [write_file fst snd tables disk].
    split; [reflexivity|]. eexists. eexists. reflexivity.
  - cbn [ret fst snd tables disk]. split; [reflexivity|]. eexists. reflexivity.
Qed.

(** The templates that are available stay available. *)
Definition templates_kept (s s' : Run) : Prop :=
  ∀ name, Generator.mem (tables s) Generator.available_templates name = true →
          Generator.mem (tables s') Generator.available_templates name = true.

Lemma templates_kept_refl (s : Run) : templates_kept s s.
Proof. intros name Hname. exact Hname. Qed.

Lemma templates_kept_trans (s1 s2 s3 : Run) :
  templates_kept s1 s2 → templates_kept s2 s3 → templates_kept s1 s3.
Proof. intros H12 H23 name Hname. apply H23, H12, Hname. Qed.

Lemma templates_kept_write (path data : string) (s : Run) :
  templates_kept s (mkRun (tables s) (overwrite_if_changed path data (disk s))).
Proof. intros name Hname. exact Hname. Qed.

Lemma mem_add_template (name other : string) (g : Generator.t) :
  Generator.mem (Generator.add Generator.available_templates name g)
    Generator.available_templates other
  = bool_decide (other = name) || Generator.mem g Generator.available_templates other.
Proof.
  unfold Generator.mem, Generator.add. cbn [Generator.sets].
  rewrite decide_True by reflexivity.
  rewrite <- bool_decide_or. apply bool_decide_ext. set_solver.
Qed.

Lemma templates_kept_add (name : string) (s : Run) :
  templates_kept s
    (mkRun (Generator.add Generator.available_templates name (tables s)) (disk s)).
Proof.
  intros other Hother. cbn [tables]. rewrite mem_add_template, Hother.
  apply orb_true_r.
Qed.

Lemma bind_class_template_available (binder binder' : CursorBinder)
    (path : string) (s s' : Run) :
  bind_class_template binder path s = (s', inr binder') →
  Generator.mem (tables s') Generator.available_templates
    ("bind_" +:+ python_name binder) = true.
Proof.
  unfold bind_class_template. intros Hrun.
  apply bind_inv in Hrun as [(e & _ & Habs)|(s1 & g & Hget & Hrun)]; [discriminate|].
  inversion Hget; subst. cbv zeta in Hrun.
  apply bind_inv in Hrun as [(e & _ & Habs)|(s2 & [] & Hadd & Hrun)]; [discriminate|].
  inversion Hadd; subst.
  apply bind_inv in Hrun as [(e & _ & Habs)|(s3 & g' & Hget' & Hrun)]; [discriminate|].
  inversion Hget'; subst.
  apply bind_inv in Hrun as [(e & _ & Habs)|(s3' & generated & Hgen & Hrun)];
    [discriminate|].
  inversion Hgen; subst.
  apply bind_inv in Hrun as [(e & _ & Habs)|(s4 & lines & Hpatch & Hrun)]; [discriminate|].
  apply bind_inv in Hrun as [(e & _ & Habs)|(s5 & [] & Hwrite & Hrun)]; [discriminate|].
  inversion Hrun; subst. inversion Hwrite; subst. cbn [tables].
  match type of Hpatch with
  | patch_src ?f ?src ?s0 = _ =>
      destruct (patch_src_outcome f src s0) as [(l & Hl & _)|[e He]]
  end.
  - rewrite Hl in Hpatch. inversion Hpatch; subst. cbn [tables].
    rewrite mem_add_template, bool_decide_eq_true_2 by reflexivity. reflexivity.
  - rewrite He in Hpatch. discriminate.
Qed.

(** After [Generator.bind_templates] every class template of every module
    is an available template under its bind name, and the templates that
    were available still are: a typedef bound afterwards finds the header
    of its template. *)
Theorem bind_templates_available (reg : Registry) (path : string) (s s' : Run)
    (m : Mod.t) (binder : CursorBinder) :
  Generator_bind_templates reg path s = (s', inr tt) →
  m ∈ modules reg → binder ∈ Mod.templates m →
  is_class_template binder = true →
  Generator.mem (tables s') Generator.available_templates
    ("bind_" +:+ python_name binder) = true
  ∧ templates_kept s s'.
Proof.
  intros Hrun Hm Hbinder Hkind.
  assert (Hbind : ∀ b, respects templates_kept (CursorBinder_bind b path)).
  { intros b. apply respects_CursorBinder_bind.
    - exact templates_kept_refl.
    - exact templates_kept_trans.
    - exact templates_kept_write.
    - exact templates_kept_add. }
  assert (Hmod : ∀ m0, respects templates_kept (Module_bind_templates m0 path)).
  { intros m0. apply respects_Module_bind_templates.
    - exact templates_kept_refl.
    - exact templates_kept_trans.
    - exact templates_kept_write.
    - exact templates_kept_add. }
  unfold Generator_bind_templates in Hrun.
  apply then_unit_inv in Hrun as [units Hrun].
  pose proof (respects_for_each templates_kept templates_kept_refl
                templates_kept_trans _ (modules reg) Hmod _ _ _ Hrun) as Hall.
  split; [|exact Hall].
  destruct (for_each_passes templates_kept templates_kept_refl templates_kept_trans
              _ _ _ _ _ Hmod Hrun m Hm) as (s1 & s2 & [] & _ & Hmrun & Hend).
  unfold Module_bind_templates in Hmrun.
  apply then_unit_inv in Hmrun as [bound Hmrun].
  destruct (for_each_passes templates_kept templates_kept_refl templates_kept_trans
              _ _ _ _ _ Hbind Hmrun binder Hbinder)
    as (t1 & t2 & r & _ & Hbrun & Hend').
  apply Hend, Hend'.
  unfold CursorBinder_bind in Hbrun.
  apply bind_inv in Hbrun as [(e & _ & Habs)|(t1' & g & Hget & Hbrun)]; [discriminate|].
  inversion Hget; subst.
  unfold is_class_template in Hkind. apply bool_decide_eq_true in Hkind.
  unfold is_enum, is_function, is_class, is_typedef, is_class_template in Hbrun.
  rewrite Hkind in Hbrun.
  replace (bool_decide (CLASS_TEMPLATE = ENUM_DECL)) with false in Hbrun
    by reflexivity.
  replace (bool_decide (CLASS_TEMPLATE = FUNCTION_DECL)) with false in Hbrun
    by reflexivity.
  replace (bool_decide (CLASS_TEMPLATE ∈ [CLASS_DECL; STRUCT_DECL])) with false
    in Hbrun by reflexivity.
  replace (bool_decide (CLASS_TEMPLATE = TYPEDEF_DECL)) with false in Hbrun
    by reflexivity.
  replace (bool_decide (CLASS_TEMPLATE = CLASS_TEMPLATE)) with true in Hbrun
    by reflexivity.
  apply bind_inv in Hbrun as [(e & _ & Habs)|(t3 & b' & Hb' & Hret)]; [discriminate|].
  inversion Hret; subst.
  eapply bind_class_template_available, Hb'.
Qed.

End BindFiles.

(** [Module_bind_files] at the module [Foo] with its class [Foo_Shape]. *)
Lemma Module_bind_files_witness :
  let s := mkRun includes_tables empty_disk in
  let run := Module_bind includes_module "out" s in
  tables run.1 = tables s
  ∧ match run.2 with
    | inl _ => disk run.1 = disk s
    | inr _ =>
        ∃ text,
          let written_ := overwrite_if_changed (module_file "out" "Foo") text
                            (disk s) in
          if Generator.mem (tables s) Generator.split "Foo"
          then ∃ text2, disk run.1
                        = overwrite_if_changed (module_split_file "out" "Foo")
                            text2 written_
          else disk run.1 = written_
    end.
Proof.
  apply (Module_bind_files includes_module "out" (mkRun includes_tables empty_disk)).
  constructor; [reflexivity|constructor].
Defined.

(** [bind_templates_available] at the module [Foo] and its class
    template [Foo_Array]. *)
Lemma bind_templates_available_witness :
  let reg := [("Foo", excluded_module)] in
  let after := (Generator_bind_templates reg "out" excluded_run).1 in
  Generator.mem (tables after) Generator.available_templates "bind_Foo_Array" = true
  ∧ templates_kept excluded_run after.
Proof.
  intros reg after.
  apply (bind_templates_available reg "out" excluded_run after excluded_module
           array_template).
  - subst after.
    rewrite (surjective_pairing (Generator_bind_templates reg "out" excluded_run))
      at 1.
    f_equal; vm_compute; reflexivity.
  - apply list_elem_of_singleton. reflexivity.
  - apply list_elem_of_singleton. reflexivity.
  - vm_compute. reflexivity.
Defined.

(** * What [check_circular] reports *)

Section CircularLog.
Variable g : Generator.t.

Lemma is_circular_registry (reg reg' : Registry) (self other : Mod.t)
    (r : option bool) :
  is_circular g reg self other = (r, reg') → registers_leaves reg reg'.
Proof.
  unfold is_circular.
  destruct (is_dependent g reg self other) as [[[|]|] reg1] eqn:Hfirst.
  - intros Hsecond. eapply registers_leaves_trans.
    + eapply is_dependent_registry, Hfirst.
    + eapply is_dependent_registry, Hsecond.
  - intros Heq. inversion Heq; subst. eapply is_dependent_registry, Hfirst.
  - intros Heq. inversion Heq; subst. eapply is_dependent_registry, Hfirst.
Qed.

Lemma is_circular_true (reg reg' : Registry) (self other : Mod.t) :
  is_circular g reg self other = (Some true, reg') →
  import_closure reg (Mod.imports self) (Mod.name other)
  ∧ import_closure reg (Mod.imports other) (Mod.name self).
Proof.
  unfold is_circular.
  destruct (is_dependent g reg self other) as [[[|]|] reg1] eqn:Hfirst;
    [|discriminate|discriminate].
  intros Hsecond.
  pose proof (is_dependent_registry _ _ _ _ _ _ Hfirst) as Hleaves.
  apply is_dependent_sound in Hfirst, Hsecond.
  split; [exact Hfirst|].
  apply (import_closure_leaves _ _ _ _ Hleaves). exact Hsecond.
Qed.

(** The line [check_circular] writes for a pair of modules. *)
Definition circular_line (mod1 mod2 : Mod.t) : string :=
  Str.tab +:+ "Found circular import: " +:+ Mod.name mod1 +:+ " <--> "
  +:+ Mod.name mod2 +:+ Str.nl.

(** A pair of modules that import each other, through any number of
    registered modules. *)
Definition mutual_imports (reg : Registry) (mod1 mod2 : Mod.t) : Prop :=
  import_closure reg (Mod.imports mod1) (Mod.name mod2)
  ∧ import_closure reg (Mod.imports mod2) (Mod.name mod1).

Lemma check_circular_loop (reg : Registry) (pairs : list (Mod.t * Mod.t))
    (log : list string) (reg0 : Registry) (line : string) :
  registers_leaves reg reg0 →
  line ∈ (fold_left
            (fun '(log, reg) '(mod1, mod2) =>
               match is_circular g reg mod1 mod2 with
               | (Some true, reg) =>
                   (log ++ [Str.tab +:+ "Found circular import: " +:+ Mod.name mod1
                            +:+ " <--> " +:+ Mod.name mod2 +:+ Str.nl], reg)
               | (_, reg) => (log, reg)
               end) pairs (log, reg0)).1 →
  line ∈ log
  ∨ ∃ mod1 mod2, (mod1, mod2) ∈ pairs ∧ line = circular_line mod1 mod2
                 ∧ mutual_imports reg mod1 mod2.
Proof.
  revert log reg0. induction pairs as [|[mod1 mod2] pairs IH];
    intros log reg0 Hleaves; cbn [fold_left]; [auto|].
  destruct (is_circular g reg0 mod1 mod2) as [r reg1] eqn:Hcirc.
  pose proof (is_circular_registry _ _ _ _ _ Hcirc) as Hstep.
  assert (Hleaves1 : registers_leaves reg reg1)
    by (eapply registers_leaves_trans; eassumption).
  assert (Hrest : ∀ log1,
             line ∈ (fold_left
                       (fun '(log, reg) '(mod1, mod2) =>
                          match is_circular g reg mod1 mod2 with
                          | (Some true, reg) =>
                              (log ++ [Str.tab +:+ "Found circular import: "
                                       +:+ Mod.name mod1 +:+ " <--> "
                                       +:+ Mod.name mod2 +:+ Str.nl], reg)
                          | (_, reg) => (log, reg)
                          end) pairs (log1, reg1)).1 →
             line ∈ log1
             ∨ ∃ m1 m2, (m1, m2) ∈ (mod1, mod2) :: pairs
                        ∧ line = circular_line m1 m2 ∧ mutual_imports reg m1 m2).
  { intros log1 Hin. destruct (IH log1 reg1 Hleaves1 Hin)
      as [Hlog|(m1 & m2 & Hpair & Hline & Hmutual)]; [auto|].
    right. exists m1, m2. split; [apply elem_of_cons; auto|]. auto. }
  destruct r as [[|]|]; intros Hin; apply Hrest in Hin; try exact Hin.
  destruct Hin as [[Hlog|Hnew%list_elem_of_singleton]%elem_of_app|Hlater];
    [auto| |auto].
  right. exists mod1, mod2. split; [apply elem_of_cons; auto|].
  split; [exact Hnew|].
  destruct (is_circular_true _ _ _ _ Hcirc) as [Hto Hback].
  split; apply (import_closure_leaves _ _ _ _ Hleaves); assumption.
Qed.

(** Every line [check_circular] writes names two modules of the registry
    that it tested, the first registered before the second, and that
    import each other. *)
Theorem check_circular_reports (reg : Registry) (line : string) :
  line ∈ (check_circular g reg).1 →
  ∃ mod1 mod2,
    (mod1, mod2) ∈ circular_pairs (modules reg)
    ∧ line = circular_line mod1 mod2
    ∧ mutual_imports reg mod1 mod2.
Proof.
  unfold check_circular. intros Hin.
  apply (check_circular_loop reg _ [] reg line (registers_leaves_refl reg)) in Hin
    as [Habs|Hpair]; [inversion Habs|exact Hpair].
Qed.

End CircularLog.

(** [check_circular_reports] at a registry of three modules, the first
    two importing each other. *)
Lemma check_circular_reports_witness :
  let a := sample_module "A" ["B"] in
  let b := sample_module "B" ["A"] in
  let c := sample_module "C" [] in
  let reg := [("A", a); ("B", b); ("C", c)] in
  (check_circular (sample_tables ["A"; "B"; "C"]) reg).1 = [circular_line a b]
  ∧ ∃ mod1 mod2,
      (mod1, mod2) ∈ circular_pairs (modules reg)
      ∧ circular_line a b = circular_line mod1 mod2
      ∧ mutual_imports reg mod1 mod2.
Proof.
  intros a b c reg.
  assert (Hlog : (check_circular (sample_tables ["A"; "B"; "C"]) reg).1
                 = [circular_line a b]) by (vm_compute; reflexivity).
  split; [exact Hlog|].
  apply (check_circular_reports (sample_tables ["A"; "B"; "C"]) reg).
  rewrite Hlog. apply list_elem_of_singleton. reflexivity.
Defined.

(** * The include lines of a module file *)

Section IncludeLines.
Import Clang.
Context `{Environment}.

(** The line [Module.bind] writes for a header. *)
Definition include_line (inc : string) : string :=
  "#include <" +:+ inc +:+ ">" +:+ Str.nl.

Lemma append_inj_l (p s1 s2 : string) : p +:+ s1 = p +:+ s2 → s1 = s2.
Proof.
  induction p as [|c p IH]; [auto|].
  change (String c (p +:+ s1) = String c (p +:+ s2) → s1 = s2).
  intros Heq. inversion Heq. auto.
Qed.

Lemma append_inj_r (s1 s2 : string) (c : ascii) :
  s1 +:+ String c "" = s2 +:+ String c "" → s1 = s2.
Proof.
  revert s2. induction s1 as [|a s1 IH]; intros [|b s2].
  - reflexivity.
  - change (String c "" = String b (s2 +:+ String c "") → "" = String b s2).
    intros Heq. inversion Heq. destruct s2; discriminate.
  - change (String a (s1 +:+ String c "") = String c "" → String a s1 = "").
    intros Heq. inversion Heq. destruct s1; discriminate.
  - change (String a (s1 +:+ String c "") = String b (s2 +:+ String c "")
            → String a s1 = String b s2).
    intros Heq. inversion Heq. f_equal. auto.
Qed.

Lemma include_line_inj (inc1 inc2 : string) :
  include_line inc1 = include_line inc2 → inc1 = inc2.
Proof.
  unfold include_line. intros Heq.
  apply append_inj_l in Heq. unfold Str.nl in Heq.
  change (">" +:+ String (ascii_of_nat 10) "")
    with (String ">" "" +:+ String (ascii_of_nat 10) "") in Heq.
  rewrite <- !append_assoc in Heq.
  apply append_inj_r in Heq. apply append_inj_r in Heq. exact Heq.
Qed.

Lemma include_lines_headers (used incs : list string) :
  ∃ headers,
    include_lines used incs = map include_line headers
    ∧ sublist headers incs
    ∧ NoDup headers
    ∧ ∀ inc, inc ∈ headers ↔ inc ∈ incs ∧ inc ∉ used.
Proof.
  revert used. induction incs as [|inc incs IH]; intros used;
    cbn [include_lines].
  - exists []. split; [reflexivity|]. split; [constructor|].
    split; [constructor|]. intros inc. split.
    + intros Habs. inversion Habs.
    + intros [Habs _]. inversion Habs.
  - destruct (bool_decide_reflect (inc ∈ used)) as [Hused|Hnew].
    + destruct (IH used) as (headers & Heq & Hsub & Hnodup & Hin).
      exists headers. split; [exact Heq|]. split; [constructor; exact Hsub|].
      split; [exact Hnodup|]. intros x. rewrite Hin, elem_of_cons. split.
      * intros [Hx Hnot]. auto.
      * intros [[->|Hx] Hnot]; [contradiction|auto].
    + destruct (IH (inc :: used)) as (headers & Heq & Hsub & Hnodup & Hin).
      exists (inc :: headers). split; [cbn [map]; rewrite Heq; reflexivity|].
      split; [constructor; exact Hsub|]. split.
      * apply NoDup_cons. split; [|exact Hnodup].
        intros [_ Habs]%Hin. apply Habs. apply elem_of_cons. auto.
      * intros x. rewrite !elem_of_cons, Hin, not_elem_of_cons. split.
        -- intros [->|[Hx [Hne Hnot]]]; auto.
        -- intros [[->|Hx] Hnot]; [auto|].
           destruct (decide (x = inc)) as [->|Hne]; auto.
Qed.

(** The lines depend on the headers already used only through which
    headers these are. *)
Lemma include_lines_ext (used used' incs : list string) :
  (∀ x, x ∈ used ↔ x ∈ used') →
  include_lines used incs = include_lines used' incs.
Proof.
  revert used used'. induction incs as [|inc incs IH]; intros used used' Hsame;
    cbn [include_lines]; [reflexivity|].
  rewrite (bool_decide_ext (inc ∈ used) (inc ∈ used')) by apply Hsame.
  destruct (bool_decide (inc ∈ used')); [apply IH, Hsame|].
  f_equal. apply IH. intros x. rewrite !elem_of_cons, Hsame. reflexivity.
Qed.

(** The lines of a list of headers start with the lines of its first
    part. *)
Lemma include_lines_app (used pre post : list string) :
  include_lines used (pre ++ post)
  = include_lines used pre ++ include_lines (reverse pre ++ used) post.
Proof.
  revert used. induction pre as [|inc pre IH]; intros used; [reflexivity|].
  cbn [app include_lines].
  destruct (bool_decide_reflect (inc ∈ used)) as [Hused|Hnew].
  - rewrite IH. f_equal. apply include_lines_ext. intros x.
    rewrite !elem_of_app, !elem_of_reverse, elem_of_cons.
    split; [tauto|]. intros [[->|Hx]|Hx]; auto.
  - cbn [app]. f_equal. rewrite IH. f_equal. apply include_lines_ext. intros x.
    rewrite !elem_of_app, !elem_of_reverse, !elem_of_cons. tauto.
Qed.

Lemma elem_of_include_lines (used incs : list string) (inc : string) :
  include_line inc ∈ include_lines used incs ↔ inc ∈ incs ∧ inc ∉ used.
Proof.
  destruct (include_lines_headers used incs) as (headers & -> & _ & _ & Hin).
  rewrite list_elem_of_fmap, <- Hin. split.
  - intros (x & Hx%include_line_inj & Hxin). subst x. exact Hxin.
  - intros Hinc. exists inc. auto.
Qed.

(** The header [a] comes in [incs] before the header [b] comes: the line
    of [a] is in [lines] before that of [b]. *)
Definition line_before (lines : list string) (a b : string) : Prop :=
  ∃ l1 l2 l3,
    lines = l1 ++ [include_line a] ++ l2 ++ [include_line b] ++ l3.

Lemma include_lines_order (incs pre post : list string) (a b : string) :
  incs = pre ++ a :: post → a ∉ pre → b ∉ pre → b ≠ a → b ∈ post →
  line_before (include_lines [] incs) a b.
Proof.
  intros -> Ha Hb Hne Hpost. rewrite include_lines_app. cbn [include_lines].
  rewrite app_nil_r, bool_decide_eq_false_2 by (rewrite elem_of_reverse; exact Ha).
  assert (Hin : include_line b ∈ include_lines (a :: reverse pre) post).
  { apply elem_of_include_lines. split; [exact Hpost|].
    rewrite not_elem_of_cons, elem_of_reverse. auto. }
  apply list_elem_of_split in Hin as (l2 & l3 & Hsplit).
  exists (include_lines [] pre), l2, l3. rewrite Hsplit. reflexivity.
Qed.

(** The include lines of a module file.  When [Module.bind] ends without
    raising, for a module whose sorted binders hold no class template,
    the text it hands to [overwrite_if_changed] for the file of the module
    starts with the banner and one include line for every header of the
    module and every extra header its binders ask for: no line twice, and
    the line of a header that comes first before another header comes
    first is written before the line of that other header. *)
Theorem include_lines_once (m : Mod.t) (path : string) (s s' : Run) :
  Forall (fun b => is_class_template b = false) (Mod.sorted_binders m) →
  Module_bind m path s = (s', inr tt) →
  ∃ bound rest,
    for_each (fun binder => CursorBinder_bind binder path) (Mod.sorted_binders m) s
    = (s, inr bound)
    ∧ let incs := Mod.includes m ++ flat_map snd bound in
      let lines := include_lines [] incs in
      let text := Str.join "" ([SRC_PREFIX] ++ lines ++ [Str.nl] ++ rest) in
      let first_written :=
        overwrite_if_changed (module_file path (Mod.name m)) text (disk s) in
      (if Generator.mem (tables s) Generator.split (Mod.name m)
       then ∃ text2, disk s'
                     = overwrite_if_changed (module_split_file path (Mod.name m))
                         text2 first_written
       else disk s' = first_written)
      ∧ NoDup lines
      ∧ (∀ inc, include_line inc ∈ lines ↔ inc ∈ incs)
      ∧ (∀ line, line ∈ lines → ∃ inc, line = include_line inc)
      ∧ ∀ pre post a b,
          incs = pre ++ a :: post → a ∉ pre → b ∉ pre → b ≠ a → b ∈ post →
          line_before lines a b.
Proof.
  intros Hkinds Hrun. unfold Module_bind in Hrun. cbv zeta in Hrun.
  destruct (for_each_bind_pure _ path s Hkinds) as [[e|bound] Hbound].
  { rewrite bind_run in Hrun. cbn [get_tables] in Hrun.
    rewrite bind_run, Hbound in Hrun. discriminate. }
  exists bound.
  rewrite bind_run in Hrun. cbn [get_tables] in Hrun.
  rewrite bind_run, Hbound in Hrun.
  rewrite bind_run in Hrun. cbn [get_tables] in Hrun.
  rewrite bind_run in Hrun.
  fold (module_file path (Mod.name m)) in Hrun.
  fold (module_split_file path (Mod.name m)) in Hrun.
  match type of Hrun with
  | context [patch_src (Mod.name m) ?src s] =>
      destruct (patch_src_outcome (Mod.name m) src s)
        as [(lines & Hlines & Hagain)|[e He]];
      [rewrite Hlines in Hrun|rewrite He in Hrun; discriminate]
  end.
  rewrite bind_run in Hrun.
  match type of Hrun with
  | context [write_file (module_file path (Mod.name m))
               (Str.join "" ([SRC_PREFIX] ++ _ ++ [Str.nl] ++ ?rest))] =>
      exists rest
  end.
  cbn [write_file] in Hrun.
  split; [exact Hbound|]. cbv zeta.
  split.
  { destruct (Generator.mem (tables s) Generator.split (Mod.name m)) eqn:Hsplit.
    - rewrite bind_run in Hrun.
      match type of Hrun with
      | context [patch_src (Mod.name m) ?src2 ?s1] =>
          assert (Hsecond : ∃ lines2, patch_src (Mod.name m) src2 s1
                                      = (s1, inr lines2))
      end.
      { destruct (Hagain (flat_map src
                            (drop (length (map fst bound) `div` 2) (map fst bound))))
          as [lines2 Hlines2].
        exists lines2. revert Hlines2.
        unfold patch_src. rewrite !bind_run. cbn [get_tables tables].
        destruct (Generator.patches (tables s) !! Mod.name m) as [pairs|].
        - destruct (apply_patches pairs _); [discriminate|].
          intros Heq. inversion Heq. reflexivity.
        - intros Heq. inversion Heq. reflexivity. }
      destruct Hsecond as [lines2 Hsecond]. rewrite Hsecond in Hrun.
      cbn [write_file fst snd tables disk] in Hrun.
      inversion Hrun. cbn [disk]. eexists. reflexivity.
    - cbn [ret] in Hrun. inversion Hrun. cbn [disk]. reflexivity. }
  destruct (include_lines_headers [] (Mod.includes m ++ flat_map snd bound))
    as (headers & Heq & _ & Hnodup & Hin).
  split.
  { rewrite Heq. apply NoDup_fmap_2; [|exact Hnodup].
    intros x y. apply include_line_inj. }
  split.
  { intros inc. rewrite elem_of_include_lines. split; [tauto|].
    intros Hinc. split; [exact Hinc|]. intros Habs. inversion Habs. }
  split.
  { intros line. rewrite Heq. intros (inc & -> & _)%list_elem_of_fmap. eauto. }
  intros pre post a b. apply include_lines_order.
Qed.

End IncludeLines.

(** [include_lines_once] at the module [Foo] with its class [Foo_Shape]. *)
Lemma include_lines_once_witness :
  let s := mkRun includes_tables empty_disk in
  let s' := (Module_bind includes_built "out" s).1 in
  ∃ bound rest,
    for_each (fun binder => CursorBinder_bind binder "out")
      (Mod.sorted_binders includes_built) s
    = (s, inr bound)
    ∧ let incs := Mod.includes includes_built ++ flat_map snd bound in
      let lines := include_lines [] incs in
      let text := Str.join "" ([SRC_PREFIX] ++ lines ++ [Str.nl] ++ rest) in
      let first_written :=
        overwrite_if_changed (module_file "out" (Mod.name includes_built)) text
          (disk s) in
      (if Generator.mem (tables s) Generator.split (Mod.name includes_built)
       then ∃ text2, disk s'
                     = overwrite_if_changed
                         (module_split_file "out" (Mod.name includes_built))
                         text2 first_written
       else disk s' = first_written)
      ∧ NoDup lines
      ∧ (∀ inc, include_line inc ∈ lines ↔ inc ∈ incs)
      ∧ (∀ line, line ∈ lines → ∃ inc, line = include_line inc)
      ∧ ∀ pre post a b,
          incs = pre ++ a :: post → a ∉ pre → b ∉ pre → b ≠ a → b ∈ post →
          line_before lines a b.
Proof.
  intros s s'.
  apply (include_lines_once includes_built "out" s s').
  - constructor; [reflexivity|constructor].
  - subst s'.
    rewrite (surjective_pairing (Module_bind includes_built "out" s)) at 1.
    f_equal; vm_compute; reflexivity.
Defined.

(** The module file of [Foo]: its include lines, each header once, in the
    order in which the headers come first. *)
Example include_lines_sample :
  include_lines [] ["A.hxx"; "B.hxx"; "A.hxx"; "C.hxx"; "B.hxx"]
  = ["#include <A.hxx>" +:+ Str.nl; "#include <B.hxx>" +:+ Str.nl;
     "#include <C.hxx>" +:+ Str.nl].
Proof. vm_compute. reflexivity. Qed.

(** * The headers and modules of [gen_includes] *)

Section GenIncludes.
Context `{Environment}.

(** In the order of [str.lower]: every element is below the next. *)
Definition sorted_lower (l : list string) : Prop :=
  Sorted (fun a b => String.leb (lower a) (lower b) = true) l.

Lemma insert_lower_Permutation (x : string) (l : list string) :
  insert_lower x l ≡ₚ x :: l.
Proof.
  induction l as [|y l IH]; cbn [insert_lower]; [reflexivity|].
  destruct (String.leb (lower x) (lower y)); [reflexivity|].
  rewrite IH. apply perm_swap.
Qed.

Lemma sort_lower_Permutation (l : list string) : sort_lower l ≡ₚ l.
Proof.
  induction l as [|x l IH]; cbn; [reflexivity|].
  unfold sort_lower in IH. rewrite insert_lower_Permutation, IH. reflexivity.
Qed.

Lemma insert_lower_sorted (x : string) (l : list string) :
  sorted_lower l → sorted_lower (insert_lower x l).
Proof.
  unfold sorted_lower.
  induction 1 as [|y l Hsorted IH Hhd]; cbn [insert_lower].
  - repeat constructor.
  - destruct (String.leb (lower x) (lower y)) eqn:Hxy.
    + constructor; [constructor; assumption|]. constructor. exact Hxy.
    + constructor; [exact IH|].
      destruct l as [|z l]; cbn [insert_lower].
      * constructor.
        destruct (String.leb_total (lower x) (lower y)); congruence.
      * destruct (String.leb (lower x) (lower z)).
        -- constructor.
           destruct (String.leb_total (lower x) (lower y)); congruence.
        -- constructor. inversion Hhd. assumption.
Qed.

Lemma sort_lower_sorted (l : list string) : sorted_lower (sort_lower l).
Proof.
  induction l as [|x l IH]; cbn; [constructor|].
  apply insert_lower_sorted, IH.
Qed.

(** A stable sort: the names of one lower-case form keep their order. *)
Lemma insert_lower_stable (x : string) (l : list string) (k : string) :
  filter (fun y => lower y = k) (insert_lower x l)
  = filter (fun y => lower y = k) (x :: l).
Proof.
  induction l as [|y l IH]; cbn [insert_lower]; [reflexivity|].
  destruct (String.leb (lower x) (lower y)) eqn:Hxy; [reflexivity|].
  assert (Hne : lower x ≠ lower y).
  { intros Heq. rewrite Heq in Hxy.
    destruct (String.leb_total (lower y) (lower y)); congruence. }
  rewrite (filter_cons _ y (insert_lower x l)), IH.
  rewrite (filter_cons _ x (y :: l)), (filter_cons _ y l), (filter_cons _ x l).
  destruct (decide (lower x = k)), (decide (lower y = k));
    try reflexivity; congruence.
Qed.

Lemma sort_lower_stable (l : list string) (k : string) :
  filter (fun y => lower y = k) (sort_lower l) = filter (fun y => lower y = k) l.
Proof.
  induction l as [|x l IH]; [reflexivity|].
  cbn [sort_lower fold_right]. fold (sort_lower l).
  rewrite insert_lower_stable, !(filter_cons _ x), IH. reflexivity.
Qed.

(** [gen_includes] lists in [all_includes.h] the entries of the directory
    that end in [.hxx], each as often as it is listed, in the order of
    their lower-case forms, entries of one form in the order listed.  The
    modules it returns are, without repeats and in that order too, the
    prefixes of all entries of the directory, headers or not: so the
    module [build_imports] works out for an entry is always one of
    them. *)
Theorem gen_includes_lists (listing : list string) :
  let r := gen_includes listing in
  all_includes r ≡ₚ List.filter (fun fin => Str.endswith fin ".hxx") listing
  ∧ sorted_lower (all_includes r)
  ∧ (∀ k, filter (fun y => lower y = k) (all_includes r)
          = filter (fun y => lower y = k)
              (List.filter (fun fin => Str.endswith fin ".hxx") listing))
  ∧ drop 7 (all_includes_h r)
    = map (fun header => "#include <" +:+ header +:+ ">" +:+ Str.nl) (all_includes r)
  ∧ NoDup (occt_mods r)
  ∧ sorted_lower (occt_mods r)
  ∧ (∀ name, name ∈ occt_mods r ↔ ∃ fin, fin ∈ listing ∧ name = module_of_entry fin)
  ∧ ∀ fin, fin ∈ listing → import_of fin ∈ occt_mods r.
Proof.
  intros r. subst r. unfold gen_includes.
  cbn [all_includes occt_mods all_includes_h].
  assert (Hmods : ∀ name,
             name ∈ sort_lower (iter_set (list_to_set (map module_of_entry listing)
                                            : gset string))
             ↔ ∃ fin, fin ∈ listing ∧ name = module_of_entry fin).
  { intros name. rewrite sort_lower_Permutation, iter_set_elements,
      elem_of_elements, elem_of_list_to_set, list_elem_of_fmap.
    split; intros (fin & H1 & H2); exists fin; auto. }
  split; [apply sort_lower_Permutation|].
  split; [apply sort_lower_sorted|].
  split; [intros k; apply sort_lower_stable|].
  split; [reflexivity|].
  split; [rewrite sort_lower_Permutation, iter_set_elements;
          apply NoDup_elements|].
  split; [apply sort_lower_sorted|].
  split; [exact Hmods|].
  intros fin Hfin. apply Hmods. exists fin. split; [exact Hfin|].
  unfold import_of, module_of_entry. destruct (Str.contains "_" fin); reflexivity.
Qed.

End GenIncludes.

Example gen_includes_sample :
  let r := gen_includes ["gp_Pnt.hxx"; "Standard.hxx"; "BRep_Tool.hxx";
                         "gp_Pnt.lxx"; "README.txt"; "gp.hxx"] in
  occt_mods r = ["BRep"; "gp"; "README"; "Standard"]
  ∧ all_includes r = ["BRep_Tool.hxx"; "gp.hxx"; "gp_Pnt.hxx"; "Standard.hxx"].
Proof. split; vm_compute; reflexivity. Qed.

(** * Directives that add a name to a set *)

Section SetDirectives.
Context `{Environment}.

Lemma space_len_ascii (c : ascii) (s : string) :
  (nat_of_ascii c <? 128)%nat = true →
  Str.space_len (String c s) ≤ 1.
Proof.
  intros Hc%Nat.ltb_lt. cbn [Str.space_len].
  destruct ((9 <=? nat_of_ascii c)%nat && _ || _); [lia|].
  destruct (Nat.eqb_spec (nat_of_ascii c) 194) as [Heq|_]; [lia|].
  destruct (Nat.eqb_spec (nat_of_ascii c) 225) as [Heq|_]; [lia|].
  destruct (Nat.eqb_spec (nat_of_ascii c) 226) as [Heq|_]; [lia|].
  destruct (Nat.eqb_spec (nat_of_ascii c) 227) as [Heq|_]; [lia|].
  cbn [orb]. lia.
Qed.

(** After ASCII characters, a string that does not start with white
    space is not stripped away from the left. *)
Lemma lstrip_app_ascii (p name : string) :
  is_ascii p = true → name ≠ "" → Str.lstrip name = name →
  Str.lstrip (p +:+ name) ≠ "".
Proof.
  intros Hp Hne Hl. induction p as [|c p IH].
  { change (Str.lstrip name ≠ ""). rewrite Hl. exact Hne. }
  cbn [is_ascii] in Hp. apply andb_true_iff in Hp as [Hc Hp].
  change (Str.lstrip (String c (p +:+ name)) ≠ "").
  unfold Str.lstrip. cbn [Str.lstrip_go].
  pose proof (space_len_ascii c (p +:+ name) Hc) as Hlen.
  destruct (Str.space_len (String c (p +:+ name))) as [|[|k]]; [discriminate| |lia].
  apply IH, Hp.
Qed.

Lemma rstrip_app_ascii (p name : string) :
  is_ascii p = true → name ≠ "" → Str.lstrip name = name →
  Str.rstrip name = name →
  Str.rstrip (p +:+ name) = p +:+ name.
Proof.
  intros Hp Hne Hl Hr. induction p as [|c p IH]; [exact Hr|].
  pose proof (lstrip_app_ascii (String c p) name Hp Hne Hl) as Hkept.
  cbn [is_ascii] in Hp. apply andb_true_iff in Hp as [_ Hp].
  change (Str.rstrip (String c (p +:+ name)) = String c (p +:+ name)).
  change (Str.lstrip (String c (p +:+ name)) ≠ "") in Hkept.
  unfold Str.rstrip. cbn [Str.rstrip_go]. unfold Str.lstrip in Hkept.
  destruct (Str.lstrip_go Str.space_len (String c (p +:+ name)) 0);
    [contradiction|].
  f_equal. apply IH, Hp.
Qed.

Lemma replace_go_absent (old new s : string) :
  Str.contains old s = false → Str.replace_go old new s 0 = s.
Proof.
  unfold Str.contains. induction s as [|c s IH]; [reflexivity|].
  cbn [Str.find Str.replace_go].
  destruct (String.prefix old (String c s)); [discriminate|].
  destruct (Str.find old s); [discriminate|].
  intros _. f_equal. apply IH. reflexivity.
Qed.

(** The directives that [process_config] handles by taking the token out
    of the line and adding what is left, stripped, to a set. *)
Definition set_directives : list (string * Generator.SetAttr) :=
  [("-header*", Generator.excluded_headers);
   ("-typedef", Generator.excluded_typedefs);
   ("-enum", Generator.excluded_enums);
   ("-module", Generator.excluded_mods);
   ("+nodelete", Generator.nodelete);
   ("-field", Generator.excluded_fields);
   ("+nested", Generator.nested_classes);
   ("+downcast", Generator.downcast_classes);
   ("+skip", Generator.skipped);
   ("+immutable", Generator.immutable);
   ("+split", Generator.split);
   ("+opaque", Generator.opaque_types)].

Ltac decide_tests :=
  repeat match goal with
         | |- context [Str.startswith ?l ?p] =>
             first [ replace (Str.startswith l p) with false by reflexivity
                   | replace (Str.startswith l p) with true by reflexivity ]
         end.

Ltac directive_line tok name Hne Hl Hr Habsent :=
  unfold process_line, process_line_rest, Str.strip;
  replace (Str.lstrip (tok +:+ " " +:+ name)) with ((tok +:+ " ") +:+ name)
    by reflexivity;
  rewrite (rstrip_app_ascii (tok +:+ " ") name eq_refl Hne Hl Hr);
  decide_tests;
  replace (Str.truthy ((tok +:+ " ") +:+ name)) with true by reflexivity;
  cbn [orb negb]; cbv beta iota zeta; unfold done; do 2 f_equal;
  first
    [ replace (Str.replace ((tok +:+ " ") +:+ name) tok "")
        with (" " +:+ Str.replace_go tok "" name 0) by reflexivity;
      rewrite (replace_go_absent tok "" name Habsent)
    | replace (Str.drop (Str.len tok) ((tok +:+ " ") +:+ name))
        with (" " +:+ name) by reflexivity ];
  replace (Str.lstrip (" " +:+ name)) with (Str.lstrip name) by reflexivity;
  rewrite Hl; exact Hr.

(** A line made of the token of such a directive, a space and a name adds
    the name to the set of the directive and changes nothing else,
    provided the name is not empty, has no white space at its ends -- no
    character for which [str.isspace] holds -- and does not hold the
    token: the source takes the token out wherever it is in the line. *)
Theorem set_directive_adds (platform : string) (g : Generator.t)
    (tok : string) (attr : Generator.SetAttr) (name : string) :
  (tok, attr) ∈ set_directives →
  name ≠ "" → Str.lstrip name = name → Str.rstrip name = name →
  Str.contains tok name = false →
  process_line platform g (tok +:+ " " +:+ name) = (Generator.add attr name g, None).
Proof.
  intros Hin Hne Hl Hr Habsent. unfold set_directives in Hin.
  repeat (apply elem_of_cons in Hin as [Heq|Hin];
          [inversion Heq; subst tok attr; clear Heq|]).
  - directive_line "-header*" name Hne Hl Hr Habsent.
  - directive_line "-typedef" name Hne Hl Hr Habsent.
  - directive_line "-enum" name Hne Hl Hr Habsent.
  - directive_line "-module" name Hne Hl Hr Habsent.
  - directive_line "+nodelete" name Hne Hl Hr Habsent.
  - directive_line "-field" name Hne Hl Hr Habsent.
  - directive_line "+nested" name Hne Hl Hr Habsent.
  - directive_line "+downcast" name Hne Hl Hr Habsent.
  - directive_line "+skip" name Hne Hl Hr Habsent.
  - directive_line "+immutable" name Hne Hl Hr Habsent.
  - directive_line "+split" name Hne Hl Hr Habsent.
  - directive_line "+opaque" name Hne Hl Hr Habsent.
  - inversion Hin.
Qed.

End SetDirectives.

Lemma set_directive_adds_witness :
  process_line "linux" Generator.initial ("-module" +:+ " " +:+ "Foo")
  = (Generator.add Generator.excluded_mods "Foo" Generator.initial, None).
Proof.
  apply (set_directive_adds "linux" Generator.initial "-module"
           Generator.excluded_mods "Foo").
  - unfold set_directives. do 3 (apply elem_of_cons; right).
    apply elem_of_cons. left. reflexivity.
  - discriminate.
  - reflexivity.
  - reflexivity.
  - reflexivity.
Defined.

(** A name that holds the token loses it: the source replaces the token
    everywhere in the line, not only at its start. *)
Example set_directive_token_in_name :
  Generator.mem
    (fst (process_line "linux" Generator.initial "-enum My-enum"))
    Generator.excluded_enums "My"
  = true.
Proof. vm_compute. reflexivity. Qed.

(** A name that starts with a no-break space is stripped of it, as
    [str.strip] does: the name stored is [Foo]. *)
Example set_directive_strips_beyond_ascii :
  Generator.mem
    (fst (process_line "linux" Generator.initial
            ("-module " +:+ String (ascii_of_nat 194) (String (ascii_of_nat 160) "Foo"))))
    Generator.excluded_mods "Foo"
  = true.
Proof. vm_compute. reflexivity. Qed.

(** * Running the emission twice *)

Section Idempotence.
Import Clang.
Context `{Environment}.










End Idempotence.

(** The rules [+iguard Foo: A] and [+iguard Foo: B], and the module [Foo]
    they speak of. *)
Definition guard_rules : list string := ["+iguard Foo: A"; "+iguard Foo: B"].

Definition guard_tables : Generator.t :=
  fst (process_config "linux" Generator.initial guard_rules).

Definition guarded_module : Mod.t := Mod.init "Foo".

(** A process that iterates its sets of strings the other way round. *)
Definition reversed_environment : Environment := {|
  SRC_PREFIX := SRC_PREFIX;
  PY_OPERATORS := PY_OPERATORS;
  fnmatch := fnmatch;
  sha256 := sha256;
  iter_set := fun s => reverse (elements s);
  iter_set_elements := fun s => reverse_Permutation (elements s);
  int_max_str_digits := int_max_str_digits;
  int_beyond_ascii := int_beyond_ascii
|}.


(** The two texts of [Foo.cxx]: the structures of the guards change
    places. *)
Example guard_order_sample :
  let first :=
    @Module_bind sample_environment guarded_module "out"
      (mkRun guard_tables empty_disk) in
  let second :=
    @Module_bind reversed_environment guarded_module "out" first.1 in
  ∃ before after a b,
    files (disk first.1) !! "out/Foo.cxx" = Some (before +:+ a +:+ b +:+ after)
    ∧ files (disk second.1) !! "out/Foo.cxx" = Some (before +:+ b +:+ a +:+ after)
    ∧ a ≠ b.
Proof.
  cbv zeta.
  exists ("// generated" +:+ Str.nl +:+ Str.nl +:+ "PYBIND11_MODULE(Foo, mod) {"
          +:+ Str.nl +:+ Str.nl +:+ Str.nl),
    (Str.nl +:+ "}" +:+ Str.nl),
    ("struct ImportA{" +:+ Str.nl +:+ Str.tab +:+ "ImportA() { py::module::import("
     +:+ Str.quoted "None.A" +:+ "); }" +:+ Str.nl +:+ "};" +:+ Str.nl +:+ Str.nl),
    ("struct ImportB{" +:+ Str.nl +:+ Str.tab +:+ "ImportB() { py::module::import("
     +:+ Str.quoted "None.B" +:+ "); }" +:+ Str.nl +:+ "};" +:+ Str.nl +:+ Str.nl).
  split; [vm_compute; reflexivity|]. split; [vm_compute; reflexivity|].
  vm_compute. discriminate.
Qed.
